(** * Attitude estimation module (flight/Modules/Attitude/revolution/attitude.c)

    A shallow embedding of the attitude task: the complementary filter
    [updateAttitudeComplimentary], the INS/GPS estimator
    [updateAttitudeINSGPS], the settings callback and the task loop,
    over IEEE-754 binary32 arithmetic. *)

From Stdlib Require Import ZArith List Bool Lia.
From Stdlib Require Import Floats.SpecFloat.
Import ListNotations.

Local Open Scope Z_scope.

(** ** Single-precision arithmetic

    The C type [float] is IEEE-754 binary32: 24 bits of precision, the
    exponent of the infinities is 128.  Every operation rounds to nearest,
    ties to even; no operation is fused. *)
Module F32.

Definition prec : Z := 24.
Definition emax : Z := 128.

Definition float : Type := spec_float.

Definition add : float -> float -> float := SFadd prec emax.
Definition sub : float -> float -> float := SFsub prec emax.
Definition mul : float -> float -> float := SFmul prec emax.
Definition div : float -> float -> float := SFdiv prec emax.
Definition sqrtf : float -> float := SFsqrt prec emax.
Definition neg : float -> float := SFopp.
Definition fabs : float -> float := SFabs.

(** C comparisons: all of them are false on a NaN operand, except [!=]. *)
Definition lt (x y : float) : bool := SFltb x y.
Definition le (x y : float) : bool := SFleb x y.
Definition gt (x y : float) : bool := SFltb y x.
Definition eq (x y : float) : bool := SFeqb x y.
Definition ne (x y : float) : bool := negb (SFeqb x y).

(** Conversion of an integer to [float]. *)
Definition of_Z (z : Z) : float := binary_normalize prec emax z 0 false.

(** A decimal literal with suffix [f], given as the fraction [n / d]:
    the float nearest to it.  The division algorithm takes the two
    integers as they are and rounds once. *)
Definition lit (n d : positive) : float :=
  SFdiv prec emax (S754_finite false n 0) (S754_finite false d 0).

(** A literal without suffix has type [double]; it is rounded a second
    time when it is stored in a [float]. *)
Definition of_double (x : spec_float) : float :=
  match x with
  | S754_finite s m e => binary_round prec emax s m e
  | _ => x
  end.
Definition dlit (n d : positive) : float :=
  of_double (SFdiv 53 1024 (S754_finite false n 0) (S754_finite false d 0)).

Definition zero : float := S754_zero false.
Definition one : float := of_Z 1.
Definition two : float := of_Z 2.

Definition is_nan (x : float) : bool :=
  match x with S754_nan => true | _ => false end.

Definition is_finite (x : float) : bool :=
  match x with S754_zero _ | S754_finite _ _ _ => true | _ => false end.

End F32.

Definition float : Type := F32.float.

Declare Scope f32_scope.
Delimit Scope f32_scope with f32.
Infix "+" := F32.add : f32_scope.
Infix "-" := F32.sub : f32_scope.
Infix "*" := F32.mul : f32_scope.
Infix "/" := F32.div : f32_scope.
Notation "- x" := (F32.neg x) : f32_scope.

(** ** Data model *)

(** [float v[3]], and the UAVObject structures with fields [x], [y], [z]
    (GyrosData, AccelsData, MagnetometerData, GyrosBiasData). *)
Record vec3 : Type := Vec3 { vx : float; vy : float; vz : float }.

(** [float q[4]]; in AttitudeActualData the four consecutive fields
    [q1], [q2], [q3], [q4], which [quat_copy] reads and writes as one
    array starting at [&attitudeActual.q1]. *)
Record quat : Type := Quat { q0 : float; q1 : float; q2 : float; q3 : float }.

(** [float R[3][3]], by rows. *)
Record mat3 : Type := Mat3 { row0 : vec3; row1 : vec3; row2 : vec3 }.

Definition zeros : vec3 := Vec3 F32.zero F32.zero F32.zero.
Definition quat_identity : quat := Quat F32.one F32.zero F32.zero F32.zero.

Record AttitudeActualData : Type := {
  att_q : quat;
  Roll : float;
  Pitch : float;
  Yaw : float
}.

Record GPSPositionData : Type := {
  Latitude : Z;
  Longitude : Z;
  Altitude : float;
  GeoidSeparation : float;
  Groundspeed : float;
  Heading : float
}.

Record HomeLocationData : Type := {
  ECEF : Z * Z * Z;
  RNE : mat3;
  Be : vec3
}.

Inductive ArmedState : Type :=
| FLIGHTSTATUS_ARMED_DISARMED
| FLIGHTSTATUS_ARMED_ARMING
| FLIGHTSTATUS_ARMED_ARMED.

Record AttitudeSettingsData : Type := {
  AccelKp : float;
  AccelKi : float;
  YawBiasRate : float;
  GyroGain : float;
  ZeroDuringArming : bool;
  AccelBias : Z * Z * Z;
  GyroBias : Z * Z * Z;
  BoardRotation : Z * Z * Z
}.

(** SYSTEMALARMS_ALARM_ATTITUDE: cleared by [AlarmsClear], raised by
    [AlarmsSet] with SYSTEMALARMS_ALARM_WARNING. *)
Inductive AlarmLevel : Type := ALARM_OK | ALARM_WARNING.

(** The [extern struct NavStruct Nav] of the INS library. *)
Record NavStruct : Type := {
  Pos : vec3;
  Vel : vec3;
  q : quat;
  gyro_bias : vec3
}.

(** The five sensor queues of the module. *)
Inductive queue : Type := gyroQueue | accelQueue | magQueue | baroQueue | gpsQueue.

Inductive estimator : Type := Complimentary | INSGPS.

(** What one iteration does to its collaborators, in order. *)
Inductive event : Type :=
| EvEstimator (e : estimator)
| EvReceive (qu : queue) (ticks : Z) (ok : bool)
| EvStatePrediction (dT : float)
| EvCovariancePrediction (dT : float)
| EvCorrection (sensors : Z).

(** What the rest of the system presents to one iteration: the queues,
    the clock, the objects owned by other modules, and the indeterminate
    contents of the automatic variables that are read before being
    assigned. *)
Record Cycle : Type := {
  (** tick, counted from the start of the iteration, at which an event is
      in the queue; [None] when no event comes *)
  arrival : queue -> option Z;
  (** xTaskGetTickCount() *)
  tick_count : Z;
  (** PIOS_DELAY_GetRaw(), in microseconds *)
  raw_time : Z;
  Gyros : vec3;
  Accels : vec3;
  Magnetometer : vec3;
  BaroAltitude : float;
  GPSPosition : GPSPositionData;
  HomeLocation : HomeLocationData;
  Armed : ArmedState;
  AttitudeSettings : AttitudeSettingsData;
  (** initial contents of [bool mag_updated], [baro_updated], [gps_updated] *)
  junk_mag : bool;
  junk_baro : bool;
  junk_gps : bool
}.

(** ** Integer types *)

Definition uint32 (z : Z) : Z := z mod 2 ^ 32.
Definition int32 (z : Z) : Z := (z + 2 ^ 31) mod 2 ^ 32 - 2 ^ 31.
Definition uint16 (z : Z) : Z := z mod 2 ^ 16.

(** ** Constants of the module *)

Definition FAILSAFE_TIMEOUT_MS : Z := 10.

(** [#define F_PI 3.14159265358979323846f] *)
Definition F_PI : float := F32.lit 314159265358979323846 100000000000000000000.

(** [float magKi = 0.000001f; float magKp = 0.0001f;], never assigned. *)
Definition magKi : float := F32.lit 1 1000000.
Definition magKp : float := F32.lit 1 10000.

(** ** CoordinateConversions *)

(** Modelled from the spec: [CrossProduct] of CoordinateConversions is not
    among the sources; the spec names it the vector cross product of the
    stateless math library (4.4).  Each component is one difference of two
    products. *)
Definition CrossProduct (v1 v2 : vec3) : vec3 :=
  (Vec3 (vy v1 * vz v2 - vy v2 * vz v1)
        (vx v2 * vz v1 - vx v1 * vz v2)
        (vx v1 * vy v2 - vx v2 * vy v1))%f32.

(** Modelled from the spec: [Quaternion2R] of CoordinateConversions is not
    among the sources; the spec names it the quaternion to rotation-matrix
    conversion (4.4).  The matrix rotates from the earth frame to the body
    frame; its third column is the one the complementary filter writes out
    by hand for the gravity vector. *)
Definition Quaternion2R (q : quat) : mat3 :=
  (let q0s := q0 q * q0 q in
   let q1s := q1 q * q1 q in
   let q2s := q2 q * q2 q in
   let q3s := q3 q * q3 q in
   Mat3 (Vec3 (q0s + q1s - q2s - q3s)
              (F32.two * (q1 q * q2 q + q0 q * q3 q))
              (F32.two * (q1 q * q3 q - q0 q * q2 q)))
        (Vec3 (F32.two * (q1 q * q2 q - q0 q * q3 q))
              (q0s - q1s + q2s - q3s)
              (F32.two * (q2 q * q3 q + q0 q * q1 q)))
        (Vec3 (F32.two * (q1 q * q3 q + q0 q * q2 q))
              (F32.two * (q2 q * q3 q - q0 q * q1 q))
              (q0s - q1s - q2s + q3s)))%f32.

(** Modelled from the spec: [rot_mult] of CoordinateConversions is not
    among the sources; it applies a rotation matrix, or its transpose, to a
    vector. *)
Definition rot_mult (R : mat3) (v : vec3) (transpose : bool) : vec3 :=
  (let dot a b c := a * vx v + b * vy v + c * vz v in
   if transpose then
     Vec3 (dot (vx (row0 R)) (vx (row1 R)) (vx (row2 R)))
          (dot (vy (row0 R)) (vy (row1 R)) (vy (row2 R)))
          (dot (vz (row0 R)) (vz (row1 R)) (vz (row2 R)))
   else
     Vec3 (dot (vx (row0 R)) (vy (row0 R)) (vz (row0 R)))
          (dot (vx (row1 R)) (vy (row1 R)) (vz (row1 R)))
          (dot (vx (row2 R)) (vy (row2 R)) (vz (row2 R))))%f32.

(** The rest of the math library and of libm, which the properties below
    do not look into: an interface. *)
Record MathLib : Type := {
  Quaternion2RPY : quat -> vec3;
  RPY2Quaternion : vec3 -> quat;
  R2Quaternion : mat3 -> quat;
  RotFrom2Vectors : vec3 -> vec3 -> vec3 -> vec3 -> mat3;
  LLA2Base : vec3 -> vec3 -> mat3 -> vec3;
  cosf : float -> float;
  sinf : float -> float
}.

(** ** The INS library (insgps.h)

    The filter of the INS library is not among the sources.  Its state is
    an abstract type [INS]; [Nav] reads the exported structure. *)
Record InsLib (INS : Type) : Type := {
  Nav : INS -> NavStruct;
  INSGPSInit : INS -> INS;
  INSSetState : vec3 -> vec3 -> quat -> vec3 -> vec3 -> INS -> INS;
  INSSetGyroBias : vec3 -> INS -> INS;
  INSResetP : list float -> INS -> INS;
  INSStatePrediction : vec3 -> vec3 -> float -> INS -> INS;
  INSCovariancePrediction : float -> INS -> INS;
  INSCorrection : vec3 -> vec3 -> vec3 -> float -> Z -> INS -> INS;
  HORIZ_SENSORS : Z;
  VERT_SENSORS : Z;
  MAG_SENSORS : Z;
  BARO_SENSOR : Z;
  (** Modelled from the spec: [INSSetGyroBias] is not among the sources;
      it overwrites the gyro-bias components of the state, which [Nav]
      then reports (4.3, stability guard: the bias state is reset). *)
  INSSetGyroBias_Nav :
    forall b s, gyro_bias (Nav (INSSetGyroBias b s)) = b
}.

Arguments Nav {INS} _ _.
Arguments INSGPSInit {INS} _ _.
Arguments INSSetState {INS} _ _ _ _ _ _ _.
Arguments INSSetGyroBias {INS} _ _ _.
Arguments INSResetP {INS} _ _ _.
Arguments INSStatePrediction {INS} _ _ _ _ _.
Arguments INSCovariancePrediction {INS} _ _ _.
Arguments INSCorrection {INS} _ _ _ _ _ _ _.
Arguments HORIZ_SENSORS {INS} _.
Arguments VERT_SENSORS {INS} _.
Arguments MAG_SENSORS {INS} _.
Arguments BARO_SENSOR {INS} _.
Arguments INSSetGyroBias_Nav {INS} _ _ _.

(** ** The state of the module

    The UAVObjects the module writes (AttitudeActual, GyrosBias,
    PositionActual, VelocityActual, the attitude alarm), its file-scope
    variables, the [static] locals of the two estimators, the state of the
    INS library, and the record of what the module did. *)
Section Attitude.

Context {INS : Type}.
Variable M : MathLib.
Variable L : InsLib INS.

(** [portTICK_RATE_MS] of the RTOS configuration: milliseconds per tick. *)
Variable portTICK_RATE_MS : Z.

Record State : Type := {
  AttitudeActual : AttitudeActualData;
  GyrosBias : vec3;
  PositionActual : vec3;
  VelocityActual : vec3;
  alarm : AlarmLevel;
  accelKi : float;
  accelKp : float;
  yawBiasRate : float;
  gyroGain : float;
  accelbias : Z * Z * Z;
  R : mat3;
  rotate : Z;
  zero_during_arming : bool;
  accel_mag : float;
  qmag : float;
  mag_err : vec3;
  timeval : Z;
  init : Z;
  ins_last_time : Z;
  inited : bool;
  ins : INS;
  trace : list event
}.

Definition set_AttitudeActual (v : AttitudeActualData) (s : State) : State :=
  {| AttitudeActual := v; GyrosBias := GyrosBias s;
     PositionActual := PositionActual s;
     VelocityActual := VelocityActual s; alarm := alarm s;
     accelKi := accelKi s; accelKp := accelKp s;
     yawBiasRate := yawBiasRate s; gyroGain := gyroGain s;
     accelbias := accelbias s; R := R s; rotate := rotate s;
     zero_during_arming := zero_during_arming s; accel_mag := accel_mag s;
     qmag := qmag s; mag_err := mag_err s; timeval := timeval s;
     init := init s; ins_last_time := ins_last_time s; inited := inited s;
     ins := ins s; trace := trace s |}.

Definition set_GyrosBias (v : vec3) (s : State) : State :=
  {| AttitudeActual := AttitudeActual s; GyrosBias := v;
     PositionActual := PositionActual s;
     VelocityActual := VelocityActual s; alarm := alarm s;
     accelKi := accelKi s; accelKp := accelKp s;
     yawBiasRate := yawBiasRate s; gyroGain := gyroGain s;
     accelbias := accelbias s; R := R s; rotate := rotate s;
     zero_during_arming := zero_during_arming s; accel_mag := accel_mag s;
     qmag := qmag s; mag_err := mag_err s; timeval := timeval s;
     init := init s; ins_last_time := ins_last_time s; inited := inited s;
     ins := ins s; trace := trace s |}.

Definition set_PositionActual (v : vec3) (s : State) : State :=
  {| AttitudeActual := AttitudeActual s; GyrosBias := GyrosBias s;
     PositionActual := v; VelocityActual := VelocityActual s;
     alarm := alarm s; accelKi := accelKi s; accelKp := accelKp s;
     yawBiasRate := yawBiasRate s; gyroGain := gyroGain s;
     accelbias := accelbias s; R := R s; rotate := rotate s;
     zero_during_arming := zero_during_arming s; accel_mag := accel_mag s;
     qmag := qmag s; mag_err := mag_err s; timeval := timeval s;
     init := init s; ins_last_time := ins_last_time s; inited := inited s;
     ins := ins s; trace := trace s |}.

Definition set_VelocityActual (v : vec3) (s : State) : State :=
  {| AttitudeActual := AttitudeActual s; GyrosBias := GyrosBias s;
     PositionActual := PositionActual s; VelocityActual := v;
     alarm := alarm s; accelKi := accelKi s; accelKp := accelKp s;
     yawBiasRate := yawBiasRate s; gyroGain := gyroGain s;
     accelbias := accelbias s; R := R s; rotate := rotate s;
     zero_during_arming := zero_during_arming s; accel_mag := accel_mag s;
     qmag := qmag s; mag_err := mag_err s; timeval := timeval s;
     init := init s; ins_last_time := ins_last_time s; inited := inited s;
     ins := ins s; trace := trace s |}.

Definition set_alarm (v : AlarmLevel) (s : State) : State :=
  {| AttitudeActual := AttitudeActual s; GyrosBias := GyrosBias s;
     PositionActual := PositionActual s;
     VelocityActual := VelocityActual s; alarm := v; accelKi := accelKi s;
     accelKp := accelKp s; yawBiasRate := yawBiasRate s;
     gyroGain := gyroGain s; accelbias := accelbias s; R := R s;
     rotate := rotate s; zero_during_arming := zero_during_arming s;
     accel_mag := accel_mag s; qmag := qmag s; mag_err := mag_err s;
     timeval := timeval s; init := init s;
     ins_last_time := ins_last_time s; inited := inited s; ins := ins s;
     trace := trace s |}.

Definition set_accelKi (v : float) (s : State) : State :=
  {| AttitudeActual := AttitudeActual s; GyrosBias := GyrosBias s;
     PositionActual := PositionActual s;
     VelocityActual := VelocityActual s; alarm := alarm s; accelKi := v;
     accelKp := accelKp s; yawBiasRate := yawBiasRate s;
     gyroGain := gyroGain s; accelbias := accelbias s; R := R s;
     rotate := rotate s; zero_during_arming := zero_during_arming s;
     accel_mag := accel_mag s; qmag := qmag s; mag_err := mag_err s;
     timeval := timeval s; init := init s;
     ins_last_time := ins_last_time s; inited := inited s; ins := ins s;
     trace := trace s |}.

Definition set_accelKp (v : float) (s : State) : State :=
  {| AttitudeActual := AttitudeActual s; GyrosBias := GyrosBias s;
     PositionActual := PositionActual s;
     VelocityActual := VelocityActual s; alarm := alarm s;
     accelKi := accelKi s; accelKp := v; yawBiasRate := yawBiasRate s;
     gyroGain := gyroGain s; accelbias := accelbias s; R := R s;
     rotate := rotate s; zero_during_arming := zero_during_arming s;
     accel_mag := accel_mag s; qmag := qmag s; mag_err := mag_err s;
     timeval := timeval s; init := init s;
     ins_last_time := ins_last_time s; inited := inited s; ins := ins s;
     trace := trace s |}.

Definition set_yawBiasRate (v : float) (s : State) : State :=
  {| AttitudeActual := AttitudeActual s; GyrosBias := GyrosBias s;
     PositionActual := PositionActual s;
     VelocityActual := VelocityActual s; alarm := alarm s;
     accelKi := accelKi s; accelKp := accelKp s; yawBiasRate := v;
     gyroGain := gyroGain s; accelbias := accelbias s; R := R s;
     rotate := rotate s; zero_during_arming := zero_during_arming s;
     accel_mag := accel_mag s; qmag := qmag s; mag_err := mag_err s;
     timeval := timeval s; init := init s;
     ins_last_time := ins_last_time s; inited := inited s; ins := ins s;
     trace := trace s |}.

Definition set_gyroGain (v : float) (s : State) : State :=
  {| AttitudeActual := AttitudeActual s; GyrosBias := GyrosBias s;
     PositionActual := PositionActual s;
     VelocityActual := VelocityActual s; alarm := alarm s;
     accelKi := accelKi s; accelKp := accelKp s;
     yawBiasRate := yawBiasRate s; gyroGain := v; accelbias := accelbias s;
     R := R s; rotate := rotate s;
     zero_during_arming := zero_during_arming s; accel_mag := accel_mag s;
     qmag := qmag s; mag_err := mag_err s; timeval := timeval s;
     init := init s; ins_last_time := ins_last_time s; inited := inited s;
     ins := ins s; trace := trace s |}.

Definition set_accelbias (v : Z * Z * Z) (s : State) : State :=
  {| AttitudeActual := AttitudeActual s; GyrosBias := GyrosBias s;
     PositionActual := PositionActual s;
     VelocityActual := VelocityActual s; alarm := alarm s;
     accelKi := accelKi s; accelKp := accelKp s;
     yawBiasRate := yawBiasRate s; gyroGain := gyroGain s; accelbias := v;
     R := R s; rotate := rotate s;
     zero_during_arming := zero_during_arming s; accel_mag := accel_mag s;
     qmag := qmag s; mag_err := mag_err s; timeval := timeval s;
     init := init s; ins_last_time := ins_last_time s; inited := inited s;
     ins := ins s; trace := trace s |}.

Definition set_R (v : mat3) (s : State) : State :=
  {| AttitudeActual := AttitudeActual s; GyrosBias := GyrosBias s;
     PositionActual := PositionActual s;
     VelocityActual := VelocityActual s; alarm := alarm s;
     accelKi := accelKi s; accelKp := accelKp s;
     yawBiasRate := yawBiasRate s; gyroGain := gyroGain s;
     accelbias := accelbias s; R := v; rotate := rotate s;
     zero_during_arming := zero_during_arming s; accel_mag := accel_mag s;
     qmag := qmag s; mag_err := mag_err s; timeval := timeval s;
     init := init s; ins_last_time := ins_last_time s; inited := inited s;
     ins := ins s; trace := trace s |}.

Definition set_rotate (v : Z) (s : State) : State :=
  {| AttitudeActual := AttitudeActual s; GyrosBias := GyrosBias s;
     PositionActual := PositionActual s;
     VelocityActual := VelocityActual s; alarm := alarm s;
     accelKi := accelKi s; accelKp := accelKp s;
     yawBiasRate := yawBiasRate s; gyroGain := gyroGain s;
     accelbias := accelbias s; R := R s; rotate := v;
     zero_during_arming := zero_during_arming s; accel_mag := accel_mag s;
     qmag := qmag s; mag_err := mag_err s; timeval := timeval s;
     init := init s; ins_last_time := ins_last_time s; inited := inited s;
     ins := ins s; trace := trace s |}.

Definition set_zero_during_arming (v : bool) (s : State) : State :=
  {| AttitudeActual := AttitudeActual s; GyrosBias := GyrosBias s;
     PositionActual := PositionActual s;
     VelocityActual := VelocityActual s; alarm := alarm s;
     accelKi := accelKi s; accelKp := accelKp s;
     yawBiasRate := yawBiasRate s; gyroGain := gyroGain s;
     accelbias := accelbias s; R := R s; rotate := rotate s;
     zero_during_arming := v; accel_mag := accel_mag s; qmag := qmag s;
     mag_err := mag_err s; timeval := timeval s; init := init s;
     ins_last_time := ins_last_time s; inited := inited s; ins := ins s;
     trace := trace s |}.

Definition set_accel_mag (v : float) (s : State) : State :=
  {| AttitudeActual := AttitudeActual s; GyrosBias := GyrosBias s;
     PositionActual := PositionActual s;
     VelocityActual := VelocityActual s; alarm := alarm s;
     accelKi := accelKi s; accelKp := accelKp s;
     yawBiasRate := yawBiasRate s; gyroGain := gyroGain s;
     accelbias := accelbias s; R := R s; rotate := rotate s;
     zero_during_arming := zero_during_arming s; accel_mag := v;
     qmag := qmag s; mag_err := mag_err s; timeval := timeval s;
     init := init s; ins_last_time := ins_last_time s; inited := inited s;
     ins := ins s; trace := trace s |}.

Definition set_qmag (v : float) (s : State) : State :=
  {| AttitudeActual := AttitudeActual s; GyrosBias := GyrosBias s;
     PositionActual := PositionActual s;
     VelocityActual := VelocityActual s; alarm := alarm s;
     accelKi := accelKi s; accelKp := accelKp s;
     yawBiasRate := yawBiasRate s; gyroGain := gyroGain s;
     accelbias := accelbias s; R := R s; rotate := rotate s;
     zero_during_arming := zero_during_arming s; accel_mag := accel_mag s;
     qmag := v; mag_err := mag_err s; timeval := timeval s; init := init s;
     ins_last_time := ins_last_time s; inited := inited s; ins := ins s;
     trace := trace s |}.

Definition set_mag_err (v : vec3) (s : State) : State :=
  {| AttitudeActual := AttitudeActual s; GyrosBias := GyrosBias s;
     PositionActual := PositionActual s;
     VelocityActual := VelocityActual s; alarm := alarm s;
     accelKi := accelKi s; accelKp := accelKp s;
     yawBiasRate := yawBiasRate s; gyroGain := gyroGain s;
     accelbias := accelbias s; R := R s; rotate := rotate s;
     zero_during_arming := zero_during_arming s; accel_mag := accel_mag s;
     qmag := qmag s; mag_err := v; timeval := timeval s; init := init s;
     ins_last_time := ins_last_time s; inited := inited s; ins := ins s;
     trace := trace s |}.

Definition set_timeval (v : Z) (s : State) : State :=
  {| AttitudeActual := AttitudeActual s; GyrosBias := GyrosBias s;
     PositionActual := PositionActual s;
     VelocityActual := VelocityActual s; alarm := alarm s;
     accelKi := accelKi s; accelKp := accelKp s;
     yawBiasRate := yawBiasRate s; gyroGain := gyroGain s;
     accelbias := accelbias s; R := R s; rotate := rotate s;
     zero_during_arming := zero_during_arming s; accel_mag := accel_mag s;
     qmag := qmag s; mag_err := mag_err s; timeval := v; init := init s;
     ins_last_time := ins_last_time s; inited := inited s; ins := ins s;
     trace := trace s |}.

Definition set_init (v : Z) (s : State) : State :=
  {| AttitudeActual := AttitudeActual s; GyrosBias := GyrosBias s;
     PositionActual := PositionActual s;
     VelocityActual := VelocityActual s; alarm := alarm s;
     accelKi := accelKi s; accelKp := accelKp s;
     yawBiasRate := yawBiasRate s; gyroGain := gyroGain s;
     accelbias := accelbias s; R := R s; rotate := rotate s;
     zero_during_arming := zero_during_arming s; accel_mag := accel_mag s;
     qmag := qmag s; mag_err := mag_err s; timeval := timeval s; init := v;
     ins_last_time := ins_last_time s; inited := inited s; ins := ins s;
     trace := trace s |}.

Definition set_ins_last_time (v : Z) (s : State) : State :=
  {| AttitudeActual := AttitudeActual s; GyrosBias := GyrosBias s;
     PositionActual := PositionActual s;
     VelocityActual := VelocityActual s; alarm := alarm s;
     accelKi := accelKi s; accelKp := accelKp s;
     yawBiasRate := yawBiasRate s; gyroGain := gyroGain s;
     accelbias := accelbias s; R := R s; rotate := rotate s;
     zero_during_arming := zero_during_arming s; accel_mag := accel_mag s;
     qmag := qmag s; mag_err := mag_err s; timeval := timeval s;
     init := init s; ins_last_time := v; inited := inited s; ins := ins s;
     trace := trace s |}.

Definition set_inited (v : bool) (s : State) : State :=
  {| AttitudeActual := AttitudeActual s; GyrosBias := GyrosBias s;
     PositionActual := PositionActual s;
     VelocityActual := VelocityActual s; alarm := alarm s;
     accelKi := accelKi s; accelKp := accelKp s;
     yawBiasRate := yawBiasRate s; gyroGain := gyroGain s;
     accelbias := accelbias s; R := R s; rotate := rotate s;
     zero_during_arming := zero_during_arming s; accel_mag := accel_mag s;
     qmag := qmag s; mag_err := mag_err s; timeval := timeval s;
     init := init s; ins_last_time := ins_last_time s; inited := v;
     ins := ins s; trace := trace s |}.

Definition set_ins (v : INS) (s : State) : State :=
  {| AttitudeActual := AttitudeActual s; GyrosBias := GyrosBias s;
     PositionActual := PositionActual s;
     VelocityActual := VelocityActual s; alarm := alarm s;
     accelKi := accelKi s; accelKp := accelKp s;
     yawBiasRate := yawBiasRate s; gyroGain := gyroGain s;
     accelbias := accelbias s; R := R s; rotate := rotate s;
     zero_during_arming := zero_during_arming s; accel_mag := accel_mag s;
     qmag := qmag s; mag_err := mag_err s; timeval := timeval s;
     init := init s; ins_last_time := ins_last_time s; inited := inited s;
     ins := v; trace := trace s |}.

Definition set_trace (v : list event) (s : State) : State :=
  {| AttitudeActual := AttitudeActual s; GyrosBias := GyrosBias s;
     PositionActual := PositionActual s;
     VelocityActual := VelocityActual s; alarm := alarm s;
     accelKi := accelKi s; accelKp := accelKp s;
     yawBiasRate := yawBiasRate s; gyroGain := gyroGain s;
     accelbias := accelbias s; R := R s; rotate := rotate s;
     zero_during_arming := zero_during_arming s; accel_mag := accel_mag s;
     qmag := qmag s; mag_err := mag_err s; timeval := timeval s;
     init := init s; ins_last_time := ins_last_time s; inited := inited s;
     ins := ins s; trace := v |}.


(** ** Collaborators *)

Definition log (e : event) (s : State) : State := set_trace (trace s ++ [e]) s.

Definition AlarmsSet (v : AlarmLevel) (s : State) : State := set_alarm v s.
Definition AlarmsClear (s : State) : State := set_alarm ALARM_OK s.

(** [xQueueReceive(queue, &ev, ticks)] called at tick [now] of the
    iteration: it returns pdTRUE as soon as an event is in the queue, and
    gives up [ticks] ticks after the call.  The result is the answer and
    the tick at which the call returns. *)
Definition xQueueReceive (c : Cycle) (qu : queue) (ticks now : Z) : bool * Z :=
  match arrival c qu with
  | Some t => if t <=? now + ticks then (true, Z.max now t)
              else (false, now + ticks)
  | None => (false, now + ticks)
  end.

Definition receive (c : Cycle) (qu : queue) (ticks now : Z) (s : State)
  : bool * Z * State :=
  let (ok, now') := xQueueReceive c qu ticks now in
  (ok, now', log (EvReceive qu ticks ok) s).

(** Modelled from the spec: [PIOS_DELAY_DiffuS] is not among the sources;
    the spec has it as the time elapsed since the stored raw time (4.2,
    step 1), here in microseconds of a 32-bit counter. *)
Definition PIOS_DELAY_DiffuS (c : Cycle) (raw : Z) : Z :=
  uint32 (raw_time c - uint32 raw).

(** ** The complementary filter *)

(** [dT = PIOS_DELAY_DiffuS(timeval) / 1000000.0f] *)
Definition complimentary_dT (c : Cycle) (s : State) : float :=
  (F32.of_Z (PIOS_DELAY_DiffuS c (timeval s)) / F32.lit 1000000 1)%f32.

(** Lines 244-263: the gains of this iteration. *)
Definition forced_gains (s : State) : State :=
  set_yawBiasRate (F32.dlit 23 100)
    (set_accelKi (F32.dlit 9 10) (set_accelKp (F32.of_Z 1) s)).

Definition is_arming (a : ArmedState) : bool :=
  match a with FLIGHTSTATUS_ARMED_ARMING => true | _ => false end.

Definition select_gains (first_run : bool) (c : Cycle) (s : State) : State :=
  let s := if first_run then set_init 0 s else s in
  if ((init s =? 0) && (tick_count c <? 7000)) && (1000 <? tick_count c) then
    forced_gains s
  else if zero_during_arming s && is_arming (Armed c) then
    set_init 0 (forced_gains s)
  else if init s =? 0 then
    set_init 1
      (set_yawBiasRate (YawBiasRate (AttitudeSettings c))
         (set_accelKp (AccelKp (AttitudeSettings c))
            (set_accelKi (AccelKi (AttitudeSettings c)) s)))
  else s.

(** Lines 283-287: gravity rotated to the body frame. *)
Definition gravity_body (q : quat) : vec3 :=
  (Vec3 (- (F32.two * (q1 q * q3 q - q0 q * q2 q)))
        (- (F32.two * (q2 q * q3 q + q0 q * q1 q)))
        (- (q0 q * q0 q - q1 q * q1 q - q2 q * q2 q + q3 q * q3 q)))%f32.

Definition norm3 (v : vec3) : float :=
  F32.sqrtf (vx v * vx v + vy v * vy v + vz v * vz v)%f32.

Definition vec3_div (v : vec3) (d : float) : vec3 :=
  (Vec3 (vx v / d) (vy v / d) (vz v / d))%f32.

(** Lines 299-323: the magnetic error, from the magnetometer and the
    reference field rotated to the body frame. *)
Definition magnetic_error (q : quat) (c : Cycle) : vec3 :=
  let Rbe := Quaternion2R q in
  let mag := Magnetometer c in
  let home := HomeLocation c in
  let brot := rot_mult Rbe (Be home) false in
  let mag_len := norm3 mag in
  let mag := vec3_div mag mag_len in
  let bmag := norm3 brot in
  let brot := vec3_div brot bmag in
  if F32.lt bmag (F32.of_Z 1) || F32.lt mag_len (F32.of_Z 1) then zeros
  else CrossProduct mag brot.

(** Lines 341-353: one time step of the quaternion. *)
Definition quat_step (q : quat) (g : vec3) (dT : float) : quat :=
  (let scale a := a * dT * F_PI / F32.of_Z 180 / F32.of_Z 2 in
   let qdot0 := scale (- q1 q * vx g - q2 q * vy g - q3 q * vz g) in
   let qdot1 := scale (q0 q * vx g - q3 q * vy g + q2 q * vz g) in
   let qdot2 := scale (q3 q * vx g + q0 q * vy g - q1 q * vz g) in
   let qdot3 := scale (- q2 q * vx g + q1 q * vy g + q0 q * vz g) in
   Quat (q0 q + qdot0) (q1 q + qdot1) (q2 q + qdot2) (q3 q + qdot3))%f32.

(** Lines 355-360. *)
Definition quat_positive (q : quat) : quat :=
  (if F32.lt (q0 q) (F32.of_Z 0) then Quat (- q0 q) (- q1 q) (- q2 q) (- q3 q)
   else q)%f32.

(** Line 363. *)
Definition quat_norm (q : quat) : float :=
  F32.sqrtf (q0 q * q0 q + q1 q * q1 q + q2 q * q2 q + q3 q * q3 q)%f32.

(** Lines 364-376. *)
Definition quat_renormalize (q : quat) (qmag : float) : quat :=
  (let q := Quat (q0 q / qmag) (q1 q / qmag) (q2 q / qmag) (q3 q / qmag) in
   if F32.lt (F32.fabs qmag) (F32.lit 1 1000) || F32.ne qmag qmag
   then Quat (F32.of_Z 1) (F32.of_Z 0) (F32.of_Z 0) (F32.of_Z 0)
   else q)%f32.

(** Lines 241-395: the filter proper, once both mandatory samples are in;
    [now] is the tick at which the accelerometer poll returned. *)
Definition complimentary_filter (first_run : bool) (c : Cycle) (now : Z)
  (s : State) : State :=
  let s := select_gains first_run c s in
  let gyrosData := Gyros c in
  let accelsData := Accels c in
  let dT := complimentary_dT c s in
  let s := set_timeval (int32 (raw_time c)) s in
  let attitudeActual := AttitudeActual s in
  let q := att_q attitudeActual in
  let grot := gravity_body q in
  let accel_err := CrossProduct accelsData grot in
  let s := set_accel_mag (norm3 accelsData) s in
  let accel_err := vec3_div accel_err (accel_mag s) in
  let '(ok, now, s) := receive c magQueue 0 now s in
  let s := if negb ok then set_mag_err (magnetic_error q c) s
           else set_mag_err zeros s in
  let gyrosBias := GyrosBias s in
  let gyrosBias :=
    (Vec3 (vx gyrosBias + vx accel_err * accelKi s)
          (vy gyrosBias + vy accel_err * accelKi s)
          (vz gyrosBias + vz (mag_err s) * magKi))%f32 in
  let s := set_GyrosBias gyrosBias s in
  let gyrosData :=
    (Vec3 (vx gyrosData + vx accel_err * accelKp s / dT)
          (vy gyrosData + vy accel_err * accelKp s / dT)
          (vz gyrosData + (vz accel_err * accelKp s / dT
                           + vz (mag_err s) * magKp / dT)))%f32 in
  let q := quat_step q gyrosData dT in
  let q := quat_positive q in
  let s := set_qmag (quat_norm q) s in
  let q := quat_renormalize q (qmag s) in
  let rpy := Quaternion2RPY M q in
  let attitudeActual :=
    {| att_q := q; Roll := vx rpy; Pitch := vy rpy; Yaw := vz rpy |} in
  let s := set_AttitudeActual attitudeActual s in
  let '(_, now, s) := receive c baroQueue 0 now s in
  let '(_, now, s) := receive c gpsQueue 0 now s in
  AlarmsClear s.

Definition updateAttitudeComplimentary (first_run : bool) (c : Cycle) (s : State)
  : Z * State :=
  let s := log (EvEstimator Complimentary) s in
  let '(ok, now, s) :=
    receive c gyroQueue (Z.quot FAILSAFE_TIMEOUT_MS portTICK_RATE_MS) 0 s in
  if negb ok then (-1, AlarmsSet ALARM_WARNING s) else
  let '(ok, now, s) := receive c accelQueue 0 now s in
  if negb ok then (-1, AlarmsSet ALARM_WARNING s) else
  (0, complimentary_filter first_run c now s).

(** ** The INS/GPS estimator *)

(** Lines 487-494: the time step, kept between 1 ms and 10 ms. *)
Definition clamp_dT (dT : float) : float :=
  if F32.gt dT (F32.lit 1 100) then F32.lit 1 100
  else if F32.le dT (F32.lit 1 1000) then F32.lit 1 1000
  else dT.

Definition insgps_dT (c : Cycle) (s : State) : float :=
  clamp_dT (F32.of_Z (PIOS_DELAY_DiffuS c (ins_last_time s))
            / F32.lit 1000000 1)%f32.

(** Lines 463-465 and 540-542. *)
Definition gps_velocity (gpsPosition : GPSPositionData) : vec3 :=
  (let heading := Heading gpsPosition * F_PI / F32.lit 180 1 in
   Vec3 (Groundspeed gpsPosition * cosf M heading)
        (Groundspeed gpsPosition * sinf M heading)
        (F32.of_Z 0))%f32.

(** Lines 467-471 and 547-551. *)
Definition gps_NED (gpsPosition : GPSPositionData) (home : HomeLocationData)
  : vec3 :=
  (let LLA :=
     Vec3 (F32.of_Z (Latitude gpsPosition) / F32.lit 10000000 1)
          (F32.of_Z (Longitude gpsPosition) / F32.lit 10000000 1)
          (GeoidSeparation gpsPosition + Altitude gpsPosition) in
   let '(e0, e1, e2) := ECEF home in
   let ecef :=
     Vec3 (F32.of_Z e0 / F32.lit 100 1) (F32.of_Z e1 / F32.lit 100 1)
          (F32.of_Z e2 / F32.lit 100 1) in
   LLA2Base M LLA ecef (RNE home))%f32.

Definition Pdiag : list float :=
  [F32.lit 25 1; F32.lit 25 1; F32.lit 25 1;
   F32.lit 5 1; F32.lit 5 1; F32.lit 5 1;
   F32.lit 1 100000; F32.lit 1 100000; F32.lit 1 100000;
   F32.lit 1 100000; F32.lit 1 100000; F32.lit 1 100000;
   F32.lit 1 100000;
   F32.lit 1 10000; F32.lit 1 10000; F32.lit 1 10000].

(** Lines 449-477: the filter seeded from the samples of this cycle. *)
Definition seed_filter (c : Cycle) (i : INS) : INS :=
  let ge := Vec3 F32.zero F32.zero (F32.neg (F32.lit 981 100)) in
  let i := INSGPSInit L i in
  let home := HomeLocation c in
  let gpsPosition := GPSPosition c in
  let vel := gps_velocity gpsPosition in
  let NED := gps_NED gpsPosition home in
  let Rbe := RotFrom2Vectors M (Accels c) ge (Magnetometer c) (Be home) in
  let q := R2Quaternion M Rbe in
  let i := INSSetState L NED vel q (Gyros c) zeros i in
  let i := INSSetGyroBias L (Gyros c) i in
  INSResetP L Pdiag i.

(** Lines 446-481. *)
Definition insgps_initialize (c : Cycle) (s : State) : State :=
  let s := set_inited true s in
  let s := set_ins (seed_filter c (ins s)) s in
  set_ins_last_time (uint32 (raw_time c)) s.

(** Lines 526-536: the sensors handed to the correction. *)
Definition sensor_mask (mag_updated baro_updated gps_updated : bool) : Z :=
  let sensors := 0 in
  let sensors :=
    if mag_updated then uint16 (Z.lor sensors (MAG_SENSORS L)) else sensors in
  let sensors :=
    if baro_updated then uint16 (Z.lor sensors (BARO_SENSOR L)) else sensors in
  if gps_updated then uint16 (Z.lor (HORIZ_SENSORS L) (VERT_SENSORS L))
  else sensors.

(** Lines 576-579: the guard on the gyro bias. *)
Definition bias_exceeds (b : float) : bool := F32.gt (F32.fabs b) (F32.lit 1 10).

Definition bias_guard (s : State) : State :=
  let b := gyro_bias (Nav L (ins s)) in
  if bias_exceeds (vx b) || bias_exceeds (vy b) || bias_exceeds (vz b)
  then set_ins (INSSetGyroBias L zeros (ins s)) s
  else s.

(** Lines 483-573: prediction, publication of the attitude, correction,
    publication of position and velocity. *)
Definition insgps_predict_correct (mag_updated baro_updated gps_updated : bool)
  (c : Cycle) (s : State) : State :=
  let gyrosData := Gyros c in
  let accelsData := Accels c in
  let dT := insgps_dT c s in
  let s := set_ins_last_time (uint32 (raw_time c)) s in
  let gyrosBias := GyrosBias s in
  let gyros :=
    (Vec3 ((vx gyrosData + vx gyrosBias) * F_PI / F32.lit 180 1)
          ((vy gyrosData + vy gyrosBias) * F_PI / F32.lit 180 1)
          ((vz gyrosData + vz gyrosBias) * F_PI / F32.lit 180 1))%f32 in
  let s := log (EvStatePrediction dT)
             (set_ins (INSStatePrediction L gyros accelsData dT (ins s)) s) in
  let nq := q (Nav L (ins s)) in
  let rpy := Quaternion2RPY M nq in
  let s := set_AttitudeActual
             {| att_q := nq; Roll := vx rpy; Pitch := vy rpy; Yaw := vz rpy |}
             s in
  let s := set_GyrosBias (gyro_bias (Nav L (ins s))) s in
  let s := log (EvCovariancePrediction dT)
             (set_ins (INSCovariancePrediction L dT (ins s)) s) in
  let sensors := sensor_mask mag_updated baro_updated gps_updated in
  let NED := if gps_updated then gps_NED (GPSPosition c) (HomeLocation c)
             else Vec3 (F32.of_Z 0) (F32.of_Z 0) (F32.of_Z 0) in
  let vel := if gps_updated then gps_velocity (GPSPosition c)
             else Vec3 (F32.of_Z 0) (F32.of_Z 0) (F32.of_Z 0) in
  let s := log (EvCorrection sensors)
             (set_ins (INSCorrection L (Magnetometer c) NED vel
                         (BaroAltitude c) sensors (ins s)) s) in
  let s := set_PositionActual (Pos (Nav L (ins s))) s in
  set_VelocityActual (Vel (Nav L (ins s))) s.

(** Lines 483-581. *)
Definition insgps_update (mag_updated baro_updated gps_updated : bool)
  (c : Cycle) (s : State) : State :=
  bias_guard (insgps_predict_correct mag_updated baro_updated gps_updated c s).

(** Lines 430-441: which of the optional streams this iteration sees.
    The three flags are automatic variables without initializer. *)
Definition poll_optional (c : Cycle) (now : Z) (s : State)
  : bool * bool * bool * State :=
  let mag_updated := junk_mag c in
  let baro_updated := junk_baro c in
  let gps_updated := junk_gps c in
  let mag_updated := if inited s then false else mag_updated in
  let baro_updated := if inited s then false else baro_updated in
  let '(ok, now, s) := receive c magQueue (Z.quot 0 portTICK_RATE_MS) now s in
  let mag_updated := mag_updated || ok in
  let '(ok, now, s) := receive c baroQueue (Z.quot 0 portTICK_RATE_MS) now s in
  let baro_updated := baro_updated || ok in
  let '(ok, now, s) := receive c gpsQueue (Z.quot 0 portTICK_RATE_MS) now s in
  let gps_updated := gps_updated || ok in
  (mag_updated, baro_updated, gps_updated, s).

Definition updateAttitudeINSGPS (first_run : bool) (c : Cycle) (s : State)
  : Z * State :=
  let s := log (EvEstimator INSGPS) s in
  let s := if first_run then set_inited false s else s in
  let '(ok, now, s) := receive c gyroQueue (Z.quot 10 portTICK_RATE_MS) 0 s in
  if negb ok then (-1, AlarmsSet ALARM_WARNING s) else
  let '(ok, now, s) := receive c accelQueue (Z.quot 10 portTICK_RATE_MS) now s in
  if negb ok then (-1, AlarmsSet ALARM_WARNING s) else
  let '(mag_updated, baro_updated, gps_updated, s) := poll_optional c now s in
  if negb (inited s)
     && (negb mag_updated || negb baro_updated || negb gps_updated)
  then (-1, s)
  else if negb (inited s) then (0, insgps_initialize c s)
  else (0, insgps_update mag_updated baro_updated gps_updated c s).

(** ** Settings and the task *)

(** Lines 116-150, without the registration of the objects and of the
    callback: the quaternion starts at the identity, the gyro bias and the
    board rotation at zero. *)
Definition AttitudeInitialize (s : State) : State :=
  let attitude := AttitudeActual s in
  let attitude :=
    {| att_q := Quat (F32.of_Z 1) (F32.of_Z 0) (F32.of_Z 0) (F32.of_Z 0);
       Roll := Roll attitude; Pitch := Pitch attitude; Yaw := Yaw attitude |} in
  let s := set_AttitudeActual attitude s in
  let s := set_GyrosBias (Vec3 (F32.of_Z 0) (F32.of_Z 0) (F32.of_Z 0)) s in
  let zero_row := Vec3 (F32.of_Z 0) (F32.of_Z 0) (F32.of_Z 0) in
  set_R (Mat3 zero_row zero_row zero_row) s.

Definition z3_to_vec3 (t : Z * Z * Z) : vec3 :=
  let '(a, b, c) := t in Vec3 (F32.of_Z a) (F32.of_Z b) (F32.of_Z c).

Definition settingsUpdatedCb (attitudeSettings : AttitudeSettingsData)
  (s : State) : State :=
  let s := set_accelKp (AccelKp attitudeSettings) s in
  let s := set_accelKi (AccelKi attitudeSettings) s in
  let s := set_yawBiasRate (YawBiasRate attitudeSettings) s in
  let s := set_gyroGain (GyroGain attitudeSettings) s in
  let s := set_zero_during_arming (ZeroDuringArming attitudeSettings) s in
  let s := set_accelbias (AccelBias attitudeSettings) s in
  let '(gx, gy, gz) := GyroBias attitudeSettings in
  let s := set_GyrosBias
             (Vec3 (F32.of_Z gx / F32.lit 100 1) (F32.of_Z gy / F32.lit 100 1)
                   (F32.of_Z gz / F32.lit 100 1))%f32 s in
  let '(r0, r1, r2) := BoardRotation attitudeSettings in
  if (r0 =? 0) && (r1 =? 0) && (r2 =? 0) then
    set_R (Quaternion2R (Quat (F32.of_Z 1) (F32.of_Z 0) (F32.of_Z 0) (F32.of_Z 0)))
      (set_rotate 0 s)
  else
    set_rotate 1
      (set_R (Quaternion2R
                (RPY2Quaternion M (z3_to_vec3 (BoardRotation attitudeSettings))))
         s).

(** One pass of the [while (1)] of AttitudeTask, lines 197-209, for a
    given value of the condition of its [if]; the watchdog flag is not
    modelled. *)
Definition estimator_pass (selector : Z) (first_run : bool) (c : Cycle)
  (s : State) : bool * State :=
  let s := if negb (selector =? 0)
           then snd (updateAttitudeComplimentary first_run c s)
           else snd (updateAttitudeINSGPS first_run c s) in
  let first_run := if first_run then false else first_run in
  (first_run, s).

(** The loop, over the iterations the task lives for. *)
Fixpoint estimator_loop (selector : Z) (first_run : bool) (cs : list Cycle)
  (s : State) : State :=
  match cs with
  | [] => s
  | c :: cs' =>
      let (first_run, s) := estimator_pass selector first_run c s in
      estimator_loop selector first_run cs' s
  end.

(** The source has [if(1)]. *)
Definition AttitudeTask_loop : bool -> list Cycle -> State -> State :=
  estimator_loop 1.

Definition AttitudeTask (settings : AttitudeSettingsData) (cs : list Cycle)
  (s : State) : State :=
  let s := AlarmsClear s in
  let s := settingsUpdatedCb settings s in
  let first_run := true in
  AttitudeTask_loop first_run cs s.

(** ** Freshness of the streams, as each estimator finds it *)

(** The complementary filter: the wait for the gyro queue, then the polls
    of the accelerometer and magnetometer queues. *)
Definition gyro_wait (c : Cycle) : bool * Z :=
  xQueueReceive c gyroQueue (Z.quot FAILSAFE_TIMEOUT_MS portTICK_RATE_MS) 0.
Definition accel_poll (c : Cycle) : bool * Z :=
  xQueueReceive c accelQueue 0 (snd (gyro_wait c)).
Definition mag_poll (c : Cycle) : bool * Z :=
  xQueueReceive c magQueue 0 (snd (accel_poll c)).
Definition mandatory_ok (c : Cycle) : bool :=
  fst (gyro_wait c) && fst (accel_poll c).

(** The INS/GPS estimator: two waits, then three polls at the tick the
    second wait returns. *)
Definition ins_gyro_wait (c : Cycle) : bool * Z :=
  xQueueReceive c gyroQueue (Z.quot 10 portTICK_RATE_MS) 0.
Definition ins_accel_wait (c : Cycle) : bool * Z :=
  xQueueReceive c accelQueue (Z.quot 10 portTICK_RATE_MS)
    (snd (ins_gyro_wait c)).
Definition ins_mandatory_ok (c : Cycle) : bool :=
  fst (ins_gyro_wait c) && fst (ins_accel_wait c).
Definition ins_poll (c : Cycle) (qu : queue) : bool :=
  fst (xQueueReceive c qu 0 (snd (ins_accel_wait c))).
Definition all_five_fresh (c : Cycle) : bool :=
  ins_mandatory_ok c
  && (ins_poll c magQueue && ins_poll c baroQueue && ins_poll c gpsQueue).

(** The calls one iteration of the complementary filter makes on the
    queues: one wait, then polls, all made once. *)
Definition complimentary_events (c : Cycle) : list event :=
  EvEstimator Complimentary
  :: EvReceive gyroQueue (Z.quot FAILSAFE_TIMEOUT_MS portTICK_RATE_MS)
       (fst (gyro_wait c))
  :: (if fst (gyro_wait c) then
        EvReceive accelQueue 0 (fst (accel_poll c))
        :: (if fst (accel_poll c) then
              [EvReceive magQueue 0
                 (fst (xQueueReceive c magQueue 0 (snd (gyro_wait c))));
               EvReceive baroQueue 0
                 (fst (xQueueReceive c baroQueue 0 (snd (gyro_wait c))));
               EvReceive gpsQueue 0
                 (fst (xQueueReceive c gpsQueue 0 (snd (gyro_wait c))))]
            else [])
      else []).

(** The events a state has recorded since an earlier one. *)
Definition events_since (s s' : State) : list event :=
  skipn (length (trace s)) (trace s').

(** The three flags [poll_optional] comes back with, for a filter that
    was or was not initialized. *)
Definition optional_flags (c : Cycle) (was_inited : bool) : bool * bool * bool :=
  ((if was_inited then false else junk_mag c) || ins_poll c magQueue,
   (if was_inited then false else junk_baro c) || ins_poll c baroQueue,
   junk_gps c || ins_poll c gpsQueue).

(** The calls an iteration of the INS/GPS estimator makes on the queues
    when both mandatory samples come. *)
Definition insgps_receives (c : Cycle) : list event :=
  [EvEstimator INSGPS;
   EvReceive gyroQueue (Z.quot 10 portTICK_RATE_MS) true;
   EvReceive accelQueue (Z.quot 10 portTICK_RATE_MS) true;
   EvReceive magQueue 0 (ins_poll c magQueue);
   EvReceive baroQueue 0 (ins_poll c baroQueue);
   EvReceive gpsQueue 0 (ins_poll c gpsQueue)].

(** The state of an initialized estimator right after the correction of
    an iteration, before the guard on the gyro bias. *)
Definition after_correction (c : Cycle) (s : State) : State :=
  let '(mag_updated, baro_updated, gps_updated) := optional_flags c true in
  insgps_predict_correct mag_updated baro_updated gps_updated c
    (set_trace (trace s ++ insgps_receives c) s).

(** No automatic variable of the cycle starts out set. *)
Definition junk_free (c : Cycle) : Prop :=
  junk_mag c = false /\ junk_baro c = false /\ junk_gps c = false.

Inductive axis : Type := axis_x | axis_y | axis_z.

Definition component (a : axis) (v : vec3) : float :=
  match a with axis_x => vx v | axis_y => vy v | axis_z => vz v end.

(** ** Statements of the specification *)


(** The sensor masks handed to the correction, in order. *)
Fixpoint masks_used (l : list event) : list Z :=
  match l with
  | [] => []
  | EvCorrection m :: l' => m :: masks_used l'
  | _ :: l' => masks_used l'
  end.

(** The time steps handed to the state prediction, in order. *)
Fixpoint steps_predicted (l : list event) : list float :=
  match l with
  | [] => []
  | EvStatePrediction d :: l' => d :: steps_predicted l'
  | _ :: l' => steps_predicted l'
  end.

(** The timeouts of the receive calls made on a queue, in order. *)
Fixpoint timeouts_on (qu : queue) (l : list event) : list Z :=
  match l with
  | [] => []
  | EvReceive qu' ticks _ :: l' =>
      match qu, qu' with
      | gyroQueue, gyroQueue | accelQueue, accelQueue | magQueue, magQueue
      | baroQueue, baroQueue | gpsQueue, gpsQueue => ticks :: timeouts_on qu l'
      | _, _ => timeouts_on qu l'
      end
  | _ :: l' => timeouts_on qu l'
  end.

(** The spec on the mandatory streams of the complementary filter, as it
    is worded: both the gyro and the accelerometer queue are waited for
    with the failsafe timeout of 10 ms. *)
Definition waits_10ms_for_both : Prop :=
  forall (first_run : bool) (c : Cycle) (s : State) (qu : queue) (ticks : Z),
    qu = gyroQueue \/ qu = accelQueue ->
    In ticks
       (timeouts_on qu
          (events_since s (snd (updateAttitudeComplimentary first_run c s)))) ->
    ticks = Z.quot FAILSAFE_TIMEOUT_MS portTICK_RATE_MS.

(** The spec on the sensor mask, as it is worded: the magnetometer and the
    barometer are in the mask exactly when fresh, and a fresh GPS adds the
    horizontal and the vertical terms. *)
Definition claimed_mask (mag_fresh baro_fresh gps_fresh : bool) : Z :=
  Z.lor (Z.lor (if mag_fresh then MAG_SENSORS L else 0)
               (if baro_fresh then BARO_SENSOR L else 0))
        (if gps_fresh then Z.lor (HORIZ_SENSORS L) (VERT_SENSORS L) else 0).

(** The spec on an incomplete set of streams before initialization, as it
    is worded: the iteration aborts silently, the filter stays as it was. *)
Definition aborts_silently : Prop :=
  forall (c : Cycle) (s : State),
    inited s = false ->
    all_five_fresh c = false ->
    let r := updateAttitudeINSGPS false c s in
    fst r = -1 /\ inited (snd r) = false /\ ins (snd r) = ins s
    /\ alarm (snd r) = alarm s.

(** The spec on the published quaternion, as it is worded: norm 1 within
    1e-5, scalar component not negative. *)
Definition unit_within_1e5 (q : quat) : bool :=
  F32.le (F32.fabs (quat_norm q - F32.of_Z 1)%f32) (F32.lit 1 100000).

Definition w_nonneg (q : quat) : bool := F32.le (F32.of_Z 0) (q0 q).

End Attitude.

Arguments State INS : clear implicits.

(** ** Instances for evaluation

    To run the model on concrete inputs the two interfaces need values.
    [plain_math] leaves out the Euler angles, the trigonometric functions
    and the geodetic conversions, none of which the quaternion or the
    control flow depends on.  [plain_ins] is a filter whose state is the
    exported structure itself: setting the state or the bias writes it,
    prediction and correction leave it as it is; each channel has its own
    group of bits in the sensor mask. *)
Definition plain_math : MathLib :=
  {| Quaternion2RPY := fun _ => zeros;
     RPY2Quaternion := fun _ => quat_identity;
     R2Quaternion := fun _ => quat_identity;
     RotFrom2Vectors := fun _ _ _ _ => Quaternion2R quat_identity;
     LLA2Base := fun _ _ _ => zeros;
     cosf := fun _ => F32.one;
     sinf := fun _ => F32.zero |}.

Definition plain_ins : InsLib NavStruct :=
  {| Nav := fun s => s;
     INSGPSInit := fun s => s;
     INSSetState := fun NED vel qu gb _ _ =>
       {| Pos := NED; Vel := vel; q := qu; gyro_bias := gb |};
     INSSetGyroBias := fun b s =>
       {| Pos := Pos s; Vel := Vel s; q := q s; gyro_bias := b |};
     INSResetP := fun _ s => s;
     INSStatePrediction := fun _ _ _ s => s;
     INSCovariancePrediction := fun _ s => s;
     INSCorrection := fun _ _ _ _ _ s => s;
     HORIZ_SENSORS := 0x018;
     VERT_SENSORS := 0x020;
     MAG_SENSORS := 0x1C0;
     BARO_SENSOR := 0x200;
     INSSetGyroBias_Nav := fun _ _ => eq_refl |}.

Definition no_settings : AttitudeSettingsData :=
  {| AccelKp := F32.lit 5 100; AccelKi := F32.lit 1 10000;
     YawBiasRate := F32.lit 1 1000000; GyroGain := F32.lit 42 100;
     ZeroDuringArming := false; AccelBias := (0, 0, 0); GyroBias := (0, 0, 0);
     BoardRotation := (0, 0, 0) |}.

(** The state [AttitudeInitialize] leaves: identity quaternion, no bias. *)
Definition initial_state : State NavStruct :=
  {| AttitudeActual :=
       {| att_q := quat_identity; Roll := F32.zero; Pitch := F32.zero;
          Yaw := F32.zero |};
     GyrosBias := zeros; PositionActual := zeros; VelocityActual := zeros;
     alarm := ALARM_OK;
     accelKi := F32.zero; accelKp := F32.zero; yawBiasRate := F32.zero;
     gyroGain := F32.lit 42 100; accelbias := (0, 0, 0);
     R := Mat3 zeros zeros zeros; rotate := 0; zero_during_arming := false;
     accel_mag := F32.zero; qmag := F32.zero; mag_err := zeros;
     timeval := 0; init := 0; ins_last_time := 0; inited := false;
     ins := {| Pos := zeros; Vel := zeros; q := quat_identity;
               gyro_bias := zeros |};
     trace := [] |}.

(** A cycle in which the vehicle is level and at rest: every queue holds an
    event, 10 ms have passed, gravity along the body z axis, the
    magnetometer reads the reference field. *)
Definition home_sample : HomeLocationData :=
  {| ECEF := (0, 0, 0);
     RNE := Quaternion2R quat_identity;
     Be := Vec3 (F32.of_Z 24000) (F32.of_Z 1700) (F32.of_Z 43000) |}.

Definition gps_sample : GPSPositionData :=
  {| Latitude := 0; Longitude := 0; Altitude := F32.zero;
     GeoidSeparation := F32.zero; Groundspeed := F32.zero;
     Heading := F32.zero |}.

Definition level_cycle (n : Z) : Cycle :=
  {| arrival := fun _ => Some 0;
     tick_count := 8000 + 10 * n;
     raw_time := 10000 * (n + 1);
     Gyros := zeros;
     Accels := Vec3 F32.zero F32.zero (F32.neg (F32.lit 981 100));
     Magnetometer := Be home_sample;
     BaroAltitude := F32.zero;
     GPSPosition := gps_sample;
     HomeLocation := home_sample;
     Armed := FLIGHTSTATUS_ARMED_DISARMED;
     AttitudeSettings := no_settings;
     junk_mag := false; junk_baro := false; junk_gps := false |}.

(** Variations of a cycle. *)
Definition with_arrival (a : queue -> option Z) (c : Cycle) : Cycle :=
  {| arrival := a; tick_count := tick_count c; raw_time := raw_time c;
     Gyros := Gyros c; Accels := Accels c; Magnetometer := Magnetometer c;
     BaroAltitude := BaroAltitude c; GPSPosition := GPSPosition c;
     HomeLocation := HomeLocation c; Armed := Armed c;
     AttitudeSettings := AttitudeSettings c; junk_mag := junk_mag c;
     junk_baro := junk_baro c; junk_gps := junk_gps c |}.

Definition with_Gyros (g : vec3) (c : Cycle) : Cycle :=
  {| arrival := arrival c; tick_count := tick_count c; raw_time := raw_time c;
     Gyros := g; Accels := Accels c; Magnetometer := Magnetometer c;
     BaroAltitude := BaroAltitude c; GPSPosition := GPSPosition c;
     HomeLocation := HomeLocation c; Armed := Armed c;
     AttitudeSettings := AttitudeSettings c; junk_mag := junk_mag c;
     junk_baro := junk_baro c; junk_gps := junk_gps c |}.

Definition with_Magnetometer (m : vec3) (c : Cycle) : Cycle :=
  {| arrival := arrival c; tick_count := tick_count c; raw_time := raw_time c;
     Gyros := Gyros c; Accels := Accels c; Magnetometer := m;
     BaroAltitude := BaroAltitude c; GPSPosition := GPSPosition c;
     HomeLocation := HomeLocation c; Armed := Armed c;
     AttitudeSettings := AttitudeSettings c; junk_mag := junk_mag c;
     junk_baro := junk_baro c; junk_gps := junk_gps c |}.

Definition with_raw_time (t : Z) (c : Cycle) : Cycle :=
  {| arrival := arrival c; tick_count := tick_count c; raw_time := t;
     Gyros := Gyros c; Accels := Accels c; Magnetometer := Magnetometer c;
     BaroAltitude := BaroAltitude c; GPSPosition := GPSPosition c;
     HomeLocation := HomeLocation c; Armed := Armed c;
     AttitudeSettings := AttitudeSettings c; junk_mag := junk_mag c;
     junk_baro := junk_baro c; junk_gps := junk_gps c |}.

Definition with_junk (m b g : bool) (c : Cycle) : Cycle :=
  {| arrival := arrival c; tick_count := tick_count c; raw_time := raw_time c;
     Gyros := Gyros c; Accels := Accels c; Magnetometer := Magnetometer c;
     BaroAltitude := BaroAltitude c; GPSPosition := GPSPosition c;
     HomeLocation := HomeLocation c; Armed := Armed c;
     AttitudeSettings := AttitudeSettings c; junk_mag := m;
     junk_baro := b; junk_gps := g |}.

(** Every queue holds an event, but for one. *)
Definition all_but (missing : queue) (qu : queue) : option Z :=
  match missing, qu with
  | gyroQueue, gyroQueue | accelQueue, accelQueue | magQueue, magQueue
  | baroQueue, baroQueue | gpsQueue, gpsQueue => None
  | _, _ => Some 0
  end.

(** The accelerometer event comes 5 ticks after the gyro event. *)
Definition accel_late (qu : queue) : option Z :=
  match qu with accelQueue => Some 5 | _ => Some 0 end.

(** The magnetometer reads the reference field turned a quarter of a turn
    about the vertical. *)
Definition turned_field : vec3 :=
  Vec3 (F32.of_Z 1700) (F32.neg (F32.of_Z 24000)) (F32.of_Z 43000).

(** A rate of 1e30 deg/s about the x axis. *)
Definition runaway_rate : vec3 :=
  Vec3 (F32.lit 1000000000000000000000000000000 1) F32.zero F32.zero.

(** The state after the INS/GPS filter has been seeded from a cycle with
    all five streams fresh. *)
Definition seeded_state : State NavStruct :=
  snd (updateAttitudeINSGPS plain_math plain_ins 1 true (level_cycle 0)
         initial_state).

(** A cycle at rest but for a rate of 90 deg/s about the x axis, taken
    [elapsed] microseconds after the clock was last read. *)
Definition spin_cycle (elapsed : Z) : Cycle :=
  with_raw_time elapsed
    (with_Gyros (Vec3 (F32.of_Z 90) F32.zero F32.zero) (level_cycle 0)).

(** The estimators of the module over the two instances, one tick per
    millisecond. *)
Definition run_complimentary (first_run : bool) (c : Cycle)
  (s : State NavStruct) : Z * State NavStruct :=
  updateAttitudeComplimentary plain_math 1 first_run c s.

Definition run_insgps (first_run : bool) (c : Cycle) (s : State NavStruct)
  : Z * State NavStruct :=
  updateAttitudeINSGPS plain_math plain_ins 1 first_run c s.

(** The quaternion published after each pass of the task loop. *)
Fixpoint orientations (first_run : bool) (cs : list Cycle)
  (s : State NavStruct) : list quat :=
  match cs with
  | [] => []
  | c :: cs' =>
      let (first_run, s) :=
        estimator_pass plain_math plain_ins 1 1 first_run c s in
      att_q (AttitudeActual s) :: orientations first_run cs' s
  end.

Definition quat_eqb (a b : quat) : bool :=
  F32.eq (q0 a) (q0 b) && F32.eq (q1 a) (q1 b)
  && F32.eq (q2 a) (q2 b) && F32.eq (q3 a) (q3 b).

(** One hundred cycles at rest, 10 ms apart. *)
Definition hundred_level_cycles : list Cycle :=
  map (fun n => level_cycle (Z.of_nat n)) (seq 0 100).

(** The INS/GPS filter seeded from a cycle whose gyro reads 0.5 deg/s
    about the x axis: line 476 takes the gyro sample as the first bias. *)
Definition biased_state : State NavStruct :=
  snd (run_insgps true
         (with_Gyros (Vec3 (F32.lit 1 2) F32.zero F32.zero) (level_cycle 0))
         initial_state).

(** ** Shapes of single-precision values *)

(** The sign bit is clear (a NaN has none). *)
Definition sign_clear (x : float) : bool :=
  match x with
  | S754_zero s | S754_infinity s | S754_finite s _ _ => negb s
  | S754_nan => true
  end.

(** The test [x < 0] of the C source fails. *)
Definition not_negative (x : float) : bool := negb (F32.lt x F32.zero).

Definition is_zero (x : float) : bool :=
  match x with S754_zero _ => true | _ => false end.

Definition zero_or_nan (x : float) : bool :=
  match x with S754_zero _ | S754_nan => true | _ => false end.

(** ** The stages of the filter proper, by name *)

(** Lines 283-294: the cross product of the accelerometer sample with
    gravity in the body frame, divided by the length of the sample. *)
Definition gravity_error (qu : quat) (accels : vec3) : vec3 :=
  vec3_div (CrossProduct accels (gravity_body qu)) (norm3 accels).

(** Lines 337-339: the rates handed to the integration. *)
Definition corrected_rates (gyros accel_err magerr : vec3) (Kp dT : float)
  : vec3 :=
  (Vec3 (vx gyros + vx accel_err * Kp / dT)
        (vy gyros + vy accel_err * Kp / dT)
        (vz gyros + (vz accel_err * Kp / dT + vz magerr * magKp / dT)))%f32.

(** Lines 341-360: the time step, then the change of sign. *)
Definition integrated (qu : quat) (g : vec3) (dT : float) : quat :=
  quat_positive (quat_step qu g dT).

(** The three gains lines 247-263 choose. *)
Definition gains {INS : Type} (s : State INS) : float * float * float :=
  (accelKp s, accelKi s, yawBiasRate s).

(** ** The prediction of the INS/GPS estimator, by name *)

(** Lines 497-502: the rates handed to the state prediction. *)
Definition rates_predicted {INS : Type} (c : Cycle) (s : State INS) : vec3 :=
  (Vec3 ((vx (Gyros c) + vx (GyrosBias s)) * F_PI / F32.lit 180 1)
        ((vy (Gyros c) + vy (GyrosBias s)) * F_PI / F32.lit 180 1)
        ((vz (Gyros c) + vz (GyrosBias s)) * F_PI / F32.lit 180 1))%f32.

(** Line 505: the filter after the state prediction of an iteration. *)
Definition predicted {INS : Type} (L : InsLib INS) (c : Cycle) (s : State INS)
  : INS :=
  INSStatePrediction L (rates_predicted c s) (Accels c) (insgps_dT c s) (ins s).

(** ** Further inputs for evaluation *)

Definition with_Accels (a : vec3) (c : Cycle) : Cycle :=
  {| arrival := arrival c; tick_count := tick_count c; raw_time := raw_time c;
     Gyros := Gyros c; Accels := a; Magnetometer := Magnetometer c;
     BaroAltitude := BaroAltitude c; GPSPosition := GPSPosition c;
     HomeLocation := HomeLocation c; Armed := Armed c;
     AttitudeSettings := AttitudeSettings c; junk_mag := junk_mag c;
     junk_baro := junk_baro c; junk_gps := junk_gps c |}.

Definition with_tick_count (t : Z) (c : Cycle) : Cycle :=
  {| arrival := arrival c; tick_count := t; raw_time := raw_time c;
     Gyros := Gyros c; Accels := Accels c; Magnetometer := Magnetometer c;
     BaroAltitude := BaroAltitude c; GPSPosition := GPSPosition c;
     HomeLocation := HomeLocation c; Armed := Armed c;
     AttitudeSettings := AttitudeSettings c; junk_mag := junk_mag c;
     junk_baro := junk_baro c; junk_gps := junk_gps c |}.

Definition with_Armed (a : ArmedState) (c : Cycle) : Cycle :=
  {| arrival := arrival c; tick_count := tick_count c; raw_time := raw_time c;
     Gyros := Gyros c; Accels := Accels c; Magnetometer := Magnetometer c;
     BaroAltitude := BaroAltitude c; GPSPosition := GPSPosition c;
     HomeLocation := HomeLocation c; Armed := a;
     AttitudeSettings := AttitudeSettings c; junk_mag := junk_mag c;
     junk_baro := junk_baro c; junk_gps := junk_gps c |}.

(** The accelerometer reads nothing on any axis. *)
Definition free_fall : Cycle := with_Accels zeros (level_cycle 0).

(** The state after the iteration in which the norm overflowed. *)
Definition overflowed_state : State NavStruct :=
  snd (run_complimentary true (with_Gyros runaway_rate (level_cycle 0))
         initial_state).

(** The state after an iteration without gravity. *)
Definition poisoned_state : State NavStruct :=
  snd (run_complimentary true free_fall initial_state).

(** The state of a module set to zero its gyros while arming. *)
Definition arming_state : State NavStruct :=
  set_zero_during_arming true initial_state.

(** * Properties *)

(** Reduction of the record accesses of a state, without touching the
    arithmetic. *)
Ltac state_simpl :=
  cbn [fst snd negb andb orb app
       AttitudeActual GyrosBias PositionActual VelocityActual alarm accelKi
       accelKp yawBiasRate gyroGain accelbias R rotate zero_during_arming
       accel_mag qmag mag_err timeval init ins_last_time inited ins trace
       set_AttitudeActual set_GyrosBias set_PositionActual set_VelocityActual
       set_alarm set_accelKi set_accelKp set_yawBiasRate set_gyroGain
       set_accelbias set_R set_rotate set_zero_during_arming set_accel_mag
       set_qmag set_mag_err set_timeval set_init set_ins_last_time set_inited
       set_ins set_trace log AlarmsSet AlarmsClear receive att_q] in *.

Lemma skipn_length_app {A : Type} (l l' : list A) :
  skipn (length l) (l ++ l') = l'.
Proof. induction l as [|a l IH]; simpl; auto. Qed.

(** A poll returns at the tick it was made. *)
Lemma xQueueReceive_poll (c : Cycle) (qu : queue) (now : Z) :
  snd (xQueueReceive c qu 0 now) = now.
Proof.
  unfold xQueueReceive. destruct (arrival c qu) as [t|]; simpl; [|lia].
  destruct (Z.leb_spec t (now + 0)); simpl; lia.
Qed.

(** A receive succeeds exactly when the event is there before the
    timeout runs out. *)
Lemma xQueueReceive_ok (c : Cycle) (qu : queue) (ticks now : Z) :
  fst (xQueueReceive c qu ticks now)
  = match arrival c qu with Some t => t <=? now + ticks | None => false end.
Proof.
  unfold xQueueReceive. destruct (arrival c qu) as [t|]; [|reflexivity].
  destruct (t <=? now + ticks); reflexivity.
Qed.

(** ** Single-precision comparisons and roundings *)






(** Rounding a mantissa that is not negative never gives a NaN. *)
Lemma shr_1_nonneg mrs : 0 <= shr_m mrs -> 0 <= shr_m (shr_1 mrs).
Proof.
  destruct mrs as [m r s]. cbn [shr_m]. intros H. unfold shr_1.
  destruct m as [|p|p]; [cbn; lia| |lia].
  destruct p; cbn; lia.
Qed.

Lemma iter_pos_shr_1_nonneg p mrs :
  0 <= shr_m mrs -> 0 <= shr_m (iter_pos shr_1 p mrs).
Proof.
  revert mrs. induction p as [p IH|p IH|]; intros mrs H; cbn [iter_pos].
  - apply IH, IH, shr_1_nonneg, H.
  - apply IH, IH, H.
  - apply shr_1_nonneg, H.
Qed.

Lemma shr_nonneg mrs e n : 0 <= shr_m mrs -> 0 <= shr_m (fst (shr mrs e n)).
Proof.
  intros H. unfold shr. destruct n; cbn [fst]; auto.
  apply iter_pos_shr_1_nonneg, H.
Qed.

Lemma shr_fexp_nonneg prec emax m e l :
  0 <= m -> 0 <= shr_m (fst (shr_fexp prec emax m e l)).
Proof.
  intros H. unfold shr_fexp. apply shr_nonneg.
  destruct l as [|[]]; cbn; exact H.
Qed.

Lemma round_nearest_even_nonneg m l : 0 <= m -> 0 <= round_nearest_even m l.
Proof.
  intros H. unfold round_nearest_even.
  destruct l as [|[]]; try lia. destruct (Z.even m); lia.
Qed.

Lemma binary_round_aux_not_nan prec emax sx mx ex lx :
  0 <= mx -> F32.is_nan (binary_round_aux prec emax sx mx ex lx) = false.
Proof.
  intros H. unfold binary_round_aux.
  pose proof (shr_fexp_nonneg prec emax mx ex lx H) as H1.
  destruct (shr_fexp prec emax mx ex lx) as [mrs' e']. cbn [fst] in H1.
  pose proof (shr_fexp_nonneg prec emax
                (round_nearest_even (shr_m mrs') (loc_of_shr_record mrs')) e'
                loc_Exact (round_nearest_even_nonneg _ _ H1)) as H2.
  destruct (shr_fexp prec emax _ e' loc_Exact) as [mrs'' e'']. cbn [fst] in H2.
  destruct (shr_m mrs''); [reflexivity| |lia].
  destruct (e'' <=? emax - prec); reflexivity.
Qed.

Lemma of_Z_not_nan (z : Z) : F32.is_nan (F32.of_Z z) = false.
Proof.
  unfold F32.of_Z, binary_normalize. destruct z; [reflexivity| |];
    unfold binary_round;
    destruct (shl_align _ _ _) as [mz ez];
    apply binary_round_aux_not_nan; lia.
Qed.

Lemma div_finite_not_nan (x : float) sy my ey :
  F32.is_nan x = false ->
  F32.is_nan (F32.div x (S754_finite sy my ey)) = false.
Proof.
  destruct x as [sx|sx| |sx mx ex]; intros H; try discriminate H; try reflexivity.
  unfold F32.div, SFdiv.
  assert (Hq : 0 <= fst (fst (SFdiv_core_binary F32.prec F32.emax (Z.pos mx) ex (Z.pos my) ey))).
  { unfold SFdiv_core_binary.
    set (m' := match _ with Z.pos _ => _ | 0 => _ | Z.neg _ => _ end).
    assert (Hm' : 0 <= m').
    { subst m'. destruct (_ - _ - _); try lia. apply Z.shiftl_nonneg. lia. }
    pose proof (Z_div_mod m' (Z.pos my) eq_refl) as Hdm.
    destruct (Z.div_eucl m' (Z.pos my)) as [q r]. cbn [fst].
    destruct Hdm as [Heq Hr]. nia. }
  destruct (SFdiv_core_binary _ _ _ _ _ _) as [[mz ez] lz]. cbn [fst] in Hq.
  apply binary_round_aux_not_nan, Hq.
Qed.

Section Complimentary.

Context {INS : Type} (M : MathLib) (portTICK_RATE_MS : Z).

Local Notation "'updateC'" :=
  (updateAttitudeComplimentary (INS := INS) M portTICK_RATE_MS).
Local Notation "'T10'" := (Z.quot FAILSAFE_TIMEOUT_MS portTICK_RATE_MS).
Local Notation "'gyro_ok' c" := (fst (gyro_wait portTICK_RATE_MS c))
  (at level 10, c at level 9).
Local Notation "'accel_ok' c" := (fst (accel_poll portTICK_RATE_MS c))
  (at level 10, c at level 9).
Local Notation "'polled_at' c" := (snd (gyro_wait portTICK_RATE_MS c))
  (at level 10, c at level 9).

Lemma select_gains_frame (fr : bool) (c : Cycle) (s : State INS) :
  let s' := select_gains fr c s in
  AttitudeActual s' = AttitudeActual s /\ GyrosBias s' = GyrosBias s
  /\ trace s' = trace s /\ alarm s' = alarm s /\ ins s' = ins s
  /\ inited s' = inited s /\ ins_last_time s' = ins_last_time s
  /\ PositionActual s' = PositionActual s
  /\ VelocityActual s' = VelocityActual s /\ timeval s' = timeval s.
Proof.
  unfold select_gains, forced_gains.
  destruct fr; state_simpl;
    repeat match goal with |- context [if ?b then _ else _] => destruct b end;
    state_simpl; repeat split; reflexivity.
Qed.

(** The filter proper polls the three optional queues once each, at the
    tick it was entered. *)
Lemma complimentary_filter_trace fr c now (s : State INS) :
  trace (complimentary_filter M fr c now s)
  = trace s ++ [EvReceive magQueue 0 (fst (xQueueReceive c magQueue 0 now));
                EvReceive baroQueue 0 (fst (xQueueReceive c baroQueue 0 now));
                EvReceive gpsQueue 0 (fst (xQueueReceive c gpsQueue 0 now))].
Proof.
  unfold complimentary_filter, receive.
  pose proof (xQueueReceive_poll c magQueue now) as Hm.
  destruct (xQueueReceive c magQueue 0 now) as [m now2]. simpl in Hm. subst now2.
  pose proof (xQueueReceive_poll c baroQueue now) as Hb.
  destruct (xQueueReceive c baroQueue 0 now) as [b now3]. simpl in Hb. subst now3.
  destruct (xQueueReceive c gpsQueue 0 now) as [gp now4].
  destruct (select_gains_frame fr c s) as (_ & _ & Ht & _).
  state_simpl. destruct m; state_simpl; rewrite Ht, <- !app_assoc; reflexivity.
Qed.

Ltac open_filter c now :=
  unfold complimentary_filter, receive;
  destruct (xQueueReceive c magQueue 0 now) as [?m ?now];
  destruct (xQueueReceive c baroQueue 0 _) as [?b ?now];
  destruct (xQueueReceive c gpsQueue 0 _) as [?g ?now].

Lemma complimentary_filter_alarm fr c now (s : State INS) :
  alarm (complimentary_filter M fr c now s) = ALARM_OK.
Proof. open_filter c now. reflexivity. Qed.


(** The magnetic error the filter proper leaves in [mag_err]: the cross
    product when the poll of the magnetometer queue fails, zero when it
    succeeds. *)
Lemma complimentary_filter_mag_err fr c now (s : State INS) :
  mag_err (complimentary_filter M fr c now s)
  = if fst (xQueueReceive c magQueue 0 now) then zeros
    else magnetic_error (att_q (AttitudeActual s)) c.
Proof.
  destruct (select_gains_frame fr c s) as (Ha & _).
  open_filter c now. destruct m; state_simpl; [reflexivity|].
  rewrite Ha. reflexivity.
Qed.

(** The iteration, by the outcome of its two mandatory receives. *)
Lemma updateAttitudeComplimentary_cases fr c (s : State INS) :
  let s0 := log (EvEstimator Complimentary) s in
  let s1 := log (EvReceive gyroQueue T10 (gyro_ok c)) s0 in
  let s2 := log (EvReceive accelQueue 0 (accel_ok c)) s1 in
  updateC fr c s
  = if gyro_ok c then
      if accel_ok c then (0, complimentary_filter M fr c (polled_at c) s2)
      else (-1, AlarmsSet ALARM_WARNING s2)
    else (-1, AlarmsSet ALARM_WARNING s1).
Proof.
  unfold updateAttitudeComplimentary, accel_poll, gyro_wait, receive.
  destruct (xQueueReceive c gyroQueue T10 0) as [g now]. cbn [fst snd].
  destruct g; cbn [negb]; [|reflexivity].
  pose proof (xQueueReceive_poll c accelQueue now) as Ha.
  destruct (xQueueReceive c accelQueue 0 now) as [a now']. cbn [fst snd] in *.
  subst now'. destruct a; reflexivity.
Qed.

Lemma updateAttitudeComplimentary_result fr c (s : State INS) :
  fst (updateC fr c s) = (if mandatory_ok portTICK_RATE_MS c then 0 else -1)
  /\ alarm (snd (updateC fr c s))
     = (if mandatory_ok portTICK_RATE_MS c then ALARM_OK else ALARM_WARNING).
Proof.
  rewrite updateAttitudeComplimentary_cases. unfold mandatory_ok.
  destruct (gyro_ok c); [destruct (accel_ok c)|]; cbn [andb fst snd];
    rewrite ?complimentary_filter_alarm; auto.
Qed.

(** What one iteration does to the queues. *)
Lemma updateAttitudeComplimentary_trace fr c (s : State INS) :
  trace (snd (updateC fr c s))
  = trace s ++ complimentary_events portTICK_RATE_MS c.
Proof.
  rewrite updateAttitudeComplimentary_cases. unfold complimentary_events.
  destruct (gyro_ok c); [destruct (accel_ok c)|]; cbn [snd];
    rewrite ?complimentary_filter_trace; state_simpl;
    rewrite <- ?app_assoc; reflexivity.
Qed.

Lemma updateAttitudeComplimentary_events fr c (s : State INS) :
  events_since s (snd (updateC fr c s))
  = complimentary_events portTICK_RATE_MS c.
Proof.
  unfold events_since. rewrite updateAttitudeComplimentary_trace.
  apply skipn_length_app.
Qed.

(** A failed iteration publishes nothing. *)
Lemma updateAttitudeComplimentary_timeout fr c (s : State INS) :
  mandatory_ok portTICK_RATE_MS c = false ->
  AttitudeActual (snd (updateC fr c s)) = AttitudeActual s
  /\ GyrosBias (snd (updateC fr c s)) = GyrosBias s.
Proof.
  rewrite updateAttitudeComplimentary_cases. unfold mandatory_ok.
  destruct (gyro_ok c); [destruct (accel_ok c)|]; cbn [andb];
    intros H; try discriminate H; auto.
Qed.


End Complimentary.

(** ** The task loop *)

Lemma Forall_prefix {A : Type} (P : A -> Prop) (n : nat) (l : list A) :
  Forall P l -> Forall P (firstn n l).
Proof.
  intros H. revert n. induction H as [|a l Ha Hl IH]; intros [|n]; cbn;
    constructor; auto.
Qed.


Lemma masks_used_app (l l' : list event) :
  masks_used (l ++ l') = masks_used l ++ masks_used l'.
Proof.
  induction l as [|e l IH]; [reflexivity|].
  destruct e; cbn [app masks_used]; rewrite IH; reflexivity.
Qed.

Lemma steps_predicted_app (l l' : list event) :
  steps_predicted (l ++ l') = steps_predicted l ++ steps_predicted l'.
Proof.
  induction l as [|e l IH]; [reflexivity|].
  destruct e; cbn [app steps_predicted]; rewrite IH; reflexivity.
Qed.

Section Task.

Context {INS : Type} (M : MathLib) (L : InsLib INS) (portTICK_RATE_MS : Z).

Local Notation "'updateC'" :=
  (updateAttitudeComplimentary (INS := INS) M portTICK_RATE_MS).
Local Notation "'task_loop'" := (AttitudeTask_loop M L portTICK_RATE_MS).
Local Notation "'ok' c" := (mandatory_ok portTICK_RATE_MS c)
  (at level 10, c at level 9).

Lemma AttitudeTask_loop_cons fr c cs (s : State INS) :
  task_loop fr (c :: cs) s = task_loop false cs (snd (updateC fr c s)).
Proof.
  unfold AttitudeTask_loop. cbn [estimator_loop].
  unfold estimator_pass. change (negb (1 =? 0)) with true. cbv iota.
  destruct fr; reflexivity.
Qed.

Lemma AttitudeTask_loop_snoc fr cs c (s : State INS) :
  task_loop fr (cs ++ [c]) s
  = snd (updateC (match cs with [] => fr | _ => false end) c
           (task_loop fr cs s)).
Proof.
  revert fr s. induction cs as [|c' cs IH]; intros fr s.
  - cbn [app]. rewrite AttitudeTask_loop_cons. reflexivity.
  - cbn [app]. rewrite !AttitudeTask_loop_cons, IH.
    destruct cs; reflexivity.
Qed.





(** The two mandatory samples are both found exactly when the gyro event
    comes within the timeout and the accelerometer event is already there
    when the wait for the gyro returns. *)
Lemma mandatory_ok_arrivals (c : Cycle) :
  ok c
  = match arrival c gyroQueue, arrival c accelQueue with
    | Some tg, Some ta =>
        (tg <=? Z.quot FAILSAFE_TIMEOUT_MS portTICK_RATE_MS)
        && (ta <=? Z.max 0 tg)
    | _, _ => false
    end.
Proof.
  unfold mandatory_ok, accel_poll, gyro_wait, xQueueReceive.
  destruct (arrival c gyroQueue) as [tg|]; [|reflexivity].
  cbn [Z.add].
  destruct (tg <=? _); cbn [fst snd andb];
    destruct (arrival c accelQueue) as [ta|]; try reflexivity.
  rewrite Z.add_0_r. destruct (ta <=? Z.max 0 tg); reflexivity.
Qed.

Lemma complimentary_events_timeouts (c : Cycle) :
  timeouts_on gyroQueue (complimentary_events portTICK_RATE_MS c)
  = [Z.quot FAILSAFE_TIMEOUT_MS portTICK_RATE_MS]
  /\ timeouts_on accelQueue (complimentary_events portTICK_RATE_MS c)
     = (if fst (gyro_wait portTICK_RATE_MS c) then [0] else []).
Proof.
  unfold complimentary_events.
  destruct (fst (gyro_wait portTICK_RATE_MS c));
    [destruct (fst (accel_poll portTICK_RATE_MS c))|]; cbn; auto.
Qed.

(** Over iterations that all miss a mandatory sample the orientation
    stays and the alarm is raised. *)
Lemma timeouts_keep_orientation fr cs (s : State INS) :
  Forall (fun c' => ok c' = false) cs ->
  AttitudeActual (task_loop fr cs s) = AttitudeActual s
  /\ (cs <> [] -> alarm (task_loop fr cs s) = ALARM_WARNING).
Proof.
  intros H. revert fr s. induction H as [|c cs Hc Hcs IH]; intros fr s.
  - split; [reflexivity|congruence].
  - rewrite AttitudeTask_loop_cons.
    destruct (IH false (snd (updateC fr c s))) as [Ha Hw].
    destruct (updateAttitudeComplimentary_timeout M portTICK_RATE_MS fr c s Hc)
      as [Hq _].
    destruct (updateAttitudeComplimentary_result M portTICK_RATE_MS fr c s)
      as [_ Hal].
    rewrite Hc in Hal. split; [congruence|]. intros _.
    destruct cs as [|c' cs']; [exact Hal|]. apply Hw. discriminate.
Qed.

(** C3 (amended): each iteration of the complementary filter waits once,
    for at most 10 ms, for the gyro stream and then polls the
    accelerometer stream once without waiting; it succeeds exactly when
    both samples are found, returning 0 with the alarm cleared, and
    otherwise returns -1 with the alarm at WARNING.  Through consecutive
    failed iterations the published orientation stays identical and the
    alarm reads WARNING after each of them; the next iteration that finds
    both samples clears it. *)
Theorem mandatory_streams_failsafe
  (first_run : bool) (cs : list Cycle) (c : Cycle) (s : State INS) :
  0 < portTICK_RATE_MS ->
  cs <> [] ->
  Forall (fun c' => ok c' = false) cs ->
  ok c = true ->
  let T := Z.quot FAILSAFE_TIMEOUT_MS portTICK_RATE_MS in
  T * portTICK_RATE_MS <= 10
  /\ (forall (fr : bool) (c' : Cycle) (s' : State INS),
        let r := updateC fr c' s' in
        timeouts_on gyroQueue (events_since s' (snd r)) = [T]
        /\ timeouts_on accelQueue (events_since s' (snd r))
           = (if fst (gyro_wait portTICK_RATE_MS c') then [0] else [])
        /\ fst r = (if ok c' then 0 else -1)
        /\ alarm (snd r) = (if ok c' then ALARM_OK else ALARM_WARNING))
  /\ Forall (fun k =>
               AttitudeActual (task_loop first_run (firstn (S k) cs) s)
               = AttitudeActual s
               /\ alarm (task_loop first_run (firstn (S k) cs) s)
                  = ALARM_WARNING)
            (seq 0 (length cs))
  /\ alarm (task_loop first_run (cs ++ [c]) s) = ALARM_OK.
Proof.
  intros Hp Hne Hfail Hok T. repeat split.
  - subst T. rewrite Z.mul_comm.
    apply (Z.mul_quot_le FAILSAFE_TIMEOUT_MS portTICK_RATE_MS);
      unfold FAILSAFE_TIMEOUT_MS; lia.
  - rewrite updateAttitudeComplimentary_events.
    apply complimentary_events_timeouts.
  - rewrite updateAttitudeComplimentary_events.
    apply complimentary_events_timeouts.
  - apply updateAttitudeComplimentary_result.
  - apply updateAttitudeComplimentary_result.
  - apply Forall_forall. intros k Hk. apply in_seq in Hk.
    assert (Hpre : Forall (fun c' => ok c' = false) (firstn (S k) cs))
      by (apply Forall_prefix; exact Hfail).
    destruct (timeouts_keep_orientation first_run _ s Hpre) as [Ha Hw].
    split; [exact Ha|]. apply Hw.
    destruct cs; [contradiction|discriminate].
  - rewrite AttitudeTask_loop_snoc.
    match goal with
    | |- alarm (snd (updateC ?fr c ?s0)) = _ =>
        destruct (updateAttitudeComplimentary_result M portTICK_RATE_MS fr c s0)
          as [_ Hal]
    end.
    rewrite Hok in Hal. exact Hal.
Qed.

End Task.

(** ** The INS/GPS estimator *)

Section InsGps.
Context {INS : Type} (M : MathLib) (L : InsLib INS) (portTICK_RATE_MS : Z).

Local Notation "'updateI'" := (updateAttitudeINSGPS M L portTICK_RATE_MS).
Local Notation "'T10'" := (Z.quot 10 portTICK_RATE_MS).
Local Notation "'mandatory' c" := (ins_mandatory_ok portTICK_RATE_MS c)
  (at level 10, c at level 9).
Local Notation "'gyro_ok' c" := (fst (ins_gyro_wait portTICK_RATE_MS c))
  (at level 10, c at level 9).
Local Notation "'accel_ok' c" := (fst (ins_accel_wait portTICK_RATE_MS c))
  (at level 10, c at level 9).
Local Notation "'polled_at' c" := (snd (ins_accel_wait portTICK_RATE_MS c))
  (at level 10, c at level 9).
Local Notation "'flags'" := (optional_flags portTICK_RATE_MS).
Local Notation "'receives'" := (insgps_receives portTICK_RATE_MS).

Lemma poll_optional_flags c (s : State INS) :
  poll_optional portTICK_RATE_MS c (polled_at c) s
  = (flags c (inited s),
     set_trace (trace s ++ [EvReceive magQueue 0 (ins_poll portTICK_RATE_MS c magQueue);
                            EvReceive baroQueue 0 (ins_poll portTICK_RATE_MS c baroQueue);
                            EvReceive gpsQueue 0 (ins_poll portTICK_RATE_MS c gpsQueue)]) s).
Proof.
  unfold poll_optional, optional_flags, ins_poll, receive.
  change (Z.quot 0 portTICK_RATE_MS) with 0.
  set (now := polled_at c).
  pose proof (xQueueReceive_poll c magQueue now) as Hm.
  destruct (xQueueReceive c magQueue 0 now) as [m now2]. cbn [fst snd] in *. subst now2.
  pose proof (xQueueReceive_poll c baroQueue now) as Hb.
  destruct (xQueueReceive c baroQueue 0 now) as [b now3]. cbn [fst snd] in *. subst now3.
  destruct (xQueueReceive c gpsQueue 0 now) as [g now4]. cbn [fst snd] in *.
  unfold log. state_simpl. rewrite <- !app_assoc. reflexivity.
Qed.

(** The iteration, by the outcome of its receives. *)
Lemma updateAttitudeINSGPS_cases (fr : bool) c (s : State INS) :
  let was_inited := if fr then false else inited s in
  let s0 := set_inited was_inited s in
  let s1 := set_trace (trace s ++ [EvEstimator INSGPS;
                                   EvReceive gyroQueue T10 (gyro_ok c)]) s0 in
  let s2 := set_trace (trace s ++ [EvEstimator INSGPS;
                                   EvReceive gyroQueue T10 true;
                                   EvReceive accelQueue T10 (accel_ok c)]) s0 in
  let s3 := set_trace (trace s ++ receives c) s0 in
  updateI fr c s
  = if gyro_ok c then
      if accel_ok c then
        let '(m, b, g) := flags c was_inited in
        if negb was_inited && (negb m || negb b || negb g) then (-1, s3)
        else if negb was_inited then (0, insgps_initialize M L c s3)
        else (0, insgps_update M L m b g c s3)
      else (-1, AlarmsSet ALARM_WARNING s2)
    else (-1, AlarmsSet ALARM_WARNING s1).
Proof.
  cbv zeta. unfold updateAttitudeINSGPS.
  unfold ins_accel_wait at 1 2. unfold ins_gyro_wait at 1 2 3 4. unfold receive at 1.
  destruct (xQueueReceive c gyroQueue T10 0) as [g now] eqn:Eg. cbn [fst snd].
  destruct g; cbn [negb].
  2:{ destruct fr; unfold log; state_simpl; rewrite <- ?app_assoc; reflexivity. }
  unfold receive at 1.
  assert (Hnow : polled_at c = snd (xQueueReceive c accelQueue T10 now))
    by (unfold ins_accel_wait, ins_gyro_wait; rewrite Eg; reflexivity).
  destruct (xQueueReceive c accelQueue T10 now) as [a now'] eqn:Ea. cbn [fst snd] in *.
  destruct a; cbn [negb].
  2:{ destruct fr; unfold log; state_simpl; rewrite <- ?app_assoc; reflexivity. }
  subst now'. rewrite poll_optional_flags.
  assert (Hin : inited (log (EvReceive accelQueue T10 true)
                   (log (EvReceive gyroQueue T10 true)
                      (if fr then set_inited false (log (EvEstimator INSGPS) s)
                       else log (EvEstimator INSGPS) s)))
                = (if fr then false else inited s))
    by (destruct fr; reflexivity).
  rewrite Hin.
  destruct (flags c (if fr then false else inited s)) as [[m b] g].
  unfold insgps_receives.
  destruct fr; unfold log; state_simpl; rewrite <- ?app_assoc; cbn [app]; reflexivity.
Qed.


Lemma set_inited_same (s : State INS) : set_inited (inited s) s = s.
Proof. destruct s; reflexivity. Qed.

Lemma flags_all_fresh c (b : bool) :
  all_five_fresh portTICK_RATE_MS c = true -> flags c b = (true, true, true).
Proof.
  unfold all_five_fresh, optional_flags. intros H.
  apply andb_true_iff in H as [_ H].
  apply andb_true_iff in H as [H ->].
  apply andb_true_iff in H as [-> ->].
  rewrite !orb_true_r. reflexivity.
Qed.

Lemma flags_some_stale c :
  junk_free c -> mandatory c = true ->
  all_five_fresh portTICK_RATE_MS c = false ->
  let '(m, b, g) := flags c false in negb m || negb b || negb g = true.
Proof.
  unfold all_five_fresh, optional_flags. intros (-> & -> & ->) -> H.
  cbn [andb orb] in *.
  destruct (ins_poll portTICK_RATE_MS c magQueue),
           (ins_poll portTICK_RATE_MS c baroQueue),
           (ins_poll portTICK_RATE_MS c gpsQueue); cbn in *; congruence.
Qed.

(** An iteration of an estimator that is not initialized, with a stream
    missing. *)
Lemma insgps_not_seeded (fr : bool) c (s : State INS) :
  (if fr then false else inited s) = false ->
  junk_free c ->
  all_five_fresh portTICK_RATE_MS c = false ->
  let r := updateI fr c s in
  fst r = -1 /\ inited (snd r) = false /\ ins (snd r) = ins s
  /\ AttitudeActual (snd r) = AttitudeActual s
  /\ GyrosBias (snd r) = GyrosBias s
  /\ PositionActual (snd r) = PositionActual s
  /\ VelocityActual (snd r) = VelocityActual s
  /\ alarm (snd r) = (if mandatory c then alarm s else ALARM_WARNING)
  /\ exists l, trace (snd r) = trace s ++ l
               /\ masks_used l = [] /\ steps_predicted l = [].
Proof.
  intros Hin Hj Hf. cbv zeta. rewrite updateAttitudeINSGPS_cases. cbv zeta.
  rewrite Hin. unfold ins_mandatory_ok.
  destruct (gyro_ok c) eqn:Eg; [destruct (accel_ok c) eqn:Ea|]; cbn [andb].
  - pose proof (flags_some_stale c Hj) as Hs. unfold ins_mandatory_ok in Hs.
    rewrite Eg, Ea in Hs. specialize (Hs eq_refl Hf).
    destruct (flags c false) as [[m b] g]. rewrite Hs. cbn [negb andb fst snd].
    state_simpl. repeat split; try reflexivity.
    eexists; split; [reflexivity|]. split; reflexivity.
  - state_simpl. repeat split; try reflexivity.
    eexists; split; [reflexivity|]. split; reflexivity.
  - state_simpl. repeat split; try reflexivity.
    eexists; split; [reflexivity|]. split; reflexivity.
Qed.

(** An iteration of an estimator that is not initialized, with all five
    streams fresh. *)
Lemma insgps_seeded (fr : bool) c (s : State INS) :
  (if fr then false else inited s) = false ->
  all_five_fresh portTICK_RATE_MS c = true ->
  let r := updateI fr c s in
  fst r = 0 /\ inited (snd r) = true
  /\ ins (snd r) = seed_filter M L c (ins s)
  /\ alarm (snd r) = alarm s
  /\ AttitudeActual (snd r) = AttitudeActual s.
Proof.
  intros Hin Hf. cbv zeta. rewrite updateAttitudeINSGPS_cases. cbv zeta.
  rewrite Hin, (flags_all_fresh c false Hf).
  unfold all_five_fresh, ins_mandatory_ok in Hf.
  apply andb_true_iff in Hf as [Hm _]. apply andb_true_iff in Hm as [-> ->].
  cbn [negb andb orb fst snd]. unfold insgps_initialize. state_simpl.
  repeat split; reflexivity.
Qed.

(** An iteration of an initialized estimator that finds both mandatory
    samples: prediction and correction, then the guard. *)
Lemma insgps_running c (s : State INS) :
  inited s = true -> mandatory c = true ->
  updateI false c s
  = (0, bias_guard L (after_correction M L portTICK_RATE_MS c s)).
Proof.
  intros Hin Hm. rewrite updateAttitudeINSGPS_cases. cbv zeta.
  unfold ins_mandatory_ok in Hm. apply andb_true_iff in Hm as [-> ->].
  rewrite set_inited_same, Hin. unfold after_correction, insgps_update.
  destruct (flags c true) as [[m b] g]. reflexivity.
Qed.

Lemma bias_guard_trace (s : State INS) : trace (bias_guard L s) = trace s.
Proof. unfold bias_guard. destruct (_ || _); reflexivity. Qed.

Lemma after_correction_trace c (s : State INS) :
  trace (after_correction M L portTICK_RATE_MS c s)
  = trace s ++ receives c
    ++ [EvStatePrediction (insgps_dT c s);
        EvCovariancePrediction (insgps_dT c s);
        EvCorrection (let '(m, b, g) := flags c true in sensor_mask L m b g)].
Proof.
  unfold after_correction. destruct (flags c true) as [[m b] g].
  unfold insgps_predict_correct. state_simpl.
  rewrite <- !app_assoc. reflexivity.
Qed.


Local Notation "'ins_loop'" := (estimator_loop M L portTICK_RATE_MS 0).

Lemma ins_loop_cons fr c cs (s : State INS) :
  ins_loop fr (c :: cs) s = ins_loop false cs (snd (updateI fr c s)).
Proof.
  cbn [estimator_loop]. unfold estimator_pass.
  change (negb (0 =? 0)) with false. cbv iota.
  destruct fr; reflexivity.
Qed.

Lemma ins_loop_snoc fr cs c (s : State INS) :
  ins_loop fr (cs ++ [c]) s
  = snd (updateI (match cs with [] => fr | _ => false end) c
           (ins_loop fr cs s)).
Proof.
  revert fr s. induction cs as [|c' cs IH]; intros fr s.
  - cbn [app]. rewrite ins_loop_cons. reflexivity.
  - cbn [app]. rewrite !ins_loop_cons, IH. destruct cs; reflexivity.
Qed.

(** Over iterations that each miss a stream, an estimator that is not
    initialized stays so. *)
Lemma ins_loop_not_seeded (fr : bool) cs (s : State INS) :
  (if fr then false else inited s) = false ->
  Forall junk_free cs ->
  Forall (fun c => all_five_fresh portTICK_RATE_MS c = false) cs ->
  let s1 := ins_loop fr cs s in
  (if match cs with [] => fr | _ => false end then false else inited s1) = false
  /\ ins s1 = ins s
  /\ AttitudeActual s1 = AttitudeActual s
  /\ GyrosBias s1 = GyrosBias s
  /\ PositionActual s1 = PositionActual s
  /\ VelocityActual s1 = VelocityActual s
  /\ alarm s1 = (if forallb (ins_mandatory_ok portTICK_RATE_MS) cs
                 then alarm s else ALARM_WARNING)
  /\ exists l, trace s1 = trace s ++ l
               /\ masks_used l = [] /\ steps_predicted l = [].
Proof.
  intros Hin Hj Hf. revert fr s Hin Hj.
  induction Hf as [|c cs Hc Hcs IH]; intros fr s Hin Hj.
  - cbn. repeat split; auto. exists []. rewrite app_nil_r. auto.
  - inversion Hj as [|? ? Hjc Hjcs]; subst.
    cbv zeta. rewrite ins_loop_cons.
    destruct (insgps_not_seeded fr c s Hin Hjc Hc)
      as (_ & Hi & Hn & Ha & Hg & Hp & Hv & Hal & l & Ht & Hm & Hs).
    destruct (IH false (snd (updateI fr c s)) Hi Hjcs)
      as (Hi' & Hn' & Ha' & Hg' & Hp' & Hv' & Hal' & l' & Ht' & Hm' & Hs').
    repeat split; try congruence.
    + destruct cs; [exact Hi|exact Hi'].
    + rewrite Hal', Hal. cbn [forallb].
      destruct (mandatory c); cbn [andb]; [reflexivity|].
      destruct (forallb _ cs); reflexivity.
    + exists (l ++ l'). rewrite Ht', Ht, app_assoc. split; [reflexivity|].
      rewrite masks_used_app, steps_predicted_app, Hm, Hm', Hs, Hs'. auto.
Qed.

(** C5 (amended): before the INS/GPS filter is initialized, an iteration in
    which one of the five streams is not fresh creates no navigation state
    and takes no default for the missing stream, provided the three
    freshness flags start the iteration clear: the filter, the published
    orientation, bias, position and velocity stay as they were and no
    prediction or correction is made.  The alarm is raised when the gyro
    or the accelerometer is the missing one and is left alone otherwise.
    The initialization is tried again on every following iteration, and
    the first iteration with all five streams fresh seeds the filter from
    its own samples. *)
Theorem initialization_needs_all_five
  (cs : list Cycle) (c : Cycle) (s : State INS) :
  Forall junk_free cs ->
  Forall (fun c' => all_five_fresh portTICK_RATE_MS c' = false) cs ->
  all_five_fresh portTICK_RATE_MS c = true ->
  let s1 := ins_loop true cs s in
  let s2 := ins_loop true (cs ++ [c]) s in
  ins s1 = ins s
  /\ inited s1 = match cs with [] => inited s | _ => false end
  /\ AttitudeActual s1 = AttitudeActual s
  /\ GyrosBias s1 = GyrosBias s
  /\ PositionActual s1 = PositionActual s
  /\ VelocityActual s1 = VelocityActual s
  /\ masks_used (events_since s s1) = []
  /\ steps_predicted (events_since s s1) = []
  /\ alarm s1 = (if forallb (ins_mandatory_ok portTICK_RATE_MS) cs
                 then alarm s else ALARM_WARNING)
  /\ inited s2 = true
  /\ ins s2 = seed_filter M L c (ins s).
Proof.
  intros Hj Hf Hc. cbv zeta.
  destruct (ins_loop_not_seeded true cs s eq_refl Hj Hf)
    as (Hi & Hn & Ha & Hg & Hp & Hv & Hal & l & Ht & Hm & Hs).
  unfold events_since. rewrite Ht, skipn_length_app.
  rewrite ins_loop_snoc.
  destruct (insgps_seeded _ c _ Hi Hc) as (_ & Hi2 & Hn2 & _).
  rewrite Hn in Hn2.
  repeat split; auto.
  destruct cs; [reflexivity|exact Hi].
Qed.

(** C6: after every correction step of the INS/GPS estimator, a component
    of the gyro bias whose magnitude exceeds 0.1 is reset: the iteration
    ends by setting the gyro bias of the filter to (0, 0, 0), so that
    the component reads exactly 0 (and so do the other two). *)
Theorem bias_guard_resets (a : axis) (c : Cycle) (s : State INS) :
  inited s = true ->
  mandatory c = true ->
  bias_exceeds
    (component a
       (gyro_bias (Nav L (ins (after_correction M L portTICK_RATE_MS c s)))))
  = true ->
  let r := updateI false c s in
  fst r = 0
  /\ ins (snd r)
     = INSSetGyroBias L zeros
         (ins (after_correction M L portTICK_RATE_MS c s))
  /\ component a (gyro_bias (Nav L (ins (snd r)))) = F32.zero
  /\ gyro_bias (Nav L (ins (snd r))) = zeros.
Proof.
  intros Hin Hm Hex. cbv zeta. rewrite (insgps_running c s Hin Hm). cbn [fst snd].
  set (s1 := after_correction M L portTICK_RATE_MS c s) in *.
  assert (Hcall : ins (bias_guard L s1) = INSSetGyroBias L zeros (ins s1)).
  { unfold bias_guard.
    assert (Hany : bias_exceeds (vx (gyro_bias (Nav L (ins s1))))
                   || bias_exceeds (vy (gyro_bias (Nav L (ins s1))))
                   || bias_exceeds (vz (gyro_bias (Nav L (ins s1)))) = true).
    { destruct a; cbn [component] in Hex; rewrite Hex;
        rewrite ?orb_true_r; reflexivity. }
    rewrite Hany. reflexivity. }
  assert (Hz : gyro_bias (Nav L (ins (bias_guard L s1))) = zeros)
    by (rewrite Hcall; apply INSSetGyroBias_Nav).
  split; [reflexivity|]. split; [exact Hcall|]. split; [|exact Hz].
  rewrite Hz. destruct a; reflexivity.
Qed.

(** When no component exceeds the bound the guard leaves the filter as
    the correction left it. *)
Lemma bias_guard_keeps (s : State INS) :
  bias_exceeds (vx (gyro_bias (Nav L (ins s)))) = false ->
  bias_exceeds (vy (gyro_bias (Nav L (ins s)))) = false ->
  bias_exceeds (vz (gyro_bias (Nav L (ins s)))) = false ->
  bias_guard L s = s.
Proof. unfold bias_guard. intros -> -> ->. reflexivity. Qed.


End InsGps.

(** ** The estimators at concrete inputs *)

(** The state the examples start from is one [AttitudeInitialize]
    leaves. *)
Lemma initial_state_initialized :
  AttitudeInitialize initial_state = initial_state.
Proof. reflexivity. Qed.


(** C1 (the code at the failing input): the magnetometer reads a field a
    quarter turn away from the reference.  When its sample is fresh this
    cycle the filter leaves the magnetic error at zero, the yaw bias and
    the quaternion untouched; when no sample came, the same iteration
    computes the cross product from the stored reading and gets a yaw
    error that is not zero.  The test on the queue is the wrong way
    round.  In neither case is the iteration held up. *)
Theorem magnetic_correction_branch_inverted :
  let c := with_Magnetometer turned_field (level_cycle 0) in
  let c' := with_arrival (all_but magQueue) c in
  let fresh := snd (run_complimentary true c initial_state) in
  let absent := snd (run_complimentary true c' initial_state) in
  fst (mag_poll 1 c) = true
  /\ mag_err fresh = zeros
  /\ vz (GyrosBias fresh) = F32.zero
  /\ att_q (AttitudeActual fresh) = quat_identity
  /\ fst (mag_poll 1 c') = false
  /\ mag_err absent = magnetic_error quat_identity c'
  /\ F32.eq (vz (mag_err absent)) F32.zero = false
  /\ F32.eq (vz (GyrosBias absent)) F32.zero = false
  /\ fst (run_complimentary true c initial_state) = 0
  /\ fst (run_complimentary true c' initial_state) = 0.
Proof. repeat split; vm_compute; reflexivity. Qed.

(** C2 (the code at the failing input): with a gyro rate of 1e30 deg/s the
    squares of the integrated quaternion overflow, the norm is computed as
    +infinity, which is neither below 1e-3 nor a NaN, and the iteration
    succeeds and publishes the quaternion (0, 0, 0, 0), whose norm is not
    within 1e-5 of 1. *)
Theorem runaway_rate_publishes_null_quaternion :
  let r := run_complimentary true (with_Gyros runaway_rate (level_cycle 0))
             initial_state in
  fst r = 0
  /\ alarm (snd r) = ALARM_OK
  /\ qmag (snd r) = S754_infinity false
  /\ att_q (AttitudeActual (snd r))
     = Quat F32.zero F32.zero F32.zero F32.zero
  /\ unit_within_1e5 (att_q (AttitudeActual (snd r))) = false
  /\ w_nonneg (att_q (AttitudeActual (snd r))) = true.
Proof. repeat split; vm_compute; reflexivity. Qed.

(** The recovery path: a norm below 1e-3 or a NaN norm gives the identity
    quaternion. *)
Lemma quat_renormalize_recovers (qu : quat) (n : float) :
  F32.lt (F32.fabs n) (F32.lit 1 1000) || F32.ne n n = true ->
  quat_renormalize qu n = quat_identity.
Proof. unfold quat_renormalize. intros ->. reflexivity. Qed.

(** C3 (counterexample): in a cycle with every sample at hand the
    complementary filter polls the accelerometer queue with a timeout of 0
    ticks, not of 10 ms. *)
Lemma accelerometer_is_polled_without_wait :
  ~ waits_10ms_for_both (INS := NavStruct) plain_math 1.
Proof.
  intros H.
  specialize (H true (level_cycle 0) initial_state accelQueue 0
                (or_intror eq_refl)).
  assert (Hin : In 0 (timeouts_on accelQueue
                        (events_since initial_state
                           (snd (updateAttitudeComplimentary plain_math 1 true
                                   (level_cycle 0) initial_state)))))
    by (vm_compute; left; reflexivity).
  specialize (H Hin). vm_compute in H. discriminate H.
Qed.

(** An accelerometer sample that comes 5 ms after the gyro sample is
    missed: the iteration fails. *)
Lemma late_accelerometer_fails_iteration :
  let c := with_arrival accel_late (level_cycle 0) in
  arrival c accelQueue = Some 5
  /\ mandatory_ok 1 c = false
  /\ fst (run_complimentary true c initial_state) = -1
  /\ alarm (snd (run_complimentary true c initial_state)) = ALARM_WARNING.
Proof. repeat split; vm_compute; reflexivity. Qed.

(** C3 (witness): a gyro timeout, then a late accelerometer sample, then a
    complete cycle. *)
Lemma mandatory_streams_failsafe_witness :
  let cs := [with_arrival (all_but gyroQueue) (level_cycle 0);
             with_arrival accel_late (level_cycle 1)] in
  let c := level_cycle 2 in
  0 < 1
  /\ cs <> []
  /\ Forall (fun c' => mandatory_ok 1 c' = false) cs
  /\ mandatory_ok 1 c = true
  /\ Forall (fun k =>
               AttitudeActual
                 (AttitudeTask_loop plain_math plain_ins 1 true
                    (firstn (S k) cs) initial_state)
               = AttitudeActual initial_state
               /\ alarm (AttitudeTask_loop plain_math plain_ins 1 true
                           (firstn (S k) cs) initial_state)
                  = ALARM_WARNING)
            (seq 0 (length cs))
  /\ alarm (AttitudeTask_loop plain_math plain_ins 1 true (cs ++ [c])
              initial_state)
     = ALARM_OK.
Proof.
  cbv zeta.
  assert (H1 : 0 < 1) by lia.
  assert (H2 : [with_arrival (all_but gyroQueue) (level_cycle 0);
                with_arrival accel_late (level_cycle 1)] <> [])
    by discriminate.
  assert (H3 : Forall (fun c' => mandatory_ok 1 c' = false)
                 [with_arrival (all_but gyroQueue) (level_cycle 0);
                  with_arrival accel_late (level_cycle 1)])
    by (repeat constructor).
  assert (H4 : mandatory_ok 1 (level_cycle 2) = true) by reflexivity.
  destruct (mandatory_streams_failsafe plain_math plain_ins 1 true _ _
              initial_state H1 H2 H3 H4) as (_ & _ & Hkeep & Hclear).
  repeat split; assumption.
Defined.

(** C4 (the code at the failing input): the filter is initialized and the
    magnetometer, the barometer and the GPS are all fresh.  The mask
    handed to the correction holds the horizontal and vertical terms
    only: the assignment made for the GPS drops the magnetometer and
    barometer bits set just before. *)
Theorem gps_assignment_drops_mag_and_baro :
  let c := level_cycle 1 in
  let r := run_insgps false c seeded_state in
  inited seeded_state = true
  /\ (ins_poll 1 c magQueue, ins_poll 1 c baroQueue, ins_poll 1 c gpsQueue)
     = (true, true, true)
  /\ masks_used (events_since seeded_state (snd r))
     = [Z.lor (HORIZ_SENSORS plain_ins) (VERT_SENSORS plain_ins)]
  /\ claimed_mask plain_ins true true true
     = Z.lor (Z.lor (MAG_SENSORS plain_ins) (BARO_SENSOR plain_ins))
             (Z.lor (HORIZ_SENSORS plain_ins) (VERT_SENSORS plain_ins))
  /\ Z.land (sensor_mask plain_ins true true true) (MAG_SENSORS plain_ins) = 0
  /\ Z.land (sensor_mask plain_ins true true true) (BARO_SENSOR plain_ins) = 0.
Proof. repeat split; vm_compute; reflexivity. Qed.

(** Whatever the library's constants are, a fresh GPS leaves the mask with
    the horizontal and vertical terms alone. *)
Lemma sensor_mask_gps {INS : Type} (L : InsLib INS) (m b : bool) :
  sensor_mask L m b true = uint16 (Z.lor (HORIZ_SENSORS L) (VERT_SENSORS L)).
Proof. reflexivity. Qed.

(** Without a fresh GPS the mask is the one the spec words. *)
Lemma sensor_mask_no_gps {INS : Type} (L : InsLib INS) (m b : bool) :
  sensor_mask L m b false
  = (if b
     then uint16 (Z.lor (if m then uint16 (Z.lor 0 (MAG_SENSORS L)) else 0)
                        (BARO_SENSOR L))
     else if m then uint16 (Z.lor 0 (MAG_SENSORS L)) else 0).
Proof. destruct m, b; reflexivity. Qed.

(** C5 (counterexample): before initialization, a cycle without a gyro
    sample does not abort silently: the alarm goes from clear to
    WARNING. *)
Lemma gyro_timeout_before_seeding_raises_alarm :
  ~ aborts_silently (INS := NavStruct) plain_math plain_ins 1.
Proof.
  intros H.
  destruct (H (with_arrival (all_but gyroQueue) (level_cycle 0)) initial_state
              eq_refl eq_refl) as (_ & _ & _ & Hal).
  vm_compute in Hal. discriminate Hal.
Qed.

(** C5 (witness): a cycle without gyro sample, a cycle without GPS
    sample, then a cycle with all five. *)
Lemma initialization_needs_all_five_witness :
  let cs := [with_arrival (all_but gyroQueue) (level_cycle 0);
             with_arrival (all_but gpsQueue) (level_cycle 1)] in
  let c := level_cycle 2 in
  Forall junk_free cs
  /\ Forall (fun c' => all_five_fresh 1 c' = false) cs
  /\ all_five_fresh 1 c = true
  /\ ins (estimator_loop plain_math plain_ins 1 0 true cs initial_state)
     = ins initial_state
  /\ inited (estimator_loop plain_math plain_ins 1 0 true cs initial_state)
     = false
  /\ alarm (estimator_loop plain_math plain_ins 1 0 true cs initial_state)
     = ALARM_WARNING
  /\ inited (estimator_loop plain_math plain_ins 1 0 true (cs ++ [c])
               initial_state)
     = true.
Proof.
  cbv zeta.
  assert (H1 : Forall junk_free
                 [with_arrival (all_but gyroQueue) (level_cycle 0);
                  with_arrival (all_but gpsQueue) (level_cycle 1)])
    by (repeat constructor).
  assert (H2 : Forall (fun c' => all_five_fresh 1 c' = false)
                 [with_arrival (all_but gyroQueue) (level_cycle 0);
                  with_arrival (all_but gpsQueue) (level_cycle 1)])
    by (repeat constructor).
  assert (H3 : all_five_fresh 1 (level_cycle 2) = true) by reflexivity.
  destruct (initialization_needs_all_five plain_math plain_ins 1 _ _
              initial_state H1 H2 H3)
    as (Hn & Hi & _ & _ & _ & _ & _ & _ & Hal & Hi2 & _).
  repeat split; assumption.
Defined.

(** C6 (witness): the filter was seeded with a bias of 0.5 deg/s about
    x; after the next correction the bias reads zero. *)
Lemma bias_guard_resets_witness :
  inited biased_state = true
  /\ ins_mandatory_ok 1 (level_cycle 1) = true
  /\ bias_exceeds
       (component axis_x
          (gyro_bias
             (Nav plain_ins
                (ins (after_correction plain_math plain_ins 1 (level_cycle 1)
                        biased_state)))))
     = true
  /\ component axis_x
       (gyro_bias (Nav plain_ins (ins (snd (run_insgps false (level_cycle 1)
                                              biased_state)))))
     = F32.zero.
Proof.
  assert (H1 : inited biased_state = true) by reflexivity.
  assert (H2 : ins_mandatory_ok 1 (level_cycle 1) = true) by reflexivity.
  assert (H3 : bias_exceeds
                 (component axis_x
                    (gyro_bias
                       (Nav plain_ins
                          (ins (after_correction plain_math plain_ins 1
                                  (level_cycle 1) biased_state)))))
               = true) by (vm_compute; reflexivity).
  destruct (bias_guard_resets plain_math plain_ins 1 axis_x (level_cycle 1)
              biased_state H1 H2 H3) as (_ & _ & Hz & _).
  repeat split; assumption.
Defined.

(** C7 (the code at the failing input): the filter is initialized, no GPS
    event is in the queue, and the variable [gps_updated] starts the
    iteration set.  The poll of this iteration fails, yet the correction
    is made with the GPS terms; with the variable starting clear the same
    cycle is corrected with the magnetometer and barometer terms.  Before
    initialization the same holds of [mag_updated]: with no magnetometer
    event in the queue the filter is seeded all the same. *)
Theorem freshness_flags_start_indeterminate :
  let c0 := with_arrival (all_but gpsQueue) (level_cycle 1) in
  let c := with_junk false false true c0 in
  let c1 := with_junk true false false
              (with_arrival (all_but magQueue) (level_cycle 0)) in
  ins_poll 1 c gpsQueue = false
  /\ optional_flags 1 c true = (true, true, true)
  /\ masks_used (events_since seeded_state
                   (snd (run_insgps false c seeded_state)))
     = [Z.lor (HORIZ_SENSORS plain_ins) (VERT_SENSORS plain_ins)]
  /\ masks_used (events_since seeded_state
                   (snd (run_insgps false c0 seeded_state)))
     = [Z.lor (MAG_SENSORS plain_ins) (BARO_SENSOR plain_ins)]
  /\ ins_poll 1 c1 magQueue = false
  /\ fst (run_insgps true c1 initial_state) = 0
  /\ inited (snd (run_insgps true c1 initial_state)) = true.
Proof. repeat split; vm_compute; reflexivity. Qed.

(** The level and stationary scenario of the spec, first half: over one
    hundred iterations at rest, with the magnetometer on the reference
    field, the complementary filter publishes the identity quaternion
    every time and leaves the gyro bias at zero, whether the magnetometer
    samples are fresh or not. *)
Lemma level_stationary_keeps_identity :
  let published := orientations true hundred_level_cycles initial_state in
  let stale_mag := map (with_arrival (all_but magQueue)) hundred_level_cycles in
  length published = 100%nat
  /\ forallb (fun qu => quat_eqb qu quat_identity) published = true
  /\ GyrosBias (AttitudeTask_loop plain_math plain_ins 1 true
                  hundred_level_cycles initial_state)
     = zeros
  /\ forallb (fun qu => quat_eqb qu quat_identity)
       (orientations true stale_mag initial_state)
     = true.
Proof. repeat split; vm_compute; reflexivity. Qed.

(** * Further properties *)

(** ** NaNs, signs and zeros through the arithmetic *)

(** A NaN operand gives a NaN. *)
Lemma add_nan_l x y : F32.is_nan x = true -> F32.is_nan (F32.add x y) = true.
Proof. destruct x; try discriminate; reflexivity. Qed.
Lemma add_nan_r x y : F32.is_nan y = true -> F32.is_nan (F32.add x y) = true.
Proof. destruct y; try discriminate; destruct x; reflexivity. Qed.
Lemma sub_nan_l x y : F32.is_nan x = true -> F32.is_nan (F32.sub x y) = true.
Proof. destruct x; try discriminate; reflexivity. Qed.
Lemma sub_nan_r x y : F32.is_nan y = true -> F32.is_nan (F32.sub x y) = true.
Proof. destruct y; try discriminate; destruct x; reflexivity. Qed.
Lemma mul_nan_l x y : F32.is_nan x = true -> F32.is_nan (F32.mul x y) = true.
Proof. destruct x; try discriminate; reflexivity. Qed.
Lemma mul_nan_r x y : F32.is_nan y = true -> F32.is_nan (F32.mul x y) = true.
Proof. destruct y; try discriminate; destruct x; reflexivity. Qed.
Lemma div_nan_l x y : F32.is_nan x = true -> F32.is_nan (F32.div x y) = true.
Proof. destruct x; try discriminate; reflexivity. Qed.
Lemma div_nan_r x y : F32.is_nan y = true -> F32.is_nan (F32.div x y) = true.
Proof. destruct y; try discriminate; destruct x; reflexivity. Qed.
Lemma sqrtf_nan x : F32.is_nan x = true -> F32.is_nan (F32.sqrtf x) = true.
Proof. destruct x; try discriminate; reflexivity. Qed.
Lemma neg_nan x : F32.is_nan x = true -> F32.is_nan (F32.neg x) = true.
Proof. destruct x; try discriminate; reflexivity. Qed.

(** Squares, their sums and square roots carry no sign. *)
Lemma binary_round_aux_sign_clear prec emax mx ex lx :
  sign_clear (binary_round_aux prec emax false mx ex lx) = true.
Proof.
  unfold binary_round_aux.
  destruct (shr_fexp prec emax mx ex lx) as [mrs' e'].
  destruct (shr_fexp prec emax _ e' loc_Exact) as [mrs'' e''].
  destruct (shr_m mrs''); try reflexivity.
  destruct (e'' <=? emax - prec); reflexivity.
Qed.

Lemma mul_self_sign_clear x : sign_clear (F32.mul x x) = true.
Proof.
  destruct x as [[]|[]| |s m e]; try reflexivity.
  unfold F32.mul, SFmul. replace (xorb s s) with false by (destruct s; reflexivity).
  apply binary_round_aux_sign_clear.
Qed.

Lemma add_sign_clear x y :
  sign_clear x = true -> sign_clear y = true -> sign_clear (F32.add x y) = true.
Proof.
  destruct x as [[]|[]| |[] mx ex], y as [[]|[]| |[] my ey];
    cbn [sign_clear negb]; intros Hx Hy; try reflexivity;
    try discriminate Hx; try discriminate Hy.
  unfold F32.add, SFadd. cbn [cond_Zopp].
  destruct (shl_align mx ex (Z.min ex ey)) as [m1 e1].
  destruct (shl_align my ey (Z.min ex ey)) as [m2 e2]. cbn [fst Z.add].
  unfold binary_normalize, binary_round.
  destruct (shl_align _ _ _) as [mz ez]. apply binary_round_aux_sign_clear.
Qed.

Lemma sqrtf_sign_clear x : sign_clear x = true -> sign_clear (F32.sqrtf x) = true.
Proof.
  destruct x as [[]|[]| |[] m e]; cbn [sign_clear negb]; intros H;
    try reflexivity; try discriminate H.
  unfold F32.sqrtf, SFsqrt.
  destruct (SFsqrt_core_binary _ _ _ _) as [[mz ez] lz].
  apply binary_round_aux_sign_clear.
Qed.

Lemma quat_norm_sign_clear qu : sign_clear (quat_norm qu) = true.
Proof.
  unfold quat_norm. apply sqrtf_sign_clear.
  repeat apply add_sign_clear; apply mul_self_sign_clear.
Qed.

(** What fails the test [x < 0]. *)
Lemma not_negative_cases x :
  not_negative x
  = match x with
    | S754_finite true _ _ | S754_infinity true => false
    | _ => true
    end.
Proof. destruct x as [[]|[]| |[] m e]; reflexivity. Qed.

Lemma sign_clear_not_negative x : sign_clear x = true -> not_negative x = true.
Proof.
  rewrite not_negative_cases.
  destruct x as [[]|[]| |[] m e]; cbn; auto.
Qed.

Lemma div_not_negative x y :
  not_negative x = true -> sign_clear y = true ->
  not_negative (F32.div x y) = true.
Proof.
  rewrite (not_negative_cases x).
  destruct x as [[]|[]| |[] mx ex], y as [[]|[]| |[] my ey];
    cbn [sign_clear negb]; intros Hx Hy; try reflexivity;
    try discriminate Hx; try discriminate Hy.
  apply sign_clear_not_negative. unfold F32.div, SFdiv.
  destruct (SFdiv_core_binary _ _ _ _ _ _) as [[mz ez] lz].
  apply binary_round_aux_sign_clear.
Qed.

Lemma quat_positive_not_negative qu :
  not_negative (q0 (quat_positive qu)) = true.
Proof.
  unfold quat_positive.
  destruct (F32.lt (q0 qu) (F32.of_Z 0)) eqn:E; cbn [q0].
  - destruct (q0 qu) as [[]|[]| |[] m e]; try discriminate E; reflexivity.
  - unfold not_negative. change F32.zero with (F32.of_Z 0). rewrite E. reflexivity.
Qed.

Lemma quat_renormalize_not_negative qu :
  not_negative (q0 (quat_renormalize (quat_positive qu)
                      (quat_norm (quat_positive qu)))) = true.
Proof.
  unfold quat_renormalize.
  destruct (_ || _); cbn [q0]; [reflexivity|].
  apply div_not_negative;
    [apply quat_positive_not_negative|apply quat_norm_sign_clear].
Qed.

Lemma not_negative_lt x : not_negative x = true -> F32.lt x F32.zero = false.
Proof. unfold not_negative. intros H. apply negb_true_iff. exact H. Qed.

Lemma integrated_not_negative qu g dT :
  F32.lt (q0 (quat_renormalize (integrated qu g dT)
                (quat_norm (integrated qu g dT)))) F32.zero = false.
Proof.
  apply not_negative_lt. unfold integrated.
  apply quat_renormalize_not_negative.
Qed.

(** Zeros and NaNs through the arithmetic: a zero times anything is a
    zero or a NaN, and so on. *)

Lemma eq_zero_is_zero x : F32.eq x F32.zero = true -> is_zero x = true.
Proof. destruct x as [[]|[]| |[] m e]; intros H; try discriminate H; reflexivity. Qed.

Lemma is_zero_zn x : is_zero x = true -> zero_or_nan x = true.
Proof. destruct x; intros H; try discriminate H; reflexivity. Qed.

Lemma nan_zn x : F32.is_nan x = true -> zero_or_nan x = true.
Proof. destruct x; intros H; try discriminate H; reflexivity. Qed.

Lemma mul_zn_l x y : zero_or_nan x = true -> zero_or_nan (F32.mul x y) = true.
Proof. destruct x; intros H; try discriminate H; destruct y; reflexivity. Qed.
Lemma mul_zn_r x y : zero_or_nan y = true -> zero_or_nan (F32.mul x y) = true.
Proof. destruct y; intros H; try discriminate H; destruct x; reflexivity. Qed.
Lemma div_zn_l x y : zero_or_nan x = true -> zero_or_nan (F32.div x y) = true.
Proof. destruct x; intros H; try discriminate H; destruct y; reflexivity. Qed.
Lemma neg_zn x : zero_or_nan x = true -> zero_or_nan (F32.neg x) = true.
Proof. destruct x; intros H; try discriminate H; reflexivity. Qed.
Lemma sqrtf_zn x : zero_or_nan x = true -> zero_or_nan (F32.sqrtf x) = true.
Proof. destruct x; intros H; try discriminate H; reflexivity. Qed.
Lemma add_zn x y :
  zero_or_nan x = true -> zero_or_nan y = true -> zero_or_nan (F32.add x y) = true.
Proof.
  destruct x as [[]|[]| |[] mx ex]; intros Hx; try discriminate Hx;
    destruct y as [[]|[]| |[] my ey]; intros Hy; try discriminate Hy; reflexivity.
Qed.
Lemma sub_zn x y :
  zero_or_nan x = true -> zero_or_nan y = true -> zero_or_nan (F32.sub x y) = true.
Proof.
  destruct x as [[]|[]| |[] mx ex]; intros Hx; try discriminate Hx;
    destruct y as [[]|[]| |[] my ey]; intros Hy; try discriminate Hy; reflexivity.
Qed.
Lemma div_zn_zero x y :
  zero_or_nan x = true -> is_zero y = true -> F32.is_nan (F32.div x y) = true.
Proof.
  destruct x; intros Hx; try discriminate Hx;
    destruct y; intros Hy; try discriminate Hy; reflexivity.
Qed.
Lemma div_infinity_zn x s : zero_or_nan (F32.div x (S754_infinity s)) = true.
Proof. destruct x; reflexivity. Qed.

Create HintDb f32zn.
#[local] Hint Resolve mul_zn_l mul_zn_r div_zn_l neg_zn sqrtf_zn add_zn sub_zn
  is_zero_zn : f32zn.

(** Infinities and NaNs through the arithmetic. *)
Lemma div_zero_not_finite x y :
  is_zero y = true -> F32.is_finite (F32.div x y) = false.
Proof. destruct y; intros H; try discriminate H; destruct x; reflexivity. Qed.
Lemma add_not_finite_r x y :
  F32.is_finite y = false -> F32.is_finite (F32.add x y) = false.
Proof.
  destruct y as [sy|sy| |sy my ey]; intros H; try discriminate H;
    destruct x as [sx|sx| |sx mx ex]; try reflexivity.
  destruct sx, sy; reflexivity.
Qed.
Lemma mul_not_finite_r x y :
  F32.is_finite y = false -> F32.is_finite (F32.mul x y) = false.
Proof. destruct y; intros H; try discriminate H; destruct x; reflexivity. Qed.
Lemma sub_not_finite_l x y :
  F32.is_finite x = false -> F32.is_finite (F32.sub x y) = false.
Proof.
  destruct x as [sx|sx| |sx mx ex]; intros H; try discriminate H;
    destruct y as [sy|sy| |sy my ey]; try reflexivity.
  destruct sx, sy; reflexivity.
Qed.
Lemma mul_not_finite_zero x y :
  F32.is_finite x = false -> is_zero y = true -> F32.is_nan (F32.mul x y) = true.
Proof.
  destruct x; intros Hx; try discriminate Hx;
    destruct y; intros Hy; try discriminate Hy; reflexivity.
Qed.

Create HintDb f32nan.
#[local] Hint Resolve add_nan_l add_nan_r sub_nan_l sub_nan_r mul_nan_l mul_nan_r
  div_nan_l div_nan_r sqrtf_nan neg_nan : f32nan.

(** NaNs through the stages of the filter proper. *)
Lemma quat_positive_nan (a : quat -> float) qu :
  (a = q0 \/ a = q1 \/ a = q2 \/ a = q3) ->
  F32.is_nan (a qu) = true -> F32.is_nan (a (quat_positive qu)) = true.
Proof.
  intros Ha H. unfold quat_positive.
  destruct (F32.lt _ _); [|exact H].
  destruct Ha as [ -> | [ -> | [ -> | -> ] ] ]; cbn [q0 q1 q2 q3]; auto with f32nan.
Qed.

Lemma quat_norm_nan qu :
  F32.is_nan (q0 qu) || F32.is_nan (q1 qu) || F32.is_nan (q2 qu)
  || F32.is_nan (q3 qu) = true ->
  F32.is_nan (quat_norm qu) = true.
Proof.
  intros H. unfold quat_norm.
  repeat (apply orb_true_iff in H; destruct H as [H|H]); auto 10 with f32nan.
Qed.

Lemma quat_renormalize_nan qu :
  F32.is_nan (quat_norm qu) = true ->
  quat_renormalize qu (quat_norm qu) = quat_identity.
Proof.
  intros H. apply quat_renormalize_recovers.
  destruct (quat_norm qu); try discriminate H. reflexivity.
Qed.

Lemma quat_step_nan qu g dT :
  F32.is_nan (vx g) = true -> F32.is_nan (q0 (quat_step qu g dT)) = true.
Proof. intros H. unfold quat_step. cbn [q0]. auto 12 with f32nan. Qed.

Lemma integrated_nan qu g dT :
  F32.is_nan (q0 (quat_step qu g dT)) = true ->
  quat_renormalize (integrated qu g dT) (quat_norm (integrated qu g dT))
  = quat_identity.
Proof.
  intros H. apply quat_renormalize_nan, quat_norm_nan. unfold integrated.
  rewrite (quat_positive_nan q0 _ (or_introl eq_refl) H). reflexivity.
Qed.

(** A norm that is a number has components that are numbers. *)
Lemma quat_norm_numeric qu :
  F32.is_nan (quat_norm qu) = false ->
  F32.is_nan (q0 qu) = false /\ F32.is_nan (q1 qu) = false
  /\ F32.is_nan (q2 qu) = false /\ F32.is_nan (q3 qu) = false.
Proof.
  intros H.
  destruct (F32.is_nan (q0 qu)) eqn:E0, (F32.is_nan (q1 qu)) eqn:E1,
    (F32.is_nan (q2 qu)) eqn:E2, (F32.is_nan (q3 qu)) eqn:E3;
    try (repeat split; reflexivity);
    rewrite quat_norm_nan in H by (rewrite E0, E1, E2, E3; reflexivity);
    discriminate H.
Qed.

Lemma not_negative_le x :
  not_negative x = true -> F32.is_nan x = false -> F32.le F32.zero x = true.
Proof.
  rewrite not_negative_cases.
  destruct x as [[]|[]| |[] m e]; intros H1 H2;
    try discriminate H1; try discriminate H2; reflexivity.
Qed.

(** The renormalization when the norm did not overflow: either the
    recovery, or a division by a finite norm of components that are
    numbers. *)
Lemma quat_renormalize_numeric qu :
  quat_norm qu <> S754_infinity false ->
  let r := quat_renormalize qu (quat_norm qu) in
  F32.is_nan (q0 r) = false /\ F32.is_nan (q1 r) = false
  /\ F32.is_nan (q2 r) = false /\ F32.is_nan (q3 r) = false.
Proof.
  intros Hn. cbv zeta. unfold quat_renormalize.
  destruct (_ || _) eqn:E; [repeat split; reflexivity|].
  apply orb_false_iff in E as [E1 E2].
  pose proof (quat_norm_sign_clear qu) as Hs.
  pose proof (quat_norm_numeric qu) as Hc.
  destruct (quat_norm qu) as [[]|[]| |[] m e];
    try discriminate Hs; try discriminate E1; try discriminate E2;
    try (exfalso; apply Hn; reflexivity).
  destruct (Hc eq_refl) as (H0 & H1 & H2 & H3). cbn [q0 q1 q2 q3].
  repeat split; apply div_finite_not_nan; assumption.
Qed.

(** The renormalization when the norm overflowed: every component is
    divided by +infinity. *)
Lemma quat_renormalize_overflow qu :
  quat_norm qu = S754_infinity false ->
  let r := quat_renormalize qu (quat_norm qu) in
  zero_or_nan (q0 r) = true /\ zero_or_nan (q1 r) = true
  /\ zero_or_nan (q2 r) = true /\ zero_or_nan (q3 r) = true.
Proof.
  intros ->. cbv zeta. unfold quat_renormalize.
  assert (C : F32.lt (F32.fabs (S754_infinity false)) (F32.lit 1 1000)
              || F32.ne (S754_infinity false) (S754_infinity false) = false)
    by (vm_compute; reflexivity).
  rewrite C. cbn [q0 q1 q2 q3]. repeat split; apply div_infinity_zn.
Qed.

(** A null quaternion through the stages of the filter proper. *)
Lemma zn_not_lt x : zero_or_nan x = true -> F32.lt x (F32.of_Z 0) = false.
Proof. destruct x as [[]|[]| |[] m e]; intros H; try discriminate H; reflexivity. Qed.

Lemma zn_recovers n :
  zero_or_nan n = true ->
  F32.lt (F32.fabs n) (F32.lit 1 1000) || F32.ne n n = true.
Proof.
  destruct n as [[]|[]| |[] m e]; intros H; try discriminate H;
    vm_compute; reflexivity.
Qed.

Lemma quat_step_zn qu g dT :
  zero_or_nan (q0 qu) = true -> zero_or_nan (q1 qu) = true ->
  zero_or_nan (q2 qu) = true -> zero_or_nan (q3 qu) = true ->
  let r := quat_step qu g dT in
  zero_or_nan (q0 r) = true /\ zero_or_nan (q1 r) = true
  /\ zero_or_nan (q2 r) = true /\ zero_or_nan (q3 r) = true.
Proof.
  intros H0 H1 H2 H3. unfold quat_step. cbn [q0 q1 q2 q3].
  repeat split; auto 12 with f32zn.
Qed.

(** A null quaternion stays null through the time step, and the
    recovery takes it. *)
Lemma integrated_null qu g dT :
  zero_or_nan (q0 qu) = true -> zero_or_nan (q1 qu) = true ->
  zero_or_nan (q2 qu) = true -> zero_or_nan (q3 qu) = true ->
  quat_renormalize (integrated qu g dT) (quat_norm (integrated qu g dT))
  = quat_identity.
Proof.
  intros H0 H1 H2 H3.
  destruct (quat_step_zn qu g dT H0 H1 H2 H3) as (Z0 & Z1 & Z2 & Z3).
  apply quat_renormalize_recovers, zn_recovers.
  unfold integrated, quat_positive. rewrite (zn_not_lt _ Z0).
  unfold quat_norm. auto 8 with f32zn.
Qed.

(** A time step of zero: the corrected rates are not finite, and the
    derivative of the quaternion is their product with the zero. *)
Lemma quat_step_still qu g dT :
  is_zero dT = true -> F32.is_finite (vx g) = false ->
  F32.is_nan (q0 (quat_step qu g dT)) = true.
Proof.
  intros Hz Hg. unfold quat_step. cbn [q0].
  apply add_nan_r, div_nan_l, div_nan_l, mul_nan_l, mul_not_finite_zero;
    [|exact Hz].
  apply sub_not_finite_l, sub_not_finite_l, mul_not_finite_r, Hg.
Qed.

Lemma corrected_rates_still gyros ae me Kp dT :
  is_zero dT = true ->
  F32.is_finite (vx (corrected_rates gyros ae me Kp dT)) = false.
Proof.
  intros Hz. unfold corrected_rates. cbn [vx].
  apply add_not_finite_r, div_zero_not_finite, Hz.
Qed.

(** The length of a null vector is zero. *)
Lemma norm3_null a :
  is_zero (vx a) = true -> is_zero (vy a) = true -> is_zero (vz a) = true ->
  is_zero (norm3 a) = true.
Proof.
  destruct a as [x y z]. cbn [vx vy vz]. unfold norm3. cbn [vx vy vz].
  destruct x as [[]|[]| |[] mx ex]; intros Hx; try discriminate Hx;
    destruct y as [[]|[]| |[] my ey]; intros Hy; try discriminate Hy;
    destruct z as [[]|[]| |[] mz ez]; intros Hz; try discriminate Hz;
    reflexivity.
Qed.

(** Without gravity there is no direction to compare: the error is
    0/0 on every axis. *)
Lemma gravity_error_null qu a :
  is_zero (vx a) = true -> is_zero (vy a) = true -> is_zero (vz a) = true ->
  let e := gravity_error qu a in
  F32.is_nan (vx e) = true /\ F32.is_nan (vy e) = true
  /\ F32.is_nan (vz e) = true.
Proof.
  intros Hx Hy Hz. pose proof (norm3_null a Hx Hy Hz) as Hn.
  unfold gravity_error, vec3_div, CrossProduct. cbn [vx vy vz].
  repeat split; apply div_zn_zero; auto 6 with f32zn.
Qed.

(** ** The filter proper at the edges of its inputs *)

Section FilterEdges.

Context {INS : Type} (M : MathLib) (portTICK_RATE_MS : Z).

(** What the filter proper publishes, in terms of its stages. *)
Lemma complimentary_filter_publishes fr c now (s : State INS) :
  let s' := complimentary_filter M fr c now s in
  let qu := att_q (AttitudeActual s) in
  let g := corrected_rates (Gyros c) (gravity_error qu (Accels c)) (mag_err s')
             (accelKp (select_gains fr c s)) (complimentary_dT c s) in
  let qi := integrated qu g (complimentary_dT c s) in
  att_q (AttitudeActual s') = quat_renormalize qi (quat_norm qi)
  /\ qmag s' = quat_norm qi
  /\ GyrosBias s'
     = (Vec3 (vx (GyrosBias s)
              + vx (gravity_error qu (Accels c)) * accelKi (select_gains fr c s))
             (vy (GyrosBias s)
              + vy (gravity_error qu (Accels c)) * accelKi (select_gains fr c s))
             (vz (GyrosBias s) + vz (mag_err s') * magKi))%f32
  /\ timeval s' = int32 (raw_time c).
Proof.
  destruct (select_gains_frame fr c s) as (Ha & Hg & _ & _ & _ & _ & _ & _ & _ & Ht).
  cbv zeta. unfold complimentary_filter, receive, complimentary_dT in *.
  destruct (xQueueReceive c magQueue 0 now) as [m now1];
  destruct (xQueueReceive c baroQueue 0 now1) as [b now2];
  destruct (xQueueReceive c gpsQueue 0 now2) as [g now3].
  destruct m; state_simpl; rewrite ?Ha, ?Hg, ?Ht; repeat split; reflexivity.
Qed.

Local Notation "'updateC'" :=
  (updateAttitudeComplimentary (INS := INS) M portTICK_RATE_MS).

(** A successful iteration is the filter proper, run on a state that
    differs from the state of entry by its records of the receives. *)
Lemma updateC_success fr c (s : State INS) :
  mandatory_ok portTICK_RATE_MS c = true ->
  exists now s0,
    snd (updateC fr c s) = complimentary_filter M fr c now s0
    /\ AttitudeActual s0 = AttitudeActual s /\ GyrosBias s0 = GyrosBias s
    /\ timeval s0 = timeval s.
Proof.
  intros H. rewrite updateAttitudeComplimentary_cases. unfold mandatory_ok in H.
  apply andb_true_iff in H as [-> ->]. cbn [snd].
  eexists _, _. split; [reflexivity|]. repeat split; reflexivity.
Qed.

Lemma updateC_publishes fr c (s : State INS) :
  mandatory_ok portTICK_RATE_MS c = true ->
  exists me Kp Ki,
    let s' := snd (updateC fr c s) in
    let qu := att_q (AttitudeActual s) in
    let dT := complimentary_dT c s in
    let ae := gravity_error qu (Accels c) in
    let qi := integrated qu (corrected_rates (Gyros c) ae me Kp dT) dT in
    att_q (AttitudeActual s') = quat_renormalize qi (quat_norm qi)
    /\ qmag s' = quat_norm qi
    /\ GyrosBias s'
       = (Vec3 (vx (GyrosBias s) + vx ae * Ki) (vy (GyrosBias s) + vy ae * Ki)
               (vz (GyrosBias s) + vz me * magKi))%f32
    /\ timeval s' = int32 (raw_time c).
Proof.
  intros H. destruct (updateC_success fr c s H) as (now & s0 & E & Ha & Hg & Ht).
  pose proof (complimentary_filter_publishes fr c now s0) as P.
  cbv zeta in P. rewrite <- E in P. unfold complimentary_dT in *.
  rewrite Ha, Hg, Ht in P. eexists _, _, _. exact P.
Qed.

(** X1: whenever an iteration of the complementary filter finds both
    mandatory samples, the scalar component of the quaternion it publishes
    does not compare below zero, whatever the samples, the gains and the
    elapsed time are. *)
Theorem published_scalar_never_negative fr c (s : State INS) :
  mandatory_ok portTICK_RATE_MS c = true ->
  F32.lt (q0 (att_q (AttitudeActual (snd (updateC fr c s))))) F32.zero = false.
Proof.
  intros H. destruct (updateC_publishes fr c s H) as (me & Kp & Ki & P & _).
  rewrite P. apply integrated_not_negative.
Qed.

(** X2: when an iteration of the complementary filter finds both
    mandatory samples and the norm it computes is not +infinity, no
    component of the published quaternion is a NaN and its scalar
    component compares at or above zero. *)
Theorem published_quaternion_numeric fr c (s : State INS) :
  mandatory_ok portTICK_RATE_MS c = true ->
  qmag (snd (updateC fr c s)) <> S754_infinity false ->
  let qu := att_q (AttitudeActual (snd (updateC fr c s))) in
  F32.is_nan (q0 qu) = false /\ F32.is_nan (q1 qu) = false
  /\ F32.is_nan (q2 qu) = false /\ F32.is_nan (q3 qu) = false
  /\ F32.le F32.zero (q0 qu) = true.
Proof.
  intros H Hq. destruct (updateC_publishes fr c s H) as (me & Kp & Ki & P & Q & _).
  cbv zeta. rewrite P. rewrite Q in Hq.
  destruct (quat_renormalize_numeric _ Hq) as (H0 & H1 & H2 & H3).
  repeat split; try assumption.
  apply not_negative_le; [|exact H0].
  unfold integrated. apply quat_renormalize_not_negative.
Qed.

(** X3: when the norm of the integrated quaternion overflows to
    +infinity, the iteration still succeeds, and every component of the
    quaternion it publishes is a zero or a NaN: the recovery does not see
    the overflow. *)
Theorem norm_overflow_publishes_no_rotation fr c (s : State INS) :
  mandatory_ok portTICK_RATE_MS c = true ->
  qmag (snd (updateC fr c s)) = S754_infinity false ->
  let qu := att_q (AttitudeActual (snd (updateC fr c s))) in
  zero_or_nan (q0 qu) = true /\ zero_or_nan (q1 qu) = true
  /\ zero_or_nan (q2 qu) = true /\ zero_or_nan (q3 qu) = true.
Proof.
  intros H Hq. destruct (updateC_publishes fr c s H) as (me & Kp & Ki & P & Q & _).
  cbv zeta. rewrite P. rewrite Q in Hq.
  apply quat_renormalize_overflow, Hq.
Qed.

(** X4: an accelerometer sample that is zero on all three axes makes
    the gravity error 0/0.  The iteration succeeds, the published
    quaternion is the identity whatever the attitude was, and the x and y
    components of the published gyro bias become NaN. *)
Theorem zero_acceleration_resets_attitude fr c (s : State INS) :
  mandatory_ok portTICK_RATE_MS c = true ->
  F32.eq (vx (Accels c)) F32.zero = true ->
  F32.eq (vy (Accels c)) F32.zero = true ->
  F32.eq (vz (Accels c)) F32.zero = true ->
  let s' := snd (updateC fr c s) in
  att_q (AttitudeActual s') = quat_identity
  /\ F32.is_nan (vx (GyrosBias s')) = true
  /\ F32.is_nan (vy (GyrosBias s')) = true.
Proof.
  intros H Hx Hy Hz.
  destruct (updateC_publishes fr c s H) as (me & Kp & Ki & P & _ & B & _).
  destruct (gravity_error_null (att_q (AttitudeActual s)) (Accels c))
    as (Ex & Ey & Ez); try (apply eq_zero_is_zero; assumption).
  cbv zeta. rewrite P, B. cbn [vx vy]. repeat split; auto with f32nan.
  apply integrated_nan, quat_step_nan.
  unfold corrected_rates. cbn [vx]. auto with f32nan.
Qed.

(** X5: when no time has elapsed since the clock was last read, the
    time step is zero, the corrected rates are divided by it, and the
    iteration publishes the identity quaternion whatever the attitude and
    the samples were. *)
Theorem zero_elapsed_time_resets_attitude fr c (s : State INS) :
  mandatory_ok portTICK_RATE_MS c = true ->
  PIOS_DELAY_DiffuS c (timeval s) = 0 ->
  att_q (AttitudeActual (snd (updateC fr c s))) = quat_identity.
Proof.
  intros H Hd.
  destruct (updateC_publishes fr c s H) as (me & Kp & Ki & P & _).
  rewrite P. assert (Hz : is_zero (complimentary_dT c s) = true).
  { unfold complimentary_dT. rewrite Hd. reflexivity. }
  apply integrated_nan, quat_step_still; [exact Hz|].
  apply corrected_rates_still, Hz.
Qed.

(** X6: from a stored quaternion whose four components are zero (what
    an overflow of the norm leaves behind), the next iteration that finds
    both mandatory samples publishes the identity quaternion. *)
Theorem null_quaternion_is_replaced fr c (s : State INS) :
  mandatory_ok portTICK_RATE_MS c = true ->
  F32.eq (q0 (att_q (AttitudeActual s))) F32.zero = true ->
  F32.eq (q1 (att_q (AttitudeActual s))) F32.zero = true ->
  F32.eq (q2 (att_q (AttitudeActual s))) F32.zero = true ->
  F32.eq (q3 (att_q (AttitudeActual s))) F32.zero = true ->
  att_q (AttitudeActual (snd (updateC fr c s))) = quat_identity.
Proof.
  intros H H0 H1 H2 H3.
  destruct (updateC_publishes fr c s H) as (me & Kp & Ki & P & _).
  rewrite P.
  apply integrated_null; apply is_zero_zn, eq_zero_is_zero; assumption.
Qed.
End FilterEdges.

(** ** Gains, clock and magnetometer over the iterations *)

Section TaskIterations.

Context {INS : Type} (M : MathLib) (L : InsLib INS) (portTICK_RATE_MS : Z).

Local Notation "'updateC'" :=
  (updateAttitudeComplimentary (INS := INS) M portTICK_RATE_MS).
Local Notation "'task_loop'" := (AttitudeTask_loop M L portTICK_RATE_MS).
Local Notation "'ok' c" := (mandatory_ok portTICK_RATE_MS c)
  (at level 10, c at level 9).

(** A NaN in the published gyro bias survives an iteration. *)
Lemma updateC_bias_nan (a : axis) fr c (s : State INS) :
  F32.is_nan (component a (GyrosBias s)) = true ->
  F32.is_nan (component a (GyrosBias (snd (updateC fr c s)))) = true.
Proof.
  intros H. destruct (ok c) eqn:E.
  - destruct (updateC_publishes M portTICK_RATE_MS fr c s E)
      as (me & Kp & Ki & _ & _ & B & _).
    rewrite B. destruct a; cbn [component vx vy vz] in *; auto with f32nan.
  - destruct (updateAttitudeComplimentary_timeout M portTICK_RATE_MS fr c s E)
      as [_ ->]. exact H.
Qed.

(** X7: a component of the published gyro bias that is a NaN stays a
    NaN through any number of passes of the task loop, whatever the
    samples are and whether the iterations succeed or fail. *)
Theorem nan_bias_is_never_shed (a : axis) fr cs (s : State INS) :
  F32.is_nan (component a (GyrosBias s)) = true ->
  F32.is_nan (component a (GyrosBias (task_loop fr cs s))) = true.
Proof.
  revert fr s. induction cs as [|c cs IH]; intros fr s H; [exact H|].
  rewrite AttitudeTask_loop_cons. apply IH, updateC_bias_nan, H.
Qed.

(** What the filter proper does to the gains and to [init] is what
    [select_gains] does. *)
Lemma complimentary_filter_gains fr c now (s : State INS) :
  let s' := complimentary_filter M fr c now s in
  let g := select_gains fr c s in
  accelKp s' = accelKp g /\ accelKi s' = accelKi g
  /\ yawBiasRate s' = yawBiasRate g /\ init s' = init g
  /\ zero_during_arming s' = zero_during_arming g.
Proof.
  cbv zeta. unfold complimentary_filter, receive.
  destruct (xQueueReceive c magQueue 0 now) as [m now1];
  destruct (xQueueReceive c baroQueue 0 now1) as [b now2];
  destruct (xQueueReceive c gpsQueue 0 now2) as [g now3].
  destruct m; state_simpl; repeat split; reflexivity.
Qed.

(** What an iteration does to the gains, to [init] and to
    [zero_during_arming]. *)
Lemma updateC_gains fr c (s : State INS) :
  let s' := snd (updateC fr c s) in
  if ok c then
    gains s' = gains (select_gains fr c s)
    /\ init s' = init (select_gains fr c s)
    /\ zero_during_arming s' = zero_during_arming s
  else gains s' = gains s /\ init s' = init s
       /\ zero_during_arming s' = zero_during_arming s.
Proof.
  cbv zeta. rewrite updateAttitudeComplimentary_cases. unfold mandatory_ok.
  destruct (fst (gyro_wait _ c)); [destruct (fst (accel_poll _ c))|];
    cbn [andb snd]; try (repeat split; reflexivity).
  match goal with
  | |- context [complimentary_filter M fr c ?now ?s2] =>
      destruct (complimentary_filter_gains fr c now s2) as (H1 & H2 & H3 & H4 & H5)
  end.
  unfold gains. rewrite H1, H2, H3, H4, H5.
  unfold select_gains, forced_gains.
  destruct fr; state_simpl;
    repeat match goal with |- context [if ?b then _ else _] => destruct b end;
    state_simpl; repeat split; reflexivity.
Qed.

(** With [init] set and no arming, the gains are left alone. *)
Lemma select_gains_latched c (s : State INS) :
  init s <> 0 -> zero_during_arming s && is_arming (Armed c) = false ->
  select_gains false c s = s.
Proof.
  intros Hi Ha. unfold select_gains. rewrite Ha.
  apply Z.eqb_neq in Hi. rewrite Hi. reflexivity.
Qed.

Lemma task_loop_latched cs (s : State INS) :
  init s <> 0 ->
  Forall (fun c => zero_during_arming s && is_arming (Armed c) = false) cs ->
  gains (task_loop false cs s) = gains s /\ init (task_loop false cs s) = init s.
Proof.
  revert s. induction cs as [|c cs IH]; intros s Hi Hf; [split; reflexivity|].
  inversion Hf as [|c' cs' Hc Hcs]; subst. rewrite AttitudeTask_loop_cons.
  pose proof (updateC_gains false c s) as G. cbv zeta in G.
  rewrite (select_gains_latched c s Hi Hc) in G.
  assert (G' : gains (snd (updateC false c s)) = gains s
               /\ init (snd (updateC false c s)) = init s
               /\ zero_during_arming (snd (updateC false c s))
                  = zero_during_arming s)
    by (destruct (ok c); exact G).
  destruct G' as (G1 & G2 & G3).
  destruct (IH (snd (updateC false c s))) as [I1 I2].
  - rewrite G2. exact Hi.
  - rewrite G3. exact Hcs.
  - rewrite I1, I2. split; assumption.
Qed.

(** X8: when the first pass of the task loop finds both mandatory
    samples at a tick count of at most 1000, it loads the gains from the
    settings and sets [init]; from then on, as long as no pass is made
    while arming with zero-during-arming set, the gains stay those of the
    settings, also for the passes made between ticks 1000 and 7000: the
    forced gains of the first seven seconds are never used. *)
Theorem early_start_skips_the_warm_up c cs (s : State INS) :
  ok c = true ->
  tick_count c <= 1000 ->
  Forall (fun c' => zero_during_arming s && is_arming (Armed c') = false)
         (c :: cs) ->
  let s' := task_loop true (c :: cs) s in
  accelKp s' = AccelKp (AttitudeSettings c)
  /\ accelKi s' = AccelKi (AttitudeSettings c)
  /\ yawBiasRate s' = YawBiasRate (AttitudeSettings c)
  /\ init s' = 1.
Proof.
  intros Hok Ht Hf. inversion Hf as [|c' cs' Hc Hcs]; subst.
  cbv zeta. rewrite AttitudeTask_loop_cons.
  pose proof (updateC_gains true c s) as G. cbv zeta in G. rewrite Hok in G.
  assert (S1 : select_gains true c s
               = set_init 1
                   (set_yawBiasRate (YawBiasRate (AttitudeSettings c))
                      (set_accelKp (AccelKp (AttitudeSettings c))
                         (set_accelKi (AccelKi (AttitudeSettings c))
                            (set_init 0 s))))).
  { unfold select_gains. state_simpl. rewrite Hc.
    replace (1000 <? tick_count c) with false
      by (symmetry; apply Z.ltb_ge; exact Ht).
    rewrite andb_false_r. reflexivity. }
  rewrite S1 in G. destruct G as (G1 & G2 & G3). state_simpl.
  destruct (task_loop_latched cs (snd (updateC true c s))) as [I1 I2].
  - rewrite G2. discriminate.
  - rewrite G3. exact Hcs.
  - unfold gains in *. state_simpl.
    inversion I1 as [[J1 J2 J3]]. inversion G1 as [[K1 K2 K3]].
    rewrite J1, J2, J3, I2, K1, K2, K3, G2. repeat split; reflexivity.
Qed.

(** The second and third branches of the choice of the gains. *)
Lemma select_gains_arming fr c (s : State INS) :
  zero_during_arming s = true -> is_arming (Armed c) = true ->
  gains (select_gains fr c s) = (F32.of_Z 1, F32.dlit 9 10, F32.dlit 23 100)
  /\ init (select_gains fr c s) = 0.
Proof.
  intros Hz Ha. unfold select_gains, forced_gains, gains.
  destruct fr; state_simpl; rewrite Hz, Ha; cbn [andb].
  - destruct (_ && _); state_simpl; split; reflexivity.
  - destruct (init s =? 0) eqn:E; cbn [andb].
    + apply Z.eqb_eq in E.
      destruct (_ && _); state_simpl; split; auto.
    + state_simpl. split; reflexivity.
Qed.

Lemma select_gains_reload c (s : State INS) :
  init s = 0 -> zero_during_arming s && is_arming (Armed c) = false ->
  tick_count c <= 1000 \/ 7000 <= tick_count c ->
  gains (select_gains false c s)
  = (AccelKp (AttitudeSettings c), AccelKi (AttitudeSettings c),
     YawBiasRate (AttitudeSettings c))
  /\ init (select_gains false c s) = 1.
Proof.
  intros Hi Ha Ht. unfold select_gains, gains. rewrite Hi, Ha. cbn [Z.eqb andb].
  replace ((tick_count c <? 7000) && (1000 <? tick_count c)) with false.
  - state_simpl. split; reflexivity.
  - symmetry. apply andb_false_iff.
    destruct Ht; [right; apply Z.ltb_ge|left; apply Z.ltb_ge]; assumption.
Qed.

(** X9: with zero-during-arming set, a successful iteration made while
    the vehicle is arming forces the gains to (1, 0.9, 0.23) and clears
    [init]; the next successful iteration made when not arming, at a tick
    count outside (1000, 7000), loads the gains from the settings again and
    sets [init]. *)
Theorem arming_forces_the_gains_until_reload fr c1 c2 (s : State INS) :
  zero_during_arming s = true ->
  ok c1 = true -> is_arming (Armed c1) = true ->
  ok c2 = true -> is_arming (Armed c2) = false ->
  tick_count c2 <= 1000 \/ 7000 <= tick_count c2 ->
  let s1 := snd (updateC fr c1 s) in
  let s2 := snd (updateC false c2 s1) in
  gains s1 = (F32.of_Z 1, F32.dlit 9 10, F32.dlit 23 100)
  /\ init s1 = 0
  /\ gains s2 = (AccelKp (AttitudeSettings c2), AccelKi (AttitudeSettings c2),
                 YawBiasRate (AttitudeSettings c2))
  /\ init s2 = 1.
Proof.
  intros Hz Hok1 Ha1 Hok2 Ha2 Ht. cbv zeta.
  pose proof (updateC_gains fr c1 s) as G. cbv zeta in G. rewrite Hok1 in G.
  destruct G as (G1 & G2 & G3).
  destruct (select_gains_arming fr c1 s Hz Ha1) as [A1 A2].
  rewrite A1 in G1. rewrite A2 in G2.
  pose proof (updateC_gains false c2 (snd (updateC fr c1 s))) as G'.
  cbv zeta in G'. rewrite Hok2 in G'. destruct G' as (G1' & G2' & _).
  destruct (select_gains_reload c2 (snd (updateC fr c1 s)) G2) as [R1 R2];
    [rewrite Ha2; apply andb_false_r|exact Ht|].
  rewrite R1 in G1'. rewrite R2 in G2'. repeat split; assumption.
Qed.

(** The clock reading survives its stay in the signed [timeval]. *)
Lemma uint32_int32 (z : Z) : uint32 (int32 z) = uint32 z.
Proof.
  unfold uint32, int32.
  rewrite Zminus_mod_idemp_l. f_equal. lia.
Qed.

Lemma PIOS_DELAY_DiffuS_since c c0 :
  PIOS_DELAY_DiffuS c (int32 (raw_time c0))
  = uint32 (raw_time c - raw_time c0).
Proof.
  unfold PIOS_DELAY_DiffuS. rewrite uint32_int32. unfold uint32.
  apply Zminus_mod_idemp_r.
Qed.

Lemma task_loop_timeouts_keep_timeval fr cs (s : State INS) :
  Forall (fun c => ok c = false) cs ->
  timeval (task_loop fr cs s) = timeval s.
Proof.
  revert fr s. induction cs as [|c cs IH]; intros fr s Hf; [reflexivity|].
  inversion Hf as [|c' cs' Hc Hcs]; subst. rewrite AttitudeTask_loop_cons.
  rewrite (IH false _ Hcs). rewrite updateAttitudeComplimentary_cases.
  unfold mandatory_ok in Hc.
  destruct (fst (gyro_wait _ c)); [destruct (fst (accel_poll _ c))|];
    try discriminate Hc; reflexivity.
Qed.

(** X10: the clock is stored by successful iterations only.  After a
    successful pass followed by any number of failed passes, the time the
    next iteration measures is the raw time elapsed since the successful
    one, modulo 2^32 microseconds; keeping the unsigned reading in the
    signed [timeval] loses nothing. *)
Theorem time_step_spans_failed_iterations fr c1 cs c2 (s : State INS) :
  ok c1 = true ->
  Forall (fun c => ok c = false) cs ->
  let s' := task_loop fr (c1 :: cs) s in
  PIOS_DELAY_DiffuS c2 (timeval s') = uint32 (raw_time c2 - raw_time c1)
  /\ complimentary_dT c2 s'
     = F32.div (F32.of_Z ((raw_time c2 - raw_time c1) mod 2 ^ 32))
               (F32.lit 1000000 1).
Proof.
  intros Hok Hf. cbv zeta. rewrite AttitudeTask_loop_cons.
  assert (E : timeval (task_loop false cs (snd (updateC fr c1 s)))
              = int32 (raw_time c1)).
  { rewrite (task_loop_timeouts_keep_timeval false cs _ Hf).
    destruct (updateC_publishes M portTICK_RATE_MS fr c1 s Hok)
      as (me & Kp & Ki & _ & _ & _ & T). exact T. }
  unfold complimentary_dT. rewrite E, PIOS_DELAY_DiffuS_since.
  split; reflexivity.
Qed.

(** The filter proper reads the magnetometer only when its poll fails. *)
Lemma complimentary_filter_fresh_mag fr c (m : vec3) now (s : State INS) :
  fst (xQueueReceive c magQueue 0 now) = true ->
  complimentary_filter M fr (with_Magnetometer m c) now s
  = complimentary_filter M fr c now s.
Proof.
  intros H. unfold complimentary_filter, receive.
  change (select_gains fr (with_Magnetometer m c) s) with (select_gains fr c s).
  change (complimentary_dT (INS := INS) (with_Magnetometer m c))
    with (complimentary_dT (INS := INS) c).
  change (xQueueReceive (with_Magnetometer m c)) with (xQueueReceive c).
  change (Gyros (with_Magnetometer m c)) with (Gyros c).
  change (Accels (with_Magnetometer m c)) with (Accels c).
  change (raw_time (with_Magnetometer m c)) with (raw_time c).
  destruct (xQueueReceive c magQueue 0 now) as [mg now1]. cbn [fst] in H.
  subst mg.
  destruct (xQueueReceive c baroQueue 0 now1) as [b now2].
  destruct (xQueueReceive c gpsQueue 0 now2) as [g now3].
  state_simpl. reflexivity.
Qed.

(** X11: in an iteration whose poll of the magnetometer queue succeeds, the
    reading of the magnetometer has no effect at all: with any other
    reading the iteration returns the same code and leaves the same
    state. *)
Theorem fresh_magnetometer_sample_is_ignored fr c (m : vec3) (s : State INS) :
  fst (mag_poll portTICK_RATE_MS c) = true ->
  updateC fr (with_Magnetometer m c) s = updateC fr c s.
Proof.
  intros H. rewrite !updateAttitudeComplimentary_cases.
  change (gyro_wait portTICK_RATE_MS (with_Magnetometer m c))
    with (gyro_wait portTICK_RATE_MS c).
  change (accel_poll portTICK_RATE_MS (with_Magnetometer m c))
    with (accel_poll portTICK_RATE_MS c).
  destruct (fst (gyro_wait _ c)); [|reflexivity].
  destruct (fst (accel_poll _ c)) eqn:Ea; [|reflexivity].
  unfold mag_poll, accel_poll in H. rewrite xQueueReceive_poll in H.
  rewrite (complimentary_filter_fresh_mag fr c m _ _ H). reflexivity.
Qed.

(** The first branch of the choice of the gains. *)
Lemma select_gains_warm_up fr c (s : State INS) :
  init s = 0 -> 1000 < tick_count c < 7000 ->
  gains (select_gains fr c s) = (F32.of_Z 1, F32.dlit 9 10, F32.dlit 23 100)
  /\ init (select_gains fr c s) = 0.
Proof.
  intros Hi [H1 H2]. unfold select_gains, forced_gains, gains.
  apply Z.ltb_lt in H1, H2.
  destruct fr; state_simpl; rewrite ?Hi, H1, H2; cbn [Z.eqb andb]; state_simpl;
    split; auto.
Qed.

Lemma updateC_warm_up fr c (s : State INS) :
  init s = 0 -> 1000 < tick_count c < 7000 ->
  init (snd (updateC fr c s)) = 0
  /\ (ok c = true ->
      gains (snd (updateC fr c s))
      = (F32.of_Z 1, F32.dlit 9 10, F32.dlit 23 100)).
Proof.
  intros Hi Ht. pose proof (updateC_gains fr c s) as G. cbv zeta in G.
  destruct (select_gains_warm_up fr c s Hi Ht) as [W1 W2].
  destruct (ok c).
  - destruct G as (G1 & G2 & _). rewrite G1, G2. auto.
  - destruct G as (_ & G2 & _). rewrite G2. split; [exact Hi|discriminate].
Qed.

(** X12: while [init] is clear, every pass made at a tick count strictly
    between 1000 and 7000 leaves it clear, and each such pass that finds
    both mandatory samples leaves the gains at (1, 0.9, 0.23), whatever
    the settings say. *)
Theorem warm_up_holds_the_gains fr cs c (s : State INS) :
  init s = 0 ->
  Forall (fun c' => 1000 < tick_count c' < 7000) (cs ++ [c]) ->
  ok c = true ->
  let s' := task_loop fr (cs ++ [c]) s in
  gains s' = (F32.of_Z 1, F32.dlit 9 10, F32.dlit 23 100) /\ init s' = 0.
Proof.
  intros Hi Hf Hok. cbv zeta. rewrite AttitudeTask_loop_snoc.
  apply Forall_app in Hf as [Hcs Hc]. inversion Hc as [|c' l' Hc' _]; subst.
  assert (I : init (task_loop fr cs s) = 0).
  { clear Hok Hc Hc'. revert fr s Hi.
    induction Hcs as [|c0 cs Hc0 Hcs IH]; intros fr s Hi; [exact Hi|].
    rewrite AttitudeTask_loop_cons. apply IH.
    apply (updateC_warm_up fr c0 s Hi Hc0). }
  destruct (updateC_warm_up (match cs with [] => fr | _ => false end) c _ I Hc')
    as [W1 W2].
  split; [apply W2, Hok|exact W1].
Qed.

(** The guard of lines 319-321 on a null magnetometer reading. *)
Lemma is_zero_lt_one x : is_zero x = true -> F32.lt x (F32.of_Z 1) = true.
Proof. destruct x as [[]|[]| |[] m e]; intros H; try discriminate H; reflexivity. Qed.

Lemma magnetic_error_null qu c :
  is_zero (vx (Magnetometer c)) = true -> is_zero (vy (Magnetometer c)) = true ->
  is_zero (vz (Magnetometer c)) = true ->
  magnetic_error qu c = zeros.
Proof.
  intros Hx Hy Hz. unfold magnetic_error. cbv zeta.
  rewrite (is_zero_lt_one _ (norm3_null _ Hx Hy Hz)), orb_true_r. reflexivity.
Qed.

(** X13: a magnetometer reading that is zero on all three axes gives a
    magnetic error of exactly zero, whether or not the poll of its queue
    succeeds: the guard on the length of the vector catches it (the
    accelerometer has no such guard). *)
Theorem null_magnetometer_gives_no_error fr c (s : State INS) :
  ok c = true ->
  F32.eq (vx (Magnetometer c)) F32.zero = true ->
  F32.eq (vy (Magnetometer c)) F32.zero = true ->
  F32.eq (vz (Magnetometer c)) F32.zero = true ->
  mag_err (snd (updateC fr c s)) = zeros.
Proof.
  intros H Hx Hy Hz.
  destruct (updateC_success M portTICK_RATE_MS fr c s H) as (now & s0 & -> & _).
  rewrite complimentary_filter_mag_err.
  destruct (fst (xQueueReceive c magQueue 0 now)); [reflexivity|].
  apply magnetic_error_null; apply eq_zero_is_zero; assumption.
Qed.

(** The proportional gain chosen depends on [init], on
    [zero_during_arming] and on the gain in force, nothing else. *)
Lemma select_gains_accelKp fr c (s1 s2 : State INS) :
  init s1 = init s2 -> zero_during_arming s1 = zero_during_arming s2 ->
  accelKp s1 = accelKp s2 ->
  accelKp (select_gains fr c s1) = accelKp (select_gains fr c s2).
Proof.
  intros Hi Hz Hk. unfold select_gains, forced_gains.
  destruct fr; state_simpl; rewrite ?Hi, ?Hz;
    repeat match goal with |- context [if ?b then _ else _] => destruct b end;
    state_simpl; auto.
Qed.

(** X14: the gyro bias the complementary filter accumulates is published
    and nothing more: the quaternion an iteration publishes does not
    depend on the gyro bias it starts from. *)
Theorem bias_estimate_is_not_fed_back fr c (b : vec3) (s : State INS) :
  att_q (AttitudeActual (snd (updateC fr c (set_GyrosBias b s))))
  = att_q (AttitudeActual (snd (updateC fr c s))).
Proof.
  rewrite !updateAttitudeComplimentary_cases.
  destruct (fst (gyro_wait _ c)); [|reflexivity].
  destruct (fst (accel_poll _ c)); [|reflexivity]. cbn [snd].
  match goal with
  | |- att_q (AttitudeActual (complimentary_filter M fr c ?now ?t1))
       = att_q (AttitudeActual (complimentary_filter M fr c ?now ?t2)) =>
      set (s1 := t1); set (s2 := t2);
      pose proof (complimentary_filter_publishes M fr c now s1) as P1;
      pose proof (complimentary_filter_publishes M fr c now s2) as P2;
      pose proof (complimentary_filter_mag_err M fr c now s1) as E1;
      pose proof (complimentary_filter_mag_err M fr c now s2) as E2
  end.
  cbv zeta in P1, P2. destruct P1 as (P1 & _), P2 as (P2 & _).
  assert (A : AttitudeActual s1 = AttitudeActual s2) by reflexivity.
  assert (T : timeval s1 = timeval s2) by reflexivity.
  assert (K : accelKp (select_gains fr c s1) = accelKp (select_gains fr c s2))
    by (apply select_gains_accelKp; reflexivity).
  rewrite P1, P2, E1, E2. unfold complimentary_dT. rewrite A, T, K.
  reflexivity.
Qed.

End TaskIterations.

(** The bitwise or of two 16-bit values fits in 16 bits. *)
Lemma lor_uint16 (a b : Z) :
  0 <= a < 2 ^ 16 -> 0 <= b < 2 ^ 16 -> uint16 (Z.lor a b) = Z.lor a b.
Proof.
  intros Ha Hb. unfold uint16. apply Z.mod_small.
  assert (Hn : 0 <= Z.lor a b) by (apply Z.lor_nonneg; lia).
  split; [exact Hn|].
  destruct (Z.eq_dec (Z.lor a b) 0) as [E|E]; [rewrite E; reflexivity|].
  apply Z.log2_lt_pow2; [lia|].
  rewrite Z.log2_lor by lia.
  apply Z.max_lub_lt.
  - destruct (Z.eq_dec a 0) as [->|Na]; [reflexivity|apply Z.log2_lt_pow2; lia].
  - destruct (Z.eq_dec b 0) as [->|Nb]; [reflexivity|apply Z.log2_lt_pow2; lia].
Qed.

(** ** The iterations of the INS/GPS estimator *)

Section InsGpsIterations.

Context {INS : Type} (M : MathLib) (L : InsLib INS) (portTICK_RATE_MS : Z).

Local Notation "'updateI'" := (updateAttitudeINSGPS M L portTICK_RATE_MS).
Local Notation "'T10'" := (Z.quot 10 portTICK_RATE_MS).
Local Notation "'mandatory' c" := (ins_mandatory_ok portTICK_RATE_MS c)
  (at level 10, c at level 9).
Local Notation "'gyro_ok' c" := (fst (ins_gyro_wait portTICK_RATE_MS c))
  (at level 10, c at level 9).
Local Notation "'accel_ok' c" := (fst (ins_accel_wait portTICK_RATE_MS c))
  (at level 10, c at level 9).
Local Notation "'flags'" := (optional_flags portTICK_RATE_MS).
Local Notation "'receives'" := (insgps_receives portTICK_RATE_MS).
Local Notation "'ins_loop'" := (estimator_loop M L portTICK_RATE_MS 0).
Local Notation "'corrected'" := (after_correction M L portTICK_RATE_MS).

(** The guard changes the filter and nothing else. *)
Lemma bias_guard_frame (s : State INS) :
  let s' := bias_guard L s in
  AttitudeActual s' = AttitudeActual s /\ GyrosBias s' = GyrosBias s
  /\ PositionActual s' = PositionActual s
  /\ VelocityActual s' = VelocityActual s
  /\ alarm s' = alarm s /\ inited s' = inited s
  /\ ins_last_time s' = ins_last_time s.
Proof.
  cbv zeta. unfold bias_guard. destruct (_ || _); repeat split; reflexivity.
Qed.

(** Neither the prediction and correction nor the guard touch the
    alarm. *)
Lemma insgps_update_alarm m b g c (s : State INS) :
  alarm (insgps_update M L m b g c s) = alarm s.
Proof.
  unfold insgps_update.
  destruct (bias_guard_frame (insgps_predict_correct M L m b g c s))
    as (_ & _ & _ & _ & -> & _).
  reflexivity.
Qed.

Lemma updateI_alarm fr c (s : State INS) :
  alarm (snd (updateI fr c s))
  = if mandatory c then alarm s else ALARM_WARNING.
Proof.
  rewrite updateAttitudeINSGPS_cases. cbv zeta. unfold ins_mandatory_ok.
  destruct (gyro_ok c); [destruct (accel_ok c)|]; cbn [andb];
    try reflexivity.
  destruct (flags c _) as [[m b] g].
  destruct (negb _ && _); [reflexivity|].
  destruct (negb _); [reflexivity|].
  cbn [snd]. rewrite insgps_update_alarm. reflexivity.
Qed.

(** X15: the INS/GPS estimator never clears the attitude alarm.  Over any
    passes, the alarm is raised as soon as one pass misses the gyro or the
    accelerometer sample and then stays raised; otherwise it is as it
    was. *)
Theorem insgps_never_clears_the_alarm fr cs (s : State INS) :
  alarm (ins_loop fr cs s)
  = if forallb (ins_mandatory_ok portTICK_RATE_MS) cs then alarm s
    else ALARM_WARNING.
Proof.
  revert fr s. induction cs as [|c cs IH]; intros fr s; [reflexivity|].
  rewrite ins_loop_cons, IH, updateI_alarm. cbn [forallb].
  destruct (mandatory c); cbn [andb]; [reflexivity|].
  destruct (forallb _ cs); reflexivity.
Qed.

(** What the correction step leaves published. *)
Lemma after_correction_published c (s : State INS) :
  let s' := corrected c s in
  att_q (AttitudeActual s') = q (Nav L (predicted L c s))
  /\ GyrosBias s' = gyro_bias (Nav L (predicted L c s))
  /\ PositionActual s' = Pos (Nav L (ins s'))
  /\ VelocityActual s' = Vel (Nav L (ins s'))
  /\ ins_last_time s' = uint32 (raw_time c).
Proof.
  cbv zeta. unfold after_correction. destruct (flags c true) as [[m b] g].
  unfold insgps_predict_correct, predicted, rates_predicted, insgps_dT.
  state_simpl. repeat split; reflexivity.
Qed.

(** X16: an iteration of the initialized INS/GPS estimator publishes
    the quaternion and the gyro bias of the filter as they are after the
    state prediction made with the rates (gyro + published bias) * pi/180,
    before the correction of the same iteration; the position and the
    velocity are those after the correction; and the guard on the gyro
    bias changes the filter only, none of the published objects. *)
Theorem insgps_publishes_the_prediction c (s : State INS) :
  inited s = true -> mandatory c = true ->
  let s' := snd (updateI false c s) in
  att_q (AttitudeActual s') = q (Nav L (predicted L c s))
  /\ GyrosBias s' = gyro_bias (Nav L (predicted L c s))
  /\ PositionActual s' = Pos (Nav L (ins (corrected c s)))
  /\ VelocityActual s' = Vel (Nav L (ins (corrected c s)))
  /\ ins s' = ins (bias_guard L (corrected c s)).
Proof.
  intros Hin Hm. cbv zeta. rewrite (insgps_running M L _ c s Hin Hm). cbn [snd].
  destruct (bias_guard_frame (corrected c s)) as (-> & -> & -> & -> & _).
  destruct (after_correction_published c s) as (-> & -> & -> & -> & _).
  repeat split; reflexivity.
Qed.

(** X17: when the GPS is not fresh, the mask handed to the correction
    holds the magnetometer bits exactly when the magnetometer is fresh and
    the barometer bit exactly when the barometer is fresh, and nothing
    else, provided the two constants fit in 16 bits. *)
Theorem mask_without_gps c (s : State INS) :
  0 <= MAG_SENSORS L < 2 ^ 16 -> 0 <= BARO_SENSOR L < 2 ^ 16 ->
  inited s = true -> mandatory c = true ->
  junk_gps c = false -> ins_poll portTICK_RATE_MS c gpsQueue = false ->
  masks_used (events_since s (snd (updateI false c s)))
  = [Z.lor (if ins_poll portTICK_RATE_MS c magQueue then MAG_SENSORS L else 0)
           (if ins_poll portTICK_RATE_MS c baroQueue then BARO_SENSOR L else 0)].
Proof.
  intros Hmag Hbaro Hin Hm Hj Hg.
  rewrite (insgps_running M L _ c s Hin Hm). cbn [snd]. unfold events_since.
  rewrite bias_guard_trace, after_correction_trace, skipn_length_app.
  rewrite masks_used_app. unfold optional_flags. rewrite Hj, Hg.
  cbn [orb masks_used insgps_receives app]. f_equal. unfold sensor_mask.
  assert (Um : uint16 (MAG_SENSORS L) = MAG_SENSORS L)
    by (apply Z.mod_small; exact Hmag).
  assert (Ub : uint16 (BARO_SENSOR L) = BARO_SENSOR L)
    by (apply Z.mod_small; exact Hbaro).
  destruct (ins_poll _ c magQueue), (ins_poll _ c baroQueue);
    rewrite ?Z.lor_0_l, ?Z.lor_0_r, ?Um, ?Ub, ?lor_uint16 by assumption;
    reflexivity.
Qed.

(** The events of an iteration, by the outcome of its two waits. *)
Lemma timeouts_on_app qu (l l' : list event) :
  timeouts_on qu (l ++ l') = timeouts_on qu l ++ timeouts_on qu l'.
Proof.
  induction l as [|e l IH]; [reflexivity|].
  destruct e as [e|qu' t b|d|d|m]; cbn [app timeouts_on]; try exact IH.
  destruct qu, qu'; cbn [app]; rewrite IH; reflexivity.
Qed.

Lemma insgps_update_trace m b g c (s : State INS) :
  trace (insgps_update M L m b g c s)
  = trace s ++ [EvStatePrediction (insgps_dT c s);
                EvCovariancePrediction (insgps_dT c s);
                EvCorrection (sensor_mask L m b g)].
Proof.
  unfold insgps_update. rewrite bias_guard_trace.
  unfold insgps_predict_correct, insgps_dT. state_simpl.
  rewrite <- !app_assoc. reflexivity.
Qed.

(** What one iteration does to the queues. *)
Lemma updateI_events fr c (s : State INS) :
  exists tail,
    events_since s (snd (updateI fr c s))
    = EvEstimator INSGPS
      :: EvReceive gyroQueue T10 (gyro_ok c)
      :: (if gyro_ok c then
            EvReceive accelQueue T10 (accel_ok c)
            :: (if accel_ok c then
                  [EvReceive magQueue 0 (ins_poll portTICK_RATE_MS c magQueue);
                   EvReceive baroQueue 0 (ins_poll portTICK_RATE_MS c baroQueue);
                   EvReceive gpsQueue 0 (ins_poll portTICK_RATE_MS c gpsQueue)]
                  ++ tail
                else [])
          else [])
    /\ forall qu, timeouts_on qu tail = [].
Proof.
  unfold events_since. rewrite updateAttitudeINSGPS_cases. cbv zeta.
  destruct (gyro_ok c); [destruct (accel_ok c)|].
  - destruct (flags c _) as [[m b] g].
    destruct (negb _ && _); [|destruct (negb _)]; cbn [snd].
    + exists []. state_simpl. rewrite skipn_length_app. split; reflexivity.
    + exists []. unfold insgps_initialize. state_simpl.
      rewrite skipn_length_app. split; reflexivity.
    + eexists. rewrite insgps_update_trace. state_simpl.
      rewrite <- app_assoc, skipn_length_app. split; [reflexivity|].
      intros qu. reflexivity.
  - exists []. cbn [snd]. state_simpl. rewrite skipn_length_app.
    split; reflexivity.
  - exists []. cbn [snd]. state_simpl. rewrite skipn_length_app.
    split; reflexivity.
Qed.

(** X18: each iteration of the INS/GPS estimator waits once for the gyro
    queue with a timeout of 10 ms; it waits for the accelerometer queue,
    with the same timeout, only when the gyro sample came; and it polls
    the magnetometer, barometer and GPS queues once each, without waiting,
    only when both mandatory samples came. *)
Theorem insgps_waits_then_polls fr c (s : State INS) :
  let l := events_since s (snd (updateI fr c s)) in
  timeouts_on gyroQueue l = [T10]
  /\ timeouts_on accelQueue l = (if gyro_ok c then [T10] else [])
  /\ timeouts_on magQueue l = (if mandatory c then [0] else [])
  /\ timeouts_on baroQueue l = (if mandatory c then [0] else [])
  /\ timeouts_on gpsQueue l = (if mandatory c then [0] else []).
Proof.
  cbv zeta. destruct (updateI_events fr c s) as (tail & -> & Ht).
  unfold ins_mandatory_ok.
  destruct (gyro_ok c); [destruct (accel_ok c)|];
    cbn [andb timeouts_on app]; rewrite ?Ht; repeat split; reflexivity.
Qed.

Lemma uint32_idem (z : Z) : uint32 (uint32 z) = uint32 z.
Proof. unfold uint32. apply Z.mod_mod. discriminate. Qed.

(** X19: the iteration that initializes the INS/GPS filter publishes
    nothing and makes no prediction or correction: attitude, gyro bias,
    position and velocity stay as they were.  It starts the clock: the
    time step of the next iteration is the raw time elapsed since the
    initialization, modulo 2^32 microseconds, clamped. *)
Theorem seeding_publishes_nothing (fr : bool) c c2 (s : State INS) :
  (if fr then false else inited s) = false ->
  all_five_fresh portTICK_RATE_MS c = true ->
  let s' := snd (updateI fr c s) in
  AttitudeActual s' = AttitudeActual s /\ GyrosBias s' = GyrosBias s
  /\ PositionActual s' = PositionActual s
  /\ VelocityActual s' = VelocityActual s
  /\ masks_used (events_since s s') = []
  /\ steps_predicted (events_since s s') = []
  /\ insgps_dT c2 s'
     = clamp_dT (F32.div (F32.of_Z (uint32 (raw_time c2 - raw_time c)))
                         (F32.lit 1000000 1)).
Proof.
  intros Hin Hf. cbv zeta. unfold events_since.
  rewrite updateAttitudeINSGPS_cases. cbv zeta.
  rewrite Hin, (flags_all_fresh _ c false Hf).
  unfold all_five_fresh, ins_mandatory_ok in Hf.
  apply andb_true_iff in Hf as [Hm _]. apply andb_true_iff in Hm as [-> ->].
  cbn [negb andb orb fst snd]. unfold insgps_initialize, insgps_dT.
  state_simpl. rewrite skipn_length_app.
  repeat split; try reflexivity.
  unfold PIOS_DELAY_DiffuS. rewrite uint32_idem. unfold uint32.
  rewrite Zminus_mod_idemp_r. reflexivity.
Qed.

Lemma bias_within_bound_zero : bias_exceeds F32.zero = false.
Proof. vm_compute. reflexivity. Qed.

(** X20: after every iteration of the initialized INS/GPS estimator that
    finds both mandatory samples, no component of the gyro bias of the
    filter tests as exceeding 0.1 in magnitude (a NaN does not test as
    exceeding). *)
Theorem insgps_bias_passes_the_guard (a : axis) c (s : State INS) :
  inited s = true -> mandatory c = true ->
  bias_exceeds
    (component a (gyro_bias (Nav L (ins (snd (updateI false c s))))))
  = false.
Proof.
  intros Hin Hm. rewrite (insgps_running M L _ c s Hin Hm). cbn [snd].
  unfold bias_guard.
  destruct (_ || _) eqn:E.
  - state_simpl. rewrite INSSetGyroBias_Nav.
    destruct a; apply bias_within_bound_zero.
  - apply orb_false_iff in E as [E Ez]. apply orb_false_iff in E as [Ex Ey].
    destruct a; assumption.
Qed.

(** One pass of an initialized estimator: it stays initialized, and
    predicts and corrects once when both mandatory samples came. *)
Lemma updateI_inited_step c (s : State INS) :
  inited s = true ->
  exists l,
    trace (snd (updateI false c s)) = trace s ++ l
    /\ inited (snd (updateI false c s)) = true
    /\ length (steps_predicted l) = (if mandatory c then 1 else 0)%nat
    /\ length (masks_used l) = (if mandatory c then 1 else 0)%nat.
Proof.
  intros Hin. destruct (mandatory c) eqn:Hm.
  - rewrite (insgps_running M L _ c s Hin Hm). cbn [snd].
    destruct (bias_guard_frame (corrected c s)) as (_ & _ & _ & _ & _ & Hi & _).
    rewrite bias_guard_trace, after_correction_trace, Hi.
    eexists. split; [reflexivity|]. split.
    + unfold after_correction. destruct (flags c true) as [[m b] g].
      unfold insgps_predict_correct. state_simpl. exact Hin.
    + rewrite steps_predicted_app, masks_used_app. split; reflexivity.
  - rewrite updateAttitudeINSGPS_cases. cbv zeta. unfold ins_mandatory_ok in Hm.
    destruct (gyro_ok c); [destruct (accel_ok c)|]; try discriminate Hm;
      cbn [snd]; state_simpl; eexists; (split; [reflexivity|]);
      (split; [exact Hin|]); split; reflexivity.
Qed.

(** X21: once initialized, the INS/GPS estimator stays initialized over any
    passes made after the first, and it makes exactly one state
    prediction and one correction for each pass that finds both mandatory
    samples, none for the others. *)
Theorem running_filter_steps_once_per_sample_pair cs (s : State INS) :
  inited s = true ->
  let s' := ins_loop false cs s in
  inited s' = true
  /\ length (steps_predicted (events_since s s'))
     = length (filter (ins_mandatory_ok portTICK_RATE_MS) cs)
  /\ length (masks_used (events_since s s'))
     = length (filter (ins_mandatory_ok portTICK_RATE_MS) cs).
Proof.
  intros Hin. cbv zeta.
  assert (H : exists l,
             trace (ins_loop false cs s) = trace s ++ l
             /\ inited (ins_loop false cs s) = true
             /\ length (steps_predicted l)
                = length (filter (ins_mandatory_ok portTICK_RATE_MS) cs)
             /\ length (masks_used l)
                = length (filter (ins_mandatory_ok portTICK_RATE_MS) cs)).
  { revert s Hin. induction cs as [|c cs IH]; intros s Hin.
    - exists []. rewrite app_nil_r. repeat split; auto.
    - rewrite ins_loop_cons.
      destruct (updateI_inited_step c s Hin) as (l & Ht & Hi & Hs & Hk).
      destruct (IH _ Hi) as (l' & Ht' & Hi' & Hs' & Hk').
      exists (l ++ l'). rewrite Ht', Ht, app_assoc.
      split; [reflexivity|]. split; [exact Hi'|].
      rewrite steps_predicted_app, masks_used_app, !length_app, Hs, Hk, Hs', Hk'.
      cbn [filter]. destruct (mandatory c); split; reflexivity. }
  destruct H as (l & Ht & Hi & Hs & Hk). unfold events_since.
  rewrite Ht, skipn_length_app. auto.
Qed.

End InsGpsIterations.

(** ** The settings callback *)

Section SettingsUpdate.

Context {INS : Type} (M : MathLib).

(** X22: a settings update leaves nothing of an earlier one: two updates
    in a row leave the state the second alone would. *)
Theorem settings_update_overwrites (a b : AttitudeSettingsData) (s : State INS) :
  settingsUpdatedCb M a (settingsUpdatedCb M b s) = settingsUpdatedCb M a s.
Proof.
  unfold settingsUpdatedCb.
  destruct (GyroBias a) as [[ax ay] az], (BoardRotation a) as [[a0 a1] a2],
    (GyroBias b) as [[bx by'] bz], (BoardRotation b) as [[b0 b1] b2].
  destruct ((b0 =? 0) && (b1 =? 0) && (b2 =? 0)),
    ((a0 =? 0) && (a1 =? 0) && (a2 =? 0)); reflexivity.
Qed.

(** Lines 601-606. *)
Lemma settingsUpdatedCb_GyrosBias (a : AttitudeSettingsData) (s : State INS) :
  GyrosBias (settingsUpdatedCb M a s)
  = (let '(gx, gy, gz) := GyroBias a in
     Vec3 (F32.of_Z gx / F32.lit 100 1) (F32.of_Z gy / F32.lit 100 1)
          (F32.of_Z gz / F32.lit 100 1))%f32.
Proof.
  unfold settingsUpdatedCb.
  destruct (GyroBias a) as [[ax ay] az], (BoardRotation a) as [[a0 a1] a2].
  destruct ((a0 =? 0) && (a1 =? 0) && (a2 =? 0)); reflexivity.
Qed.

(** X23: a settings update replaces the published gyro bias by the
    GyroBias setting divided by 100, component by component, whatever the
    estimators had accumulated; no component of the result is a NaN. *)
Theorem settings_update_replaces_the_bias
  (ax : axis) (a : AttitudeSettingsData) (s s' : State INS) :
  GyrosBias (settingsUpdatedCb M a s)
  = (let '(gx, gy, gz) := GyroBias a in
     Vec3 (F32.of_Z gx / F32.lit 100 1) (F32.of_Z gy / F32.lit 100 1)
          (F32.of_Z gz / F32.lit 100 1))%f32
  /\ F32.is_nan (component ax (GyrosBias (settingsUpdatedCb M a s))) = false
  /\ GyrosBias (settingsUpdatedCb M a s) = GyrosBias (settingsUpdatedCb M a s').
Proof.
  split; [apply settingsUpdatedCb_GyrosBias|].
  rewrite !settingsUpdatedCb_GyrosBias. split; [|reflexivity].
  destruct (GyroBias a) as [[gx gy] gz].
  change (F32.lit 100 1) with (S754_finite false 13107200 (-17)).
  destruct ax; cbn [component vx vy vz];
    apply div_finite_not_nan, of_Z_not_nan.
Qed.
End SettingsUpdate.

(** Zeros through the arithmetic, when the other operand is finite. *)
Lemma mul_zero_l x y :
  is_zero x = true -> F32.is_finite y = true -> is_zero (F32.mul x y) = true.
Proof.
  destruct x; intros Hx; try discriminate Hx;
    destruct y; intros Hy; try discriminate Hy; reflexivity.
Qed.
Lemma mul_zero_r x y :
  F32.is_finite x = true -> is_zero y = true -> is_zero (F32.mul x y) = true.
Proof.
  destruct y; intros Hx Hy; try discriminate Hy;
    destruct x; try discriminate Hx; reflexivity.
Qed.
Lemma div_zero_l x y :
  is_zero x = true -> zero_or_nan y = false -> is_zero (F32.div x y) = true.
Proof.
  destruct x; intros Hx; try discriminate Hx;
    destruct y; intros Hy; try discriminate Hy; reflexivity.
Qed.
Lemma add_zero x y :
  is_zero x = true -> is_zero y = true -> is_zero (F32.add x y) = true.
Proof.
  destruct x as [[]| | |]; intros Hx; try discriminate Hx;
    destruct y as [[]| | |]; intros Hy; try discriminate Hy; reflexivity.
Qed.
Lemma sub_zero x y :
  is_zero x = true -> is_zero y = true -> is_zero (F32.sub x y) = true.
Proof.
  destruct x as [[]| | |]; intros Hx; try discriminate Hx;
    destruct y as [[]| | |]; intros Hy; try discriminate Hy; reflexivity.
Qed.
Lemma neg_zero x : is_zero x = true -> is_zero (F32.neg x) = true.
Proof. destruct x; intros Hx; try discriminate Hx; reflexivity. Qed.
Lemma is_zero_finite x : is_zero x = true -> F32.is_finite x = true.
Proof. destruct x; intros Hx; try discriminate Hx; reflexivity. Qed.
Lemma add_plus_zero y : is_zero y = true -> F32.add F32.zero y = F32.zero.
Proof. destruct y as [[]| | |]; intros Hy; try discriminate Hy; reflexivity. Qed.
Lemma add_one_zero y : is_zero y = true -> F32.add (F32.of_Z 1) y = F32.of_Z 1.
Proof. destruct y as [[]| | |]; intros Hy; try discriminate Hy; reflexivity. Qed.

Create HintDb f32zero.
#[local] Hint Resolve mul_zero_l mul_zero_r div_zero_l add_zero sub_zero neg_zero
  is_zero_finite : f32zero.

Lemma F_PI_shape :
  F32.is_finite F_PI = true /\ zero_or_nan (F32.of_Z 180) = false
  /\ zero_or_nan (F32.of_Z 2) = false /\ F32.is_finite (F32.of_Z 1) = true
  /\ is_zero (F32.of_Z 0) = true /\ F32.is_finite magKp = true.
Proof. repeat split; vm_compute; reflexivity. Qed.

(** At the identity, gravity in the body frame is (0, 0, -1). *)
Lemma gravity_body_identity :
  gravity_body quat_identity
  = Vec3 (S754_zero true) (S754_zero true) (F32.neg (F32.of_Z 1)).
Proof. vm_compute. reflexivity. Qed.

Lemma gravity_error_level a :
  is_zero (vx a) = true -> is_zero (vy a) = true ->
  F32.is_finite (vz a) = true -> zero_or_nan (norm3 a) = false ->
  let e := gravity_error quat_identity a in
  is_zero (vx e) = true /\ is_zero (vy e) = true /\ is_zero (vz e) = true.
Proof.
  intros Hx Hy Hz Hn. unfold gravity_error. rewrite gravity_body_identity.
  unfold vec3_div, CrossProduct. cbn [vx vy vz].
  assert (H1 : F32.is_finite (F32.neg (F32.of_Z 1)) = true) by reflexivity.
  assert (H0 : is_zero (S754_zero true) = true) by reflexivity.
  repeat split; apply div_zero_l; auto 6 with f32zero.
Qed.

Lemma corrected_rates_rest gyros ae me Kp dT :
  is_zero (vx gyros) = true -> is_zero (vy gyros) = true ->
  is_zero (vz gyros) = true ->
  is_zero (vx ae) = true -> is_zero (vy ae) = true -> is_zero (vz ae) = true ->
  is_zero (vz me) = true ->
  F32.is_finite Kp = true -> zero_or_nan dT = false ->
  let g := corrected_rates gyros ae me Kp dT in
  is_zero (vx g) = true /\ is_zero (vy g) = true /\ is_zero (vz g) = true.
Proof.
  intros G1 G2 G3 A1 A2 A3 Mz HK HT. unfold corrected_rates. cbn [vx vy vz].
  destruct F_PI_shape as (_ & _ & _ & _ & _ & HM).
  repeat split; auto 8 with f32zero.
Qed.

Lemma quat_step_rest g dT :
  is_zero (vx g) = true -> is_zero (vy g) = true -> is_zero (vz g) = true ->
  F32.is_finite dT = true ->
  quat_step quat_identity g dT = quat_identity.
Proof.
  intros G1 G2 G3 HT. unfold quat_step, quat_identity. cbn [q0 q1 q2 q3].
  destruct F_PI_shape as (HP & H180 & H2 & H1 & H0 & _).
  change F32.one with (F32.of_Z 1). change F32.zero with (S754_zero false) in *.
  assert (Z0 : is_zero (S754_zero false) = true) by reflexivity.
  f_equal.
  - apply add_one_zero. auto 12 with f32zero.
  - apply add_plus_zero. auto 12 with f32zero.
  - apply add_plus_zero. auto 12 with f32zero.
  - apply add_plus_zero. auto 12 with f32zero.
Qed.

Lemma integrated_rest g dT :
  is_zero (vx g) = true -> is_zero (vy g) = true -> is_zero (vz g) = true ->
  F32.is_finite dT = true ->
  quat_renormalize (integrated quat_identity g dT)
    (quat_norm (integrated quat_identity g dT)) = quat_identity.
Proof.
  intros G1 G2 G3 HT. unfold integrated.
  rewrite (quat_step_rest g dT G1 G2 G3 HT). vm_compute. reflexivity.
Qed.

(** A finite value that is not a zero is neither a zero nor a NaN. *)
Lemma finite_not_zero_or_nan x :
  F32.is_finite x = true -> is_zero x = false -> zero_or_nan x = false.
Proof. destruct x; intros H1 H2; try discriminate H1; try discriminate H2; reflexivity. Qed.

(** ** The equilibrium of the complementary filter *)

Section Equilibrium.

Context {INS : Type} (M : MathLib) (portTICK_RATE_MS : Z).

Local Notation "'updateC'" :=
  (updateAttitudeComplimentary (INS := INS) M portTICK_RATE_MS).

(** X24: a level vehicle at rest holds the identity exactly.  From the
    identity quaternion, with all three gyro rates zero, the
    accelerometer reading along the body z axis only (finite, and with a
    length that computes to neither zero nor NaN), a fresh magnetometer
    sample, a finite proportional gain and a finite time step that is not
    zero, the iteration publishes the identity quaternion again. *)
Theorem level_at_rest_holds_the_identity fr c (s : State INS) :
  mandatory_ok portTICK_RATE_MS c = true ->
  fst (mag_poll portTICK_RATE_MS c) = true ->
  att_q (AttitudeActual s) = quat_identity ->
  F32.eq (vx (Gyros c)) F32.zero = true ->
  F32.eq (vy (Gyros c)) F32.zero = true ->
  F32.eq (vz (Gyros c)) F32.zero = true ->
  F32.eq (vx (Accels c)) F32.zero = true ->
  F32.eq (vy (Accels c)) F32.zero = true ->
  F32.is_finite (vz (Accels c)) = true ->
  zero_or_nan (norm3 (Accels c)) = false ->
  F32.is_finite (accelKp (select_gains fr c s)) = true ->
  F32.is_finite (complimentary_dT c s) = true ->
  is_zero (complimentary_dT c s) = false ->
  att_q (AttitudeActual (snd (updateC fr c s))) = quat_identity.
Proof.
  intros Hok Hmag Hq G1 G2 G3 A1 A2 A3 An HK HT1 HT2.
  rewrite updateAttitudeComplimentary_cases. unfold mandatory_ok in Hok.
  apply andb_true_iff in Hok as [Eg Ea]. rewrite Eg, Ea. cbn [snd].
  unfold mag_poll, accel_poll in Hmag. rewrite xQueueReceive_poll in Hmag.
  match goal with
  | |- att_q (AttitudeActual (complimentary_filter M fr c ?now ?t)) = _ =>
      set (s2 := t);
      pose proof (complimentary_filter_publishes M fr c now s2) as P;
      pose proof (complimentary_filter_mag_err M fr c now s2) as E
  end.
  cbv zeta in P. destruct P as (P & _). rewrite Hmag in E.
  assert (A : AttitudeActual s2 = AttitudeActual s) by reflexivity.
  assert (T : timeval s2 = timeval s) by reflexivity.
  assert (K : accelKp (select_gains fr c s2) = accelKp (select_gains fr c s))
    by (apply select_gains_accelKp; reflexivity).
  rewrite P, E. unfold complimentary_dT in *. rewrite A, T, K, Hq.
  destruct (gravity_error_level (Accels c)) as (E1 & E2 & E3);
    try assumption; try (apply eq_zero_is_zero; assumption).
  pose proof (finite_not_zero_or_nan _ HT1 HT2) as HT.
  destruct (corrected_rates_rest (Gyros c)
              (gravity_error quat_identity (Accels c)) zeros
              (accelKp (select_gains fr c s))
              (F32.div (F32.of_Z (PIOS_DELAY_DiffuS c (timeval s)))
                       (F32.lit 1000000 1)))
    as (R1 & R2 & R3); try assumption; try reflexivity;
    try (apply eq_zero_is_zero; assumption).
  apply integrated_rest; assumption.
Qed.

End Equilibrium.





(** ** The time step of the two estimators *)

Section TimeStep.

Context {INS : Type} (M : MathLib) (L : InsLib INS) (portTICK_RATE_MS : Z).

Local Notation "'updateI'" := (updateAttitudeINSGPS M L portTICK_RATE_MS).
Local Notation "'updateC'" :=
  (updateAttitudeComplimentary (INS := INS) M portTICK_RATE_MS).
Local Notation "'corrected'" := (after_correction M L portTICK_RATE_MS).




End TimeStep.

(** ** The further properties at concrete inputs *)

Ltac give H := split; [exact H|].

(** X1 (witness). *)
Lemma published_scalar_never_negative_witness :
  mandatory_ok 1 (level_cycle 0) = true
  /\ F32.lt (q0 (att_q (AttitudeActual
                          (snd (updateAttitudeComplimentary plain_math 1 true
                                  (level_cycle 0) initial_state)))))
            F32.zero = false.
Proof.
  assert (H : mandatory_ok 1 (level_cycle 0) = true) by reflexivity.
  split; [exact H|].
  exact (published_scalar_never_negative plain_math 1 true (level_cycle 0)
           initial_state H).
Defined.

(** X2 (witness). *)
Lemma published_quaternion_numeric_witness :
  let r := snd (updateAttitudeComplimentary plain_math 1 true (level_cycle 0)
                  initial_state) in
  mandatory_ok 1 (level_cycle 0) = true
  /\ qmag r <> S754_infinity false
  /\ F32.is_nan (q0 (att_q (AttitudeActual r))) = false
  /\ F32.le F32.zero (q0 (att_q (AttitudeActual r))) = true.
Proof.
  cbv zeta.
  assert (H : mandatory_ok 1 (level_cycle 0) = true) by reflexivity.
  assert (Hq : qmag (snd (updateAttitudeComplimentary plain_math 1 true
                            (level_cycle 0) initial_state))
               <> S754_infinity false) by (vm_compute; discriminate).
  destruct (published_quaternion_numeric plain_math 1 true (level_cycle 0)
              initial_state H Hq) as (H0 & _ & _ & _ & Hle).
  give H. give Hq. give H0. exact Hle.
Defined.

(** X3 (witness). *)
Lemma norm_overflow_publishes_no_rotation_witness :
  let c := with_Gyros runaway_rate (level_cycle 0) in
  let r := snd (updateAttitudeComplimentary plain_math 1 true c initial_state) in
  mandatory_ok 1 c = true
  /\ qmag r = S754_infinity false
  /\ zero_or_nan (q0 (att_q (AttitudeActual r))) = true
  /\ zero_or_nan (q1 (att_q (AttitudeActual r))) = true
  /\ zero_or_nan (q2 (att_q (AttitudeActual r))) = true
  /\ zero_or_nan (q3 (att_q (AttitudeActual r))) = true.
Proof.
  cbv zeta.
  assert (H : mandatory_ok 1 (with_Gyros runaway_rate (level_cycle 0)) = true)
    by reflexivity.
  assert (Hq : qmag (snd (updateAttitudeComplimentary plain_math 1 true
                            (with_Gyros runaway_rate (level_cycle 0))
                            initial_state))
               = S754_infinity false) by (vm_compute; reflexivity).
  destruct (norm_overflow_publishes_no_rotation plain_math 1 true _
              initial_state H Hq) as (H0 & H1 & H2 & H3).
  give H. give Hq. give H0. give H1. give H2. exact H3.
Defined.

(** X4 (witness). *)
Lemma zero_acceleration_resets_attitude_witness :
  let r := snd (updateAttitudeComplimentary plain_math 1 true free_fall
                  initial_state) in
  mandatory_ok 1 free_fall = true
  /\ F32.eq (vx (Accels free_fall)) F32.zero = true
  /\ F32.eq (vy (Accels free_fall)) F32.zero = true
  /\ F32.eq (vz (Accels free_fall)) F32.zero = true
  /\ att_q (AttitudeActual r) = quat_identity
  /\ F32.is_nan (vx (GyrosBias r)) = true
  /\ F32.is_nan (vy (GyrosBias r)) = true.
Proof.
  cbv zeta.
  assert (H : mandatory_ok 1 free_fall = true) by reflexivity.
  assert (Hx : F32.eq (vx (Accels free_fall)) F32.zero = true) by reflexivity.
  assert (Hy : F32.eq (vy (Accels free_fall)) F32.zero = true) by reflexivity.
  assert (Hz : F32.eq (vz (Accels free_fall)) F32.zero = true) by reflexivity.
  destruct (zero_acceleration_resets_attitude plain_math 1 true free_fall
              initial_state H Hx Hy Hz) as (Hq & Hbx & Hby).
  give H. give Hx. give Hy. give Hz. give Hq. give Hbx. exact Hby.
Defined.

(** X5 (witness). *)
Lemma zero_elapsed_time_resets_attitude_witness :
  let c := with_raw_time 0 (spin_cycle 10000) in
  mandatory_ok 1 c = true
  /\ PIOS_DELAY_DiffuS c (timeval initial_state) = 0
  /\ att_q (AttitudeActual
              (snd (updateAttitudeComplimentary plain_math 1 true c
                      initial_state)))
     = quat_identity.
Proof.
  cbv zeta.
  assert (H : mandatory_ok 1 (with_raw_time 0 (spin_cycle 10000)) = true)
    by reflexivity.
  assert (Hd : PIOS_DELAY_DiffuS (with_raw_time 0 (spin_cycle 10000))
                 (timeval initial_state) = 0) by reflexivity.
  split; [exact H|]. split; [exact Hd|].
  exact (zero_elapsed_time_resets_attitude plain_math 1 true _ initial_state
           H Hd).
Defined.

(** X6 (witness). *)
Lemma null_quaternion_is_replaced_witness :
  let qu := att_q (AttitudeActual overflowed_state) in
  mandatory_ok 1 (level_cycle 1) = true
  /\ F32.eq (q0 qu) F32.zero = true /\ F32.eq (q1 qu) F32.zero = true
  /\ F32.eq (q2 qu) F32.zero = true /\ F32.eq (q3 qu) F32.zero = true
  /\ att_q (AttitudeActual
              (snd (updateAttitudeComplimentary plain_math 1 false
                      (level_cycle 1) overflowed_state)))
     = quat_identity.
Proof.
  cbv zeta.
  assert (H : mandatory_ok 1 (level_cycle 1) = true) by reflexivity.
  assert (H0 : F32.eq (q0 (att_q (AttitudeActual overflowed_state))) F32.zero
               = true) by (vm_compute; reflexivity).
  assert (H1 : F32.eq (q1 (att_q (AttitudeActual overflowed_state))) F32.zero
               = true) by (vm_compute; reflexivity).
  assert (H2 : F32.eq (q2 (att_q (AttitudeActual overflowed_state))) F32.zero
               = true) by (vm_compute; reflexivity).
  assert (H3 : F32.eq (q3 (att_q (AttitudeActual overflowed_state))) F32.zero
               = true) by (vm_compute; reflexivity).
  give H. give H0. give H1. give H2. give H3.
  exact (null_quaternion_is_replaced plain_math 1 false (level_cycle 1)
           overflowed_state H H0 H1 H2 H3).
Defined.

(** X7 (witness). *)
Lemma nan_bias_is_never_shed_witness :
  F32.is_nan (component axis_x (GyrosBias poisoned_state)) = true
  /\ F32.is_nan
       (component axis_x
          (GyrosBias (AttitudeTask_loop plain_math plain_ins 1 false
                        [level_cycle 1; level_cycle 2] poisoned_state)))
     = true.
Proof.
  assert (H : F32.is_nan (component axis_x (GyrosBias poisoned_state)) = true)
    by (vm_compute; reflexivity).
  split; [exact H|].
  exact (nan_bias_is_never_shed plain_math plain_ins 1 axis_x false _
           poisoned_state H).
Defined.

(** X8 (witness). *)
Lemma early_start_skips_the_warm_up_witness :
  let c := with_tick_count 500 (level_cycle 0) in
  let cs := [with_tick_count 3000 (level_cycle 1)] in
  let s' := AttitudeTask_loop plain_math plain_ins 1 true (c :: cs)
              initial_state in
  mandatory_ok 1 c = true
  /\ tick_count c <= 1000
  /\ accelKp s' = AccelKp no_settings
  /\ accelKi s' = AccelKi no_settings
  /\ init s' = 1.
Proof.
  cbv zeta.
  assert (H : mandatory_ok 1 (with_tick_count 500 (level_cycle 0)) = true)
    by reflexivity.
  assert (Ht : tick_count (with_tick_count 500 (level_cycle 0)) <= 1000)
    by (vm_compute; discriminate).
  assert (Hf : Forall (fun c' => zero_during_arming initial_state
                                 && is_arming (Armed c') = false)
                 [with_tick_count 500 (level_cycle 0);
                  with_tick_count 3000 (level_cycle 1)])
    by (repeat constructor).
  destruct (early_start_skips_the_warm_up plain_math plain_ins 1 _ _
              initial_state H Ht Hf) as (Hp & Hi & _ & Hin).
  give H. give Ht. give Hp. give Hi. exact Hin.
Defined.

(** X9 (witness). *)
Lemma arming_forces_the_gains_until_reload_witness :
  let c1 := with_Armed FLIGHTSTATUS_ARMED_ARMING (level_cycle 0) in
  let c2 := level_cycle 1 in
  let s1 := snd (updateAttitudeComplimentary plain_math 1 true c1
                   arming_state) in
  let s2 := snd (updateAttitudeComplimentary plain_math 1 false c2 s1) in
  zero_during_arming arming_state = true
  /\ mandatory_ok 1 c1 = true /\ is_arming (Armed c1) = true
  /\ mandatory_ok 1 c2 = true /\ is_arming (Armed c2) = false
  /\ (tick_count c2 <= 1000 \/ 7000 <= tick_count c2)
  /\ gains s1 = (F32.of_Z 1, F32.dlit 9 10, F32.dlit 23 100)
  /\ init s1 = 0
  /\ gains s2 = (AccelKp no_settings, AccelKi no_settings,
                 YawBiasRate no_settings)
  /\ init s2 = 1.
Proof.
  cbv zeta.
  assert (Hz : zero_during_arming arming_state = true) by reflexivity.
  assert (H1 : mandatory_ok 1 (with_Armed FLIGHTSTATUS_ARMED_ARMING
                                 (level_cycle 0)) = true) by reflexivity.
  assert (A1 : is_arming (Armed (with_Armed FLIGHTSTATUS_ARMED_ARMING
                                   (level_cycle 0))) = true) by reflexivity.
  assert (H2 : mandatory_ok 1 (level_cycle 1) = true) by reflexivity.
  assert (A2 : is_arming (Armed (level_cycle 1)) = false) by reflexivity.
  assert (Ht : tick_count (level_cycle 1) <= 1000
               \/ 7000 <= tick_count (level_cycle 1))
    by (right; vm_compute; discriminate).
  destruct (arming_forces_the_gains_until_reload plain_math 1 true
              _ _ arming_state Hz H1 A1 H2 A2 Ht) as (G1 & I1 & G2 & I2).
  give Hz. give H1. give A1. give H2. give A2. give Ht.
  give G1. give I1. give G2. exact I2.
Defined.

(** X10 (witness). *)
Lemma time_step_spans_failed_iterations_witness :
  let cs := [with_arrival (all_but gyroQueue) (level_cycle 1);
             with_arrival accel_late (level_cycle 2)] in
  let s' := AttitudeTask_loop plain_math plain_ins 1 true
              (level_cycle 0 :: cs) initial_state in
  mandatory_ok 1 (level_cycle 0) = true
  /\ Forall (fun c => mandatory_ok 1 c = false) cs
  /\ PIOS_DELAY_DiffuS (level_cycle 3) (timeval s') = 30000.
Proof.
  cbv zeta.
  assert (H : mandatory_ok 1 (level_cycle 0) = true) by reflexivity.
  assert (Hf : Forall (fun c => mandatory_ok 1 c = false)
                 [with_arrival (all_but gyroQueue) (level_cycle 1);
                  with_arrival accel_late (level_cycle 2)])
    by (repeat constructor).
  destruct (time_step_spans_failed_iterations plain_math plain_ins 1 true
              (level_cycle 0) _ (level_cycle 3) initial_state H Hf)
    as (Hd & _).
  give H. give Hf. exact Hd.
Defined.

(** X11 (witness). *)
Lemma fresh_magnetometer_sample_is_ignored_witness :
  fst (mag_poll 1 (level_cycle 0)) = true
  /\ updateAttitudeComplimentary plain_math 1 true
       (with_Magnetometer turned_field (level_cycle 0)) initial_state
     = updateAttitudeComplimentary plain_math 1 true (level_cycle 0)
         initial_state.
Proof.
  assert (H : fst (mag_poll 1 (level_cycle 0)) = true) by reflexivity.
  split; [exact H|].
  exact (fresh_magnetometer_sample_is_ignored plain_math 1 true
           (level_cycle 0) turned_field initial_state H).
Defined.

(** X12 (witness). *)
Lemma warm_up_holds_the_gains_witness :
  let cs := [with_tick_count 2000 (level_cycle 0)] in
  let c := with_tick_count 3000 (level_cycle 1) in
  let s' := AttitudeTask_loop plain_math plain_ins 1 true (cs ++ [c])
              initial_state in
  init initial_state = 0
  /\ Forall (fun c' => 1000 < tick_count c' < 7000) (cs ++ [c])
  /\ mandatory_ok 1 c = true
  /\ gains s' = (F32.of_Z 1, F32.dlit 9 10, F32.dlit 23 100)
  /\ init s' = 0.
Proof.
  cbv zeta.
  assert (Hi : init initial_state = 0) by reflexivity.
  assert (Hf : Forall (fun c' => 1000 < tick_count c' < 7000)
                 ([with_tick_count 2000 (level_cycle 0)]
                  ++ [with_tick_count 3000 (level_cycle 1)]))
    by (repeat constructor).
  assert (H : mandatory_ok 1 (with_tick_count 3000 (level_cycle 1)) = true)
    by reflexivity.
  destruct (warm_up_holds_the_gains plain_math plain_ins 1 true _ _
              initial_state Hi Hf H) as (G & I).
  give Hi. give Hf. give H. give G. exact I.
Defined.

(** X13 (witness). *)
Lemma null_magnetometer_gives_no_error_witness :
  let c := with_arrival (all_but magQueue)
             (with_Magnetometer zeros (level_cycle 0)) in
  mandatory_ok 1 c = true
  /\ F32.eq (vx (Magnetometer c)) F32.zero = true
  /\ F32.eq (vy (Magnetometer c)) F32.zero = true
  /\ F32.eq (vz (Magnetometer c)) F32.zero = true
  /\ mag_err (snd (updateAttitudeComplimentary plain_math 1 true c
                     initial_state)) = zeros.
Proof.
  cbv zeta.
  set (c := with_arrival (all_but magQueue)
              (with_Magnetometer zeros (level_cycle 0))).
  assert (H : mandatory_ok 1 c = true) by reflexivity.
  assert (Hx : F32.eq (vx (Magnetometer c)) F32.zero = true) by reflexivity.
  assert (Hy : F32.eq (vy (Magnetometer c)) F32.zero = true) by reflexivity.
  assert (Hz : F32.eq (vz (Magnetometer c)) F32.zero = true) by reflexivity.
  give H. give Hx. give Hy. give Hz.
  exact (null_magnetometer_gives_no_error plain_math 1 true c
           initial_state H Hx Hy Hz).
Defined.

(** X16 (witness). *)
Lemma insgps_publishes_the_prediction_witness :
  let s' := snd (updateAttitudeINSGPS plain_math plain_ins 1 false
                   (level_cycle 1) seeded_state) in
  inited seeded_state = true
  /\ ins_mandatory_ok 1 (level_cycle 1) = true
  /\ att_q (AttitudeActual s')
     = q (Nav plain_ins (predicted plain_ins (level_cycle 1) seeded_state))
  /\ GyrosBias s'
     = gyro_bias (Nav plain_ins
                    (predicted plain_ins (level_cycle 1) seeded_state)).
Proof.
  cbv zeta.
  assert (H1 : inited seeded_state = true) by reflexivity.
  assert (H2 : ins_mandatory_ok 1 (level_cycle 1) = true) by reflexivity.
  destruct (insgps_publishes_the_prediction plain_math plain_ins 1
              (level_cycle 1) seeded_state H1 H2) as (Hq & Hb & _).
  give H1. give H2. give Hq. exact Hb.
Defined.

(** X17 (witness). *)
Lemma mask_without_gps_witness :
  let c := with_arrival (all_but gpsQueue) (level_cycle 1) in
  0 <= MAG_SENSORS plain_ins < 2 ^ 16
  /\ 0 <= BARO_SENSOR plain_ins < 2 ^ 16
  /\ inited seeded_state = true /\ ins_mandatory_ok 1 c = true
  /\ junk_gps c = false /\ ins_poll 1 c gpsQueue = false
  /\ masks_used
       (events_since seeded_state
          (snd (updateAttitudeINSGPS plain_math plain_ins 1 false c
                  seeded_state)))
     = [Z.lor (if ins_poll 1 c magQueue then MAG_SENSORS plain_ins else 0)
              (if ins_poll 1 c baroQueue then BARO_SENSOR plain_ins else 0)].
Proof.
  cbv zeta.
  set (c := with_arrival (all_but gpsQueue) (level_cycle 1)).
  assert (Hm : 0 <= MAG_SENSORS plain_ins < 2 ^ 16)
    by (split; [discriminate|reflexivity]).
  assert (Hb : 0 <= BARO_SENSOR plain_ins < 2 ^ 16)
    by (split; [discriminate|reflexivity]).
  assert (H1 : inited seeded_state = true) by reflexivity.
  assert (H2 : ins_mandatory_ok 1 c = true) by reflexivity.
  assert (H3 : junk_gps c = false) by reflexivity.
  assert (H4 : ins_poll 1 c gpsQueue = false) by reflexivity.
  give Hm. give Hb. give H1. give H2. give H3. give H4.
  exact (mask_without_gps plain_math plain_ins 1 c seeded_state
           Hm Hb H1 H2 H3 H4).
Defined.

(** X19 (witness). *)
Lemma seeding_publishes_nothing_witness :
  let s' := snd (updateAttitudeINSGPS plain_math plain_ins 1 true
                   (level_cycle 0) initial_state) in
  all_five_fresh 1 (level_cycle 0) = true
  /\ AttitudeActual s' = AttitudeActual initial_state
  /\ steps_predicted (events_since initial_state s') = []
  /\ insgps_dT (level_cycle 1) s'
     = clamp_dT (F32.div (F32.of_Z (uint32 (raw_time (level_cycle 1)
                                            - raw_time (level_cycle 0))))
                         (F32.lit 1000000 1)).
Proof.
  cbv zeta.
  assert (H1 : (if true then false else inited initial_state) = false)
    by reflexivity.
  assert (H2 : all_five_fresh 1 (level_cycle 0) = true) by reflexivity.
  destruct (seeding_publishes_nothing plain_math plain_ins 1 true
              (level_cycle 0) (level_cycle 1) initial_state H1 H2)
    as (Ha & _ & _ & _ & _ & Hs & Hd).
  give H2. give Ha. give Hs. exact Hd.
Defined.

(** X20 (witness). *)
Lemma insgps_bias_passes_the_guard_witness :
  inited biased_state = true
  /\ ins_mandatory_ok 1 (level_cycle 1) = true
  /\ bias_exceeds
       (component axis_x
          (gyro_bias
             (Nav plain_ins
                (ins (snd (updateAttitudeINSGPS plain_math plain_ins 1 false
                             (level_cycle 1) biased_state))))))
     = false.
Proof.
  assert (H1 : inited biased_state = true) by reflexivity.
  assert (H2 : ins_mandatory_ok 1 (level_cycle 1) = true) by reflexivity.
  give H1. give H2.
  exact (insgps_bias_passes_the_guard plain_math plain_ins 1 axis_x
           (level_cycle 1) biased_state H1 H2).
Defined.

(** X21 (witness). *)
Lemma running_filter_steps_once_per_sample_pair_witness :
  let cs := [level_cycle 1; with_arrival (all_but gyroQueue) (level_cycle 2);
             level_cycle 3] in
  let s' := estimator_loop plain_math plain_ins 1 0 false cs seeded_state in
  inited seeded_state = true
  /\ inited s' = true
  /\ length (steps_predicted (events_since seeded_state s')) = 2%nat.
Proof.
  cbv zeta.
  assert (H1 : inited seeded_state = true) by reflexivity.
  destruct (running_filter_steps_once_per_sample_pair plain_math plain_ins 1
              [level_cycle 1;
               with_arrival (all_but gyroQueue) (level_cycle 2);
               level_cycle 3] seeded_state H1) as (Hi & Hs & _).
  give H1. give Hi. exact Hs.
Defined.

(** X24 (witness). *)
Lemma level_at_rest_holds_the_identity_witness :
  let c := level_cycle 0 in
  mandatory_ok 1 c = true
  /\ fst (mag_poll 1 c) = true
  /\ att_q (AttitudeActual initial_state) = quat_identity
  /\ F32.is_finite (vz (Accels c)) = true
  /\ zero_or_nan (norm3 (Accels c)) = false
  /\ F32.is_finite (accelKp (select_gains true c initial_state)) = true
  /\ F32.is_finite (complimentary_dT c initial_state) = true
  /\ is_zero (complimentary_dT c initial_state) = false
  /\ att_q (AttitudeActual
              (snd (updateAttitudeComplimentary plain_math 1 true c
                      initial_state)))
     = quat_identity.
Proof.
  cbv zeta.
  assert (H1 : mandatory_ok 1 (level_cycle 0) = true) by reflexivity.
  assert (H2 : fst (mag_poll 1 (level_cycle 0)) = true) by reflexivity.
  assert (H3 : att_q (AttitudeActual initial_state) = quat_identity)
    by reflexivity.
  assert (G1 : F32.eq (vx (Gyros (level_cycle 0))) F32.zero = true)
    by reflexivity.
  assert (G2 : F32.eq (vy (Gyros (level_cycle 0))) F32.zero = true)
    by reflexivity.
  assert (G3 : F32.eq (vz (Gyros (level_cycle 0))) F32.zero = true)
    by reflexivity.
  assert (A1 : F32.eq (vx (Accels (level_cycle 0))) F32.zero = true)
    by reflexivity.
  assert (A2 : F32.eq (vy (Accels (level_cycle 0))) F32.zero = true)
    by reflexivity.
  assert (A3 : F32.is_finite (vz (Accels (level_cycle 0))) = true)
    by (vm_compute; reflexivity).
  assert (An : zero_or_nan (norm3 (Accels (level_cycle 0))) = false)
    by (vm_compute; reflexivity).
  assert (HK : F32.is_finite
                 (accelKp (select_gains true (level_cycle 0) initial_state))
               = true) by (vm_compute; reflexivity).
  assert (T1 : F32.is_finite (complimentary_dT (level_cycle 0) initial_state)
               = true) by (vm_compute; reflexivity).
  assert (T2 : is_zero (complimentary_dT (level_cycle 0) initial_state)
               = false) by (vm_compute; reflexivity).
  give H1. give H2. give H3. give A3. give An. give HK. give T1. give T2.
  exact (level_at_rest_holds_the_identity plain_math 1 true (level_cycle 0)
           initial_state H1 H2 H3 G1 G2 G3 A1 A2 A3 An HK T1 T2).
Defined.

